(** * Resilient batch review engine: error handling and batch dispatch

    A shallow embedding of [gitlab_integration/error_handler.py] and
    [gitlab_integration/batch_processor.py], with the properties of the
    retry policy, the circuit breaker, the resilient session, the error
    recovery manager, the degradation registry, the batch coordinator and
    its analytics.

    Conventions of the embedding:
    - Python [float] values (delays, clock readings) are rationals [Q]:
      rounding is not modelled; the range is, where the code computes a
      power, which raises [OverflowError] beyond it;
    - a Python exception is a record carrying its class name, the names of
      its base classes (for [isinstance] and [except] clauses), the HTTP
      status it may carry and its message; the record stands for the
      exceptions that derive from [Exception], which is what every
      [except Exception] clause of the code catches;
    - a call that may raise returns an [Outcome];
    - objects that the code mutates ([CircuitBreaker], the manager's
      history, the processor's result list) are threaded explicitly. *)

From Stdlib Require Import ZArith QArith Qabs Qminmax Qpower Lia Lqa String List.
From Stdlib Require Import Permutation.
From stdpp Require Import base option list gmap strings pretty.
Import ListNotations.

Local Open Scope string_scope.
Local Open Scope Z_scope.

(** ** Exceptions and outcomes *)

Record Exn : Type := mkExn {
  exc_name   : string;        (* type(e).__name__ *)
  exc_bases  : list string;   (* names of the proper base classes *)
  exc_status : option Z;      (* e.response.status_code of an HTTPError *)
  exc_msg    : string         (* str(e) *)
}.

(** [isinstance(e, cls)] *)
Definition isinstance (e : Exn) (cls : string) : bool :=
  String.eqb cls "Exception"
  || String.eqb (exc_name e) cls
  || existsb (String.eqb cls) (exc_bases e).

(** [isinstance(e, (c1, ..., cn))], the test of [except (c1, ..., cn)] *)
Definition isinstance_any (e : Exn) (classes : list string) : bool :=
  existsb (isinstance e) classes.

Inductive Outcome (A : Type) : Type :=
| Return (v : A)
| Raise (e : Exn).
Arguments Return {A} v.
Arguments Raise {A} e.

Definition raised {A} (o : Outcome A) : bool :=
  match o with Return _ => false | Raise _ => true end.

(** The exception classes the code names. *)
Definition requests_bases : list string :=
  ["RequestException"; "OSError"; "Exception"; "BaseException"].

Definition ConnectionError (msg : string) : Exn :=
  mkExn "ConnectionError" requests_bases None msg.
Definition Timeout (msg : string) : Exn :=
  mkExn "Timeout" requests_bases None msg.
Definition HTTPError (status : Z) (msg : string) : Exn :=
  mkExn "HTTPError" requests_bases (Some status) msg.
Definition ValueError (msg : string) : Exn :=
  mkExn "ValueError" ["Exception"; "BaseException"] None msg.
Definition KeyError (msg : string) : Exn :=
  mkExn "KeyError" ["LookupError"; "Exception"; "BaseException"] None msg.
Definition TypeError (msg : string) : Exn :=
  mkExn "TypeError" ["Exception"; "BaseException"] None msg.
Definition OverflowError (msg : string) : Exn :=
  mkExn "OverflowError" ["ArithmeticError"; "Exception"; "BaseException"]
    None msg.
Definition ZeroDivisionError (msg : string) : Exn :=
  mkExn "ZeroDivisionError" ["ArithmeticError"; "Exception"; "BaseException"]
    None msg.
(** [raise Exception(msg)] *)
Definition PlainException (msg : string) : Exn :=
  mkExn "Exception" ["BaseException"] None msg.

(** ** RetryConfig *)

Module RetryPolicy.

Record RetryConfig : Type := mkRetryConfig {
  max_attempts          : Z;
  base_delay            : Q;
  max_delay             : Q;
  exponential_base      : Q;
  jitter                : bool;
  retry_on_exceptions   : list string;
  retry_on_status_codes : list Z
}.

Definition default_config : RetryConfig :=
  mkRetryConfig 3 1 60 2 true
    ["ConnectionError"; "Timeout"; "HTTPError"]
    [429; 500; 502; 503; 504].

Definition default_no_jitter : RetryConfig :=
  mkRetryConfig 3 1 60 2 false
    ["ConnectionError"; "Timeout"; "HTTPError"]
    [429; 500; 502; 503; 504].

(** *** Float powers

    The rationals stand for the floats without their rounding, but with
    their range: from [float_overflow] = 2^1024 - 2^970 on, a magnitude
    rounds to infinity. *)
Definition float_overflow : Q := (2 ^ 1024 - 2 ^ 970)%Q.
Arguments float_overflow : simpl never.

(** [x ** n] for a float [x] and an int [n]: the exponent is converted to a
    float first; a zero base with a negative exponent and a result out of
    the float range raise. *)
Definition float_pow (x : Q) (n : Z) : Outcome Q :=
  if Qle_bool float_overflow (Qabs (inject_Z n)) then
    Raise (OverflowError "int too large to convert to float")
  else if Qeq_bool x 0 && (n <? 0) then
    Raise (ZeroDivisionError "0.0 cannot be raised to a negative power")
  else if Qle_bool float_overflow (Qabs (x ^ n)) then
    Raise (OverflowError "(34, 'Numerical result out of range')")
  else Return (x ^ n)%Q.

(** The delay before jitter, for a power within the float range:
    [min(base_delay * exponential_base ** (attempt - 1), max_delay)]. *)
Definition capped_delay (c : RetryConfig) (attempt : Z) : Q :=
  Qmin (base_delay c * exponential_base c ^ (attempt - 1)) (max_delay c).

(** [calculate_delay]; [rnd] is the value [random.random()] returns, drawn
    only when [jitter] is set. The call raises what the power raises. *)
Definition calculate_delay (c : RetryConfig) (attempt : Z) (rnd : Q)
    : Outcome Q :=
  match float_pow (exponential_base c) (attempt - 1) with
  | Raise e => Raise e
  | Return power =>
      let delay := Qmin (base_delay c * power) (max_delay c) in
      Return (if jitter c then delay * ((1 # 2) + rnd * (1 # 2)) else delay)%Q
  end.

(** The power [exponential_base ** (attempt - 1)] lies within the float
    range. *)
Definition power_in_range (c : RetryConfig) (attempt : Z) : Prop :=
  (Qabs (inject_Z (attempt - 1)) < float_overflow /\
   Qabs (exponential_base c ^ (attempt - 1)) < float_overflow)%Q.

(** *** retry_with_backoff

    The wrapped function acts on a world [W]; the run reports the outcome,
    the world it leaves, how many times the function was invoked and the
    delays slept, in order. [rnd k] is the draw of [random.random()] at
    attempt [k]. *)

Section Retry.
Context {W V : Type}.

Record RetryRun : Type := mkRetryRun {
  result      : Outcome V;
  world       : W;
  invocations : nat;
  sleeps      : list Q
}.

(** [raise last_exception] after the loop; raising [None] is a [TypeError]. *)
Definition raise_last (last_exception : option Exn) : Outcome V :=
  match last_exception with
  | Some e => Raise e
  | None => Raise (TypeError "exceptions must derive from BaseException")
  end.

(** The body of [for attempt in range(1, config.max_attempts + 1)], with
    [remaining] iterations left. *)
Fixpoint retry_loop (c : RetryConfig) (func : W -> Outcome V * W)
    (rnd : Z -> Q) (remaining : nat) (attempt : Z)
    (last_exception : option Exn) (w : W) (calls : nat) (slept : list Q)
    : RetryRun :=
  match remaining with
  | O => mkRetryRun (raise_last last_exception) w calls slept
  | S k =>
      match func w with
      | (Return v, w') => mkRetryRun (Return v) w' (S calls) slept
      | (Raise e, w') =>
          if isinstance_any e (retry_on_exceptions c) then
            if attempt =? max_attempts c then
              (* break, then raise last_exception *)
              mkRetryRun (Raise e) w' (S calls) slept
            else
              match calculate_delay c attempt (rnd attempt) with
              | Raise x =>
                  (* raised inside the except block: the wrapper ends *)
                  mkRetryRun (Raise x) w' (S calls) slept
              | Return delay =>
                  if Qle_bool 0 delay then
                    retry_loop c func rnd k (attempt + 1) (Some e) w'
                      (S calls) (slept ++ [delay])
                  else
                    (* time.sleep rejects a negative length *)
                    mkRetryRun
                      (Raise (ValueError "sleep length must be non-negative"))
                      w' (S calls) slept
              end
          else
            (* except Exception: raise *)
            mkRetryRun (Raise e) w' (S calls) slept
      end
  end.

Definition retry_with_backoff (c : RetryConfig)
    (func : W -> Outcome V * W) (rnd : Z -> Q) (w : W) : RetryRun :=
  retry_loop c func rnd (Z.to_nat (max_attempts c)) 1 None w O [].
End Retry.

End RetryPolicy.

(** ** CircuitBreaker *)

Module Breaker.

Inductive CircuitState : Type := CLOSED | OPEN | HALF_OPEN.

Record CircuitBreaker : Type := mkBreaker {
  failure_threshold  : Z;
  recovery_timeout   : Q;
  expected_exception : string;
  failure_count      : Z;
  last_failure_time  : option Q;
  state              : CircuitState
}.

(** [__init__] *)
Definition init (threshold : Z) (timeout : Q) (expected : string)
    : CircuitBreaker :=
  mkBreaker threshold timeout expected 0 None CLOSED.

Definition default : CircuitBreaker := init 5 60 "Exception".

Definition set_state (cb : CircuitBreaker) (s : CircuitState) : CircuitBreaker :=
  mkBreaker (failure_threshold cb) (recovery_timeout cb)
    (expected_exception cb) (failure_count cb) (last_failure_time cb) s.

Definition set_failure_count (cb : CircuitBreaker) (n : Z) : CircuitBreaker :=
  mkBreaker (failure_threshold cb) (recovery_timeout cb)
    (expected_exception cb) n (last_failure_time cb) (state cb).

Definition set_last_failure_time (cb : CircuitBreaker) (t : Q)
    : CircuitBreaker :=
  mkBreaker (failure_threshold cb) (recovery_timeout cb)
    (expected_exception cb) (failure_count cb) (Some t) (state cb).

(** [_should_attempt_reset], [now] being the reading of [time.time()]. *)
Definition _should_attempt_reset (cb : CircuitBreaker) (now : Q) : bool :=
  match last_failure_time cb with
  | None => true
  | Some t => Qle_bool (recovery_timeout cb) (now - t)
  end.

Definition _on_success (cb : CircuitBreaker) : CircuitBreaker :=
  let cb := set_failure_count cb 0 in
  match state cb with
  | HALF_OPEN => set_state cb CLOSED
  | _ => cb
  end.

Definition _on_failure (cb : CircuitBreaker) (now : Q) : CircuitBreaker :=
  let cb := set_failure_count cb (failure_count cb + 1) in
  let cb := set_last_failure_time cb now in
  if failure_threshold cb <=? failure_count cb then set_state cb OPEN else cb.

(** The two readings of [time.time()] one call may take: on entry, in
    [_should_attempt_reset], and when the operation has failed, in
    [_on_failure]. *)
Record Clock : Type := mkClock { t_check : Q; t_fail : Q }.

Definition circuit_open_error (name : string) : Exn :=
  PlainException (String.append "Circuit breaker OPEN for " name).

Section Wrapper.
Context {W V : Type}.

(** The [try] block of [wrapper]: the operation runs once. *)
Definition attempt (cb : CircuitBreaker) (clk : Clock)
    (func : W -> Outcome V * W) (w : W) : Outcome V * CircuitBreaker * W :=
  match func w with
  | (Return v, w') => (Return v, _on_success cb, w')
  | (Raise e, w') =>
      if isinstance e (expected_exception cb)
      then (Raise e, _on_failure cb (t_fail clk), w')
      else (Raise e, cb, w')
  end.

(** [wrapper], the function [CircuitBreaker.__call__] returns; [name] is
    [func.__name__]. *)
Definition wrapper (cb : CircuitBreaker) (name : string) (clk : Clock)
    (func : W -> Outcome V * W) (w : W) : Outcome V * CircuitBreaker * W :=
  match state cb with
  | OPEN =>
      if _should_attempt_reset cb (t_check clk)
      then attempt (set_state cb HALF_OPEN) clk func w
      else (Raise (circuit_open_error name), cb, w)
  | _ => attempt cb clk func w
  end.

Record Call : Type := mkCall {
  call_name  : string;
  call_clock : Clock;
  call_func  : W -> Outcome V * W
}.

(** A sequence of calls through the same breaker. *)
Fixpoint run_calls (cb : CircuitBreaker) (w : W) (calls : list Call)
    : CircuitBreaker * W :=
  match calls with
  | [] => (cb, w)
  | c :: rest =>
      let '(_, cb', w') := wrapper cb (call_name c) (call_clock c)
                             (call_func c) w in
      run_calls cb' w' rest
  end.

(** The breakers a program can hold: a fresh one, and what calls make of it. *)
Inductive reachable : CircuitBreaker -> Prop :=
| reach_init threshold timeout expected :
    reachable (init threshold timeout expected)
| reach_call cb name clk func w :
    reachable cb ->
    reachable (snd (fst (wrapper cb name clk func w))).

(** An operation that raises an exception the breaker counts, whenever it runs. *)
Definition fails_for (cb : CircuitBreaker) (func : W -> Outcome V * W) : Prop :=
  forall w, exists e,
    fst (func w) = Raise e /\ isinstance e (expected_exception cb) = true.
End Wrapper.

(** What a call made as a HALF_OPEN trial does: the operation runs once,
    a success closes the breaker and clears the counter, a counted failure
    opens it again. [res] is what the call returns. *)
Definition half_open_trial {W V : Type} (cb : CircuitBreaker)
    (func : W -> Outcome V * W) (w : W)
    (res : Outcome V * CircuitBreaker * W) : Prop :=
  (fst (fst res), snd res) = func w /\
  (forall v, fst (fst res) = Return v ->
     state (snd (fst res)) = CLOSED /\ failure_count (snd (fst res)) = 0) /\
  (forall e, fst (fst res) = Raise e ->
     isinstance e (expected_exception cb) = true ->
     state (snd (fst res)) = OPEN).

(** An operation that always raises [ValueError], counting its runs. *)
Definition always_failing (n : nat) : Outcome unit * nat :=
  (Raise (ValueError "Test error"), Datatypes.S n).

(** A breaker of threshold 1 and timeout 60 after one failure at time 0. *)
Definition tripped : CircuitBreaker :=
  snd (fst (wrapper (init 1 60 "Exception") "always_failing" (mkClock 0 0)
              always_failing O)).

(** What holds of every breaker a program can hold. *)
Definition consistent (cb : CircuitBreaker) : Prop :=
  (0 <= failure_count cb)%Z /\
  (state cb <> CLOSED -> (failure_threshold cb <= failure_count cb)%Z) /\
  (state cb = OPEN -> last_failure_time cb <> None).

(** The claim of C7 read on the stored state, at clock reading [now]. *)
Definition open_only_within_timeout (cb : CircuitBreaker) (now : Q) : Prop :=
  state cb = OPEN ->
  exists tl, last_failure_time cb = Some tl /\ (now - tl < recovery_timeout cb)%Q.

End Breaker.

(** ** ErrorRecoveryManager *)

Module Recovery.

(** The Python values handlers return and callers pass as keyword context. *)
#[local] Unset Elimination Schemes.
Inductive Value : Type :=
| VNone
| VBool (b : bool)
| VInt (z : Z)
| VStr (s : string)
| VList (l : list Value)
| VDict (d : list (string * Value)).
#[local] Set Elimination Schemes.

Record ErrorContext : Type := mkErrorContext {
  operation       : string;
  component       : string;
  timestamp       : string;
  attempt         : Value;
  max_attempts    : Value;
  error_type      : string;
  error_message   : string;
  recovery_action : option string
}.

Definition set_recovery_action (a : string) (ec : ErrorContext) : ErrorContext :=
  mkErrorContext (operation ec) (component ec) (timestamp ec) (attempt ec)
    (max_attempts ec) (error_type ec) (error_message ec) (Some a).

(** A recovery strategy or fallback handler: called as
    [handler(error, error_context, **context)]. *)
Definition Handler : Type :=
  Exn -> ErrorContext -> gmap string Value -> Outcome Value.

Record ErrorRecoveryManager : Type := mkManager {
  error_history       : list ErrorContext;
  recovery_strategies : gmap string Handler;
  fallback_handlers   : gmap string Handler
}.

(** [__init__] *)
Definition new_manager : ErrorRecoveryManager := mkManager [] ∅ ∅.

Definition register_recovery_strategy (m : ErrorRecoveryManager)
    (error_type : string) (strategy : Handler) : ErrorRecoveryManager :=
  mkManager (error_history m)
    (<[error_type := strategy]> (recovery_strategies m))
    (fallback_handlers m).

Definition register_fallback_handler (m : ErrorRecoveryManager)
    (operation : string) (handler : Handler) : ErrorRecoveryManager :=
  mkManager (error_history m) (recovery_strategies m)
    (<[operation := handler]> (fallback_handlers m)).

(** [error_context.recovery_action = a], for the event object stored at
    index [idx] of the history: the list holds the object itself, so the
    assignment shows in the history. *)
Definition mark (idx : nat) (a : string) (m : ErrorRecoveryManager)
    : ErrorRecoveryManager :=
  mkManager (alter (set_recovery_action a) idx (error_history m))
    (recovery_strategies m) (fallback_handlers m).

(** The part of [handle_error] from "Try fallback handler" on; [ec] is the
    event as it stands and [idx] its place in the history. *)
Definition try_fallback (m : ErrorRecoveryManager) (idx : nat)
    (ec : ErrorContext) (error : Exn) (operation : string)
    (context : gmap string Value) : Outcome Value * ErrorRecoveryManager :=
  match fallback_handlers m !! operation with
  | Some handler =>
      match handler error ec context with
      | Return v => (Return v, mark idx "fallback_succeeded" m)
      | Raise _ =>
          (Raise error,
           mark idx "no_recovery_available" (mark idx "fallback_failed" m))
      end
  | None => (Raise error, mark idx "no_recovery_available" m)
  end.

(** The event [handle_error] records; [now] is [datetime.now().isoformat()]. *)
Definition new_event (now : string) (error : Exn)
    (operation component : string) (context : gmap string Value)
    : ErrorContext :=
  mkErrorContext operation component now
    (default (VInt 1) (context !! "attempt"))
    (default (VInt 1) (context !! "max_attempts"))
    (exc_name error) (exc_msg error) None.

(** [handle_error] *)
Definition handle_error (m : ErrorRecoveryManager) (now : string)
    (error : Exn) (operation component : string)
    (context : gmap string Value) : Outcome Value * ErrorRecoveryManager :=
  let error_type := exc_name error in
  let error_context := new_event now error operation component context in
  let idx := length (error_history m) in
  let m := mkManager (error_history m ++ [error_context])
             (recovery_strategies m) (fallback_handlers m) in
  match recovery_strategies m !! error_type with
  | Some strategy =>
      match strategy error error_context context with
      | Return v => (Return v, mark idx "recovery_strategy_succeeded" m)
      | Raise _ =>
          try_fallback (mark idx "recovery_strategy_failed" m) idx
            (set_recovery_action "recovery_strategy_failed" error_context)
            error operation context
      end
  | None => try_fallback m idx error_context error operation context
  end.

(** *** setup_default_recovery_strategies

    The default handlers have the signature [(error, context, **kwargs)]
    and are called as [handler(error, error_context, **context)]: a keyword
    of the context named like one of the two positional parameters is
    given twice, which is a [TypeError] raised before the body runs. *)
Definition bind_arguments (fname : string) (context : gmap string Value)
    : option Exn :=
  match context !! "error", context !! "context" with
  | None, None => None
  | Some _, _ =>
      Some (TypeError
              (String.append fname
                 "() got multiple values for argument 'error'"))
  | None, Some _ =>
      Some (TypeError
              (String.append fname
                 "() got multiple values for argument 'context'"))
  end.

Definition with_signature (fname : string)
    (body : Exn -> ErrorContext -> gmap string Value -> Outcome Value)
    : Handler :=
  fun error context kwargs =>
    match bind_arguments fname kwargs with
    | Some type_error => Raise type_error
    | None => body error context kwargs
    end.

(** The three default strategies sleep and return [None]. *)
Definition gitlab_connection_recovery : Handler :=
  with_signature
    "setup_default_recovery_strategies.<locals>.gitlab_connection_recovery"
    (fun _ _ _ => Return VNone).
Definition ollama_connection_recovery : Handler :=
  with_signature
    "setup_default_recovery_strategies.<locals>.ollama_connection_recovery"
    (fun _ _ _ => Return VNone).
Definition rate_limit_recovery : Handler :=
  with_signature
    "setup_default_recovery_strategies.<locals>.rate_limit_recovery"
    (fun _ _ _ => Return VNone).

Definition review_generation_fallback (generated_at : string) : Handler :=
  with_signature
    "setup_default_recovery_strategies.<locals>.review_generation_fallback"
    (fun error _ _ =>
    Return (VDict
      [("summary",
        VStr "Review generation unavailable - manual review required");
       ("detailed_comments", VStr "");
       ("recommendations", VStr "");
       ("line_comments", VList []);
       ("overall_assessment", VStr "UNKNOWN");
       ("metadata",
        VDict [("fallback", VBool true);
               ("error", VStr (exc_msg error));
               ("generated_at", VStr generated_at)])])).

(** The keyword context binds to the signature of the default handlers. *)
Definition context_binds (context : gmap string Value) : Prop :=
  context !! "error" = None /\ context !! "context" = None.

Definition setup_default_recovery_strategies (generated_at : string)
    (m : ErrorRecoveryManager) : ErrorRecoveryManager :=
  let m := register_recovery_strategy m "ConnectionError"
             gitlab_connection_recovery in
  let m := register_recovery_strategy m "HTTPError" rate_limit_recovery in
  let m := register_recovery_strategy m "Timeout"
             ollama_connection_recovery in
  register_fallback_handler m "review_generation"
    (review_generation_fallback generated_at).

(** The module-level [error_recovery] once the module is loaded. *)
Definition error_recovery (generated_at : string) : ErrorRecoveryManager :=
  setup_default_recovery_strategies generated_at new_manager.

(** The event a call to [handle_error] appended: the last of the history. *)
Definition final_event (m : ErrorRecoveryManager) : option ErrorContext :=
  last (error_history m).


End Recovery.

(** ** BatchProcessor *)

Module Batch.

(** An entry of [mr['labels']]: an object, read with [label['name']], or a
    plain string, as the GitLab API lists labels. *)
Inductive Label : Type :=
| LabelObject (name : option string)
| LabelText (text : string).

(** A merge request as the GitLab client lists it. [iid] is read with
    [mr['iid']]; the other keys are read with [.get] and a default. *)
Record MergeRequest : Type := mkMR {
  iid             : Z;
  project_path    : option string;
  title           : option string;
  description     : option string;
  author_username : option string;   (* mr['author']['username'] *)
  labels          : list Label;      (* mr.get('labels', []) *)
  created_at      : option string
}.

Record BatchResult : Type := mkBatchResult {
  mr_iid          : Z;
  r_project_path  : string;
  success         : bool;
  processing_time : Q;
  r_review_type   : string;
  complexity_score : Z;
  risk_assessment : string;
  error           : option string;
  review_posted   : bool;
  file_count      : Z;
  lines_added     : Z;
  lines_removed   : Z;
  timestamp       : string
}.

Record BatchSummary : Type := mkBatchSummary {
  total_mrs               : nat;
  successful_reviews      : nat;
  failed_reviews          : nat;
  total_processing_time   : Q;
  average_processing_time : Q;
  reviews_posted          : nat;
  start_time              : string;
  end_time                : string;
  s_project_path          : string;
  s_review_type           : string;
  errors                  : list string
}.

(** [BatchSummary.success_rate] *)
Definition success_rate (s : BatchSummary) : Q :=
  if Nat.eqb (total_mrs s) 0 then 0
  else (inject_Z (Z.of_nat (successful_reviews s))
        / inject_Z (Z.of_nat (total_mrs s))) * 100.

(** What the analyzer and the generator hand back, as far as the processor
    reads it. *)
Record ImpactAnalysis : Type := mkImpact {
  ia_complexity_score : option Z;
  ia_files_count      : option Z;
  ia_lines_added      : option Z;
  ia_lines_removed    : option Z
}.

Record Analysis : Type := mkAnalysis {
  impact_analysis : option ImpactAnalysis
}.

Record Review : Type := mkReview {
  summary            : option string;
  overall_assessment : option string
}.

(** The selection filters of [process_project_mrs]; an absent key is [None]. *)
Record Filters : Type := mkFilters {
  f_author        : option string;
  f_labels        : option (list string);
  f_keywords      : option (list string);
  f_created_after : option string
}.

(** *** String helpers *)

Definition lower_ascii (a : Ascii.ascii) : Ascii.ascii :=
  let n := Ascii.nat_of_ascii a in
  if (Nat.leb 65 n && Nat.leb n 90)%bool
  then Ascii.ascii_of_nat (n + 32) else a.

(** [s.lower()], on ASCII letters. *)
Fixpoint lower (s : string) : string :=
  match s with
  | EmptyString => EmptyString
  | String a rest => String (lower_ascii a) (lower rest)
  end.

(** [needle in hay] *)
Fixpoint contains (needle hay : string) : bool :=
  String.prefix needle hay ||
  match hay with
  | EmptyString => false
  | String _ rest => contains needle rest
  end.

(** [l[:n]], Python's slice, also for a negative bound. *)
Definition py_take {A} (n : Z) (l : list A) : list A :=
  if 0 <=? n then firstn (Z.to_nat n) l
  else firstn (length l - Z.to_nat (- n)) l.

(** [dict[key]] on an optional field: a missing key raises [KeyError]. *)
Definition subscript {A} (key : string) (field : option A) : Outcome A :=
  match field with
  | Some v => Return v
  | None => Raise (KeyError (String.append "'" (String.append key "'")))
  end.

(** Sequencing of calls that may raise. *)
Definition bind {A B} (o : Outcome A) (k : A -> Outcome B) : Outcome B :=
  match o with
  | Return v => k v
  | Raise e => Raise e
  end.

Notation "'call' x := o 'in' k" := (bind o (fun x => k))
  (at level 10, x name, o at level 100, k at level 200, only parsing).

(** *** _apply_filters *)

(** [label['name']]: a missing key is a [KeyError], and a string cannot be
    subscripted with a string. *)
Definition label_name (label : Label) : Outcome string :=
  match label with
  | LabelObject (Some name) => Return name
  | LabelObject None => Raise (KeyError "'name'")
  | LabelText _ =>
      Raise (TypeError "string indices must be integers, not 'str'")
  end.

(** [set(label['name'] for label in mr.get('labels', []))], in the order
    of the list. *)
Fixpoint label_names (labels : list Label) : Outcome (list string) :=
  match labels with
  | [] => Return []
  | label :: rest =>
      call name := label_name label in
      call names := label_names rest in
      Return (name :: names)
  end.

(** The comprehension of the [labels] key: the labels of every merge
    request are read, in order, and the first that cannot be read ends
    it. *)
Fixpoint filter_by_labels (required_labels : list string)
    (mrs : list MergeRequest) : Outcome (list MergeRequest) :=
  match mrs with
  | [] => Return []
  | mr :: rest =>
      call names := label_names (labels mr) in
      call kept := filter_by_labels required_labels rest in
      Return (if existsb (fun l => existsb (String.eqb l) names)
                   required_labels
              then mr :: kept else kept)
  end.

Definition _apply_filters (mrs : list MergeRequest) (filters : Filters)
    : Outcome (list MergeRequest) :=
  let filtered_mrs := mrs in
  let filtered_mrs :=
    match f_author filters with
    | Some a =>
        let author_filter := lower a in
        List.filter (fun mr =>
          contains author_filter (lower (default "" (author_username mr))))
          filtered_mrs
    | None => filtered_mrs
    end in
  call filtered_mrs :=
    match f_labels filters with
    | Some required_labels => filter_by_labels required_labels filtered_mrs
    | None => Return filtered_mrs
    end in
  let filtered_mrs :=
    match f_keywords filters with
    | Some kws =>
        let keywords := List.map lower kws in
        List.filter (fun mr =>
          existsb (fun kw =>
            contains kw (lower (default "" (title mr))) ||
            contains kw (lower (default "" (description mr))))
            keywords)
          filtered_mrs
    | None => filtered_mrs
    end in
  Return
    match f_created_after filters with
    | Some created_after =>
        List.filter (fun mr =>
          String.leb created_after (default "" (created_at mr)))
          filtered_mrs
    | None => filtered_mrs
    end.

(** *** Collaborators

    The source of record, the analyzer and the generator are functions of
    their arguments: a call either returns or raises. *)

Record GitlabClient (Changes : Type) : Type := mkGitlabClient {
  get_project_merge_requests :
    string -> string -> Z -> Outcome (list MergeRequest);
  get_mr_changes : string -> Z -> Outcome Changes;
  post_mr_note   : string -> Z -> string -> Outcome unit
}.
Arguments get_project_merge_requests {Changes}.
Arguments get_mr_changes {Changes}.
Arguments post_mr_note {Changes}.

Record MRAnalyzer (Changes : Type) : Type := mkMRAnalyzer {
  analyze_mr_changes : MergeRequest -> Changes -> Outcome Analysis
}.
Arguments analyze_mr_changes {Changes}.

Record ReviewGenerator : Type := mkReviewGenerator {
  generate_review   : Analysis -> string -> Outcome Review;
  format_for_gitlab : Review -> Outcome string
}.

(** The clock readings of one run: per unit, the time its pipeline took and
    the stamp of its result; for the run, both stamps and the time between. *)
Record RunClock : Type := mkRunClock {
  unit_elapsed : MergeRequest -> Q;
  unit_stamp   : MergeRequest -> string;
  run_start    : string;
  run_end      : string;
  run_elapsed  : Q
}.

(** [(current, total, message)]; the callback may keep state of its own. *)
Definition ProgressCallback (S : Type) : Type :=
  S -> nat -> nat -> string -> Outcome unit * S.

Record BatchProcessor (Changes S : Type) : Type := mkBatchProcessor {
  gitlab_client     : GitlabClient Changes;
  mr_analyzer       : MRAnalyzer Changes;
  review_generator  : ReviewGenerator;
  progress_callback : option (ProgressCallback S);
  callback_state    : S;
  results           : list BatchResult;
  slept             : list Q          (* the calls to time.sleep, in order *)
}.
Arguments gitlab_client {Changes S}.
Arguments mr_analyzer {Changes S}.
Arguments review_generator {Changes S}.
Arguments progress_callback {Changes S}.
Arguments callback_state {Changes S}.
Arguments results {Changes S}.
Arguments slept {Changes S}.

Section Processor.
Context {Changes S : Type}.
Local Abbreviation Processor := (BatchProcessor Changes S).

(** [__init__] *)
Definition new_processor (client : GitlabClient Changes)
    (analyzer : MRAnalyzer Changes) (generator : ReviewGenerator)
    (s0 : S) : Processor :=
  mkBatchProcessor Changes S client analyzer generator None s0 [] [].

Definition set_progress_callback (self : Processor)
    (callback : ProgressCallback S) : Processor :=
  mkBatchProcessor Changes S (gitlab_client self) (mr_analyzer self)
    (review_generator self) (Some callback) (callback_state self)
    (results self) (slept self).

Definition set_callback_state (self : Processor) (s : S) : Processor :=
  mkBatchProcessor Changes S (gitlab_client self) (mr_analyzer self)
    (review_generator self) (progress_callback self) s
    (results self) (slept self).

Definition set_results (self : Processor) (rs : list BatchResult)
    : Processor :=
  mkBatchProcessor Changes S (gitlab_client self) (mr_analyzer self)
    (review_generator self) (progress_callback self) (callback_state self)
    rs (slept self).

(** [self.results.append(r)] *)
Definition append_result (self : Processor) (r : BatchResult) : Processor :=
  set_results self (results self ++ [r]).

(** [time.sleep(d)] *)
Definition sleep (self : Processor) (d : Q) : Processor :=
  mkBatchProcessor Changes S (gitlab_client self) (mr_analyzer self)
    (review_generator self) (progress_callback self) (callback_state self)
    (results self) (slept self ++ [d]).

(** [_update_progress] *)
Definition _update_progress (self : Processor) (current total : nat)
    (message : string) : Outcome unit * Processor :=
  match progress_callback self with
  | Some callback =>
      let '(o, s') := callback (callback_state self) current total message in
      (o, set_callback_state self s')
  | None => (Return tt, self)
  end.

(** [_get_mrs_to_process]: whatever the listing or the filtering raises
    is caught, and the empty list returned. *)
Definition _get_mrs_to_process (self : Processor) (project_path : string)
    (mr_state : string) (max_reviews : Z) (filters : option Filters)
    : list MergeRequest :=
  match get_project_merge_requests (gitlab_client self) project_path
          mr_state (Z.min (max_reviews * 2) 100) with
  | Return mrs =>
      match (match filters with
             | Some f => _apply_filters mrs f
             | None => Return mrs
             end) with
      | Return mrs => py_take max_reviews mrs
      | Raise _ => []
      end
  | Raise _ => []
  end.

(** The [try] block of [_process_single_mr], up to the result record. *)
Definition single_mr_pipeline (self : Processor) (clock : RunClock)
    (mr : MergeRequest) (review_type : string) (post_review : bool)
    : Outcome BatchResult :=
  let mr_iid := iid mr in
  let project_path := default "" (project_path mr) in
  call changes_data := get_mr_changes (gitlab_client self) project_path mr_iid in
  call analysis := analyze_mr_changes (mr_analyzer self) mr changes_data in
  call review := generate_review (review_generator self) analysis review_type in
  let review_posted :=
    if post_review && negb (String.eqb (default "" (summary review)) "")
    then
      match
        (call gitlab_comment := format_for_gitlab (review_generator self) review in
         post_mr_note (gitlab_client self) project_path mr_iid gitlab_comment)
      with
      | Return _ => true
      | Raise _ => false       (* logged, the unit still succeeds *)
      end
    else false in
  call ia := subscript "impact_analysis" (impact_analysis analysis) in
  call complexity := subscript "complexity_score" (ia_complexity_score ia) in
  call ia1 := subscript "impact_analysis" (impact_analysis analysis) in
  call files := subscript "files_count" (ia_files_count ia1) in
  call added := subscript "lines_added" (ia_lines_added ia1) in
  call removed := subscript "lines_removed" (ia_lines_removed ia1) in
  Return (mkBatchResult mr_iid project_path true (unit_elapsed clock mr)
            review_type complexity
            (default "UNKNOWN" (overall_assessment review))
            None review_posted files added removed (unit_stamp clock mr)).

(** [_process_single_mr]: a failure of the pipeline becomes a failed
    result. *)
Definition _process_single_mr (self : Processor) (clock : RunClock)
    (mr : MergeRequest) (review_type : string) (post_review : bool)
    : BatchResult :=
  match single_mr_pipeline self clock mr review_type post_review with
  | Return r => r
  | Raise e =>
      mkBatchResult (iid mr) (default "" (project_path mr)) false
        (unit_elapsed clock mr) review_type 0 "" (Some (exc_msg e))
        false 0 0 0 (unit_stamp clock mr)
  end.

(** The result [_process_parallel] writes for a unit whose future raised. *)
Definition error_result (clock : RunClock) (mr : MergeRequest)
    (review_type : string) (e : Exn) : BatchResult :=
  mkBatchResult (iid mr) (default "" (project_path mr)) false 0
    review_type 0 "" (Some (exc_msg e)) false 0 0 0 (unit_stamp clock mr).

(** The loop of [_process_sequential], at position [i] of
    [enumerate(mrs, 1)]; [worker] is the call
    [self._process_single_mr(mr, review_type, post_reviews)]. *)
Fixpoint sequential_loop (worker : MergeRequest -> Outcome BatchResult)
    (total_mrs : nat) (delay : Q) (i : nat) (mrs : list MergeRequest)
    (self : Processor) : Outcome unit * Processor :=
  match mrs with
  | [] => (Return tt, self)
  | mr :: rest =>
      match _update_progress self (i - 1) total_mrs
              (String.append "Processing MR #" (pretty (iid mr))) with
      | (Raise e, self) => (Raise e, self)
      | (Return _, self) =>
          match worker mr with
          | Raise e => (Raise e, self)
          | Return result =>
              let self := append_result self result in
              let self :=
                if Nat.ltb i total_mrs && negb (Qle_bool delay 0)
                then sleep self delay else self in
              sequential_loop worker total_mrs delay (Datatypes.S i) rest self
          end
      end
  end.

Definition sequential_with (worker : MergeRequest -> Outcome BatchResult)
    (self : Processor) (mrs : list MergeRequest) (delay : Q)
    : Outcome unit * Processor :=
  let total_mrs := length mrs in
  match sequential_loop worker total_mrs delay 1 mrs self with
  | (Raise e, self) => (Raise e, self)
  | (Return _, self) =>
      _update_progress self total_mrs total_mrs "Batch processing completed"
  end.

(** The loop over [as_completed(future_to_mr)]: [completion] lists the
    units in the order their futures complete, [worker mr] is what
    [future.result()] gives for the future of [mr], and [completed] counts
    the futures seen so far. *)
Fixpoint parallel_loop (worker : MergeRequest -> Outcome BatchResult)
    (clock : RunClock) (review_type : string) (total_mrs : nat) (delay : Q)
    (completed : nat) (completion : list MergeRequest) (self : Processor)
    : Processor :=
  match completion with
  | [] => self
  | mr :: rest =>
      let completed := Datatypes.S completed in
      let self :=
        match worker mr with
        | Return result =>
            let self := append_result self result in
            match _update_progress self completed total_mrs
                    (String.append "Completed MR #"
                      (String.append (pretty (iid mr))
                        (String.append " ("
                          (String.append (pretty completed)
                            (String.append "/"
                              (String.append (pretty total_mrs) ")"))))))
            with
            | (Return _, self) => self
            | (Raise e, self) =>
                append_result self (error_result clock mr review_type e)
            end
        | Raise e =>
            append_result self (error_result clock mr review_type e)
        end in
      let self :=
        if negb (Qle_bool delay 0) then sleep self delay else self in
      parallel_loop worker clock review_type total_mrs delay completed
        rest self
  end.

Definition parallel_with (worker : MergeRequest -> Outcome BatchResult)
    (clock : RunClock) (self : Processor) (mrs : list MergeRequest)
    (review_type : string) (delay : Q)
    (completion : list MergeRequest) : Outcome unit * Processor :=
  let total_mrs := length mrs in
  let self := parallel_loop worker clock review_type total_mrs delay 0
                completion self in
  _update_progress self total_mrs total_mrs "Parallel processing completed".

(** [_process_sequential] *)
Definition _process_sequential (self : Processor) (clock : RunClock)
    (mrs : list MergeRequest) (review_type : string) (post_reviews : bool)
    (delay : Q) : Outcome unit * Processor :=
  sequential_with
    (fun mr => Return (_process_single_mr self clock mr review_type post_reviews))
    self mrs delay.

(** [_process_parallel]; the pool completes the futures in the order
    [completion], a rearrangement of [mrs]. *)
Definition _process_parallel (self : Processor) (clock : RunClock)
    (mrs : list MergeRequest) (review_type : string) (post_reviews : bool)
    (workers : Z) (delay : Q) (completion : list MergeRequest)
    : Outcome unit * Processor :=
  parallel_with
    (fun mr => Return (_process_single_mr self clock mr review_type post_reviews))
    clock self mrs review_type delay completion.

Definition count_if {A} (f : A -> bool) (l : list A) : nat :=
  length (List.filter f l).

Definition _create_empty_summary (clock : RunClock)
    (project_path review_type : string) : BatchSummary :=
  mkBatchSummary 0 0 0 0 0 0 (run_start clock) (run_end clock)
    project_path review_type [].

(** The summary [process_project_mrs] computes from [self.results]. *)
Definition summarize (self : Processor) (clock : RunClock)
    (project_path review_type : string) (errors : list string)
    : BatchSummary :=
  let total_processing_time := run_elapsed clock in
  let successful_reviews := count_if success (results self) in
  let failed_reviews := (length (results self) - successful_reviews)%nat in
  let reviews_posted := count_if review_posted (results self) in
  let avg_processing_time :=
    match results self with
    | [] => 0%Q
    | _ => (total_processing_time
            / inject_Z (Z.of_nat (length (results self))))%Q
    end in
  mkBatchSummary (length (results self)) successful_reviews failed_reviews
    total_processing_time avg_processing_time reviews_posted
    (run_start clock) (run_end clock) project_path review_type errors.

(** [process_project_mrs]; [schedule mrs] is the order in which the pool
    completes the futures of [mrs]. The call returns the summary and
    leaves the processor with the results collected. *)
Definition process_project_mrs (self : Processor) (clock : RunClock)
    (schedule : list MergeRequest -> list MergeRequest)
    (project_path review_type mr_state : string) (max_reviews : Z)
    (post_reviews : bool) (parallel_workers : Z)
    (delay_between_reviews : Q) (filters : option Filters)
    : BatchSummary * Processor :=
  let self := set_results self [] in
  let mrs := _get_mrs_to_process self project_path mr_state max_reviews
               filters in
  let total_mrs := length mrs in
  if Nat.eqb total_mrs 0 then
    (_create_empty_summary clock project_path review_type, self)
  else
    let '(o, self) :=
      match _update_progress self 0 total_mrs
              "Starting batch processing..." with
      | (Raise e, self) => (Raise e, self)
      | (Return _, self) =>
          if 1 <? parallel_workers
          then _process_parallel self clock mrs review_type post_reviews
                 parallel_workers delay_between_reviews (schedule mrs)
          else _process_sequential self clock mrs review_type post_reviews
                 delay_between_reviews
      end in
    let errors :=
      match o with
      | Raise e => [String.append "Batch processing failed: " (exc_msg e)]
      | Return _ => []
      end in
    (summarize self clock project_path review_type errors, self).

(** The part of the [try] block of [process_project_mrs] that follows the
    selection of the units: the first progress report, then the dispatch. *)
Definition dispatch (self : Processor) (clock : RunClock)
    (schedule : list MergeRequest -> list MergeRequest)
    (mrs : list MergeRequest) (review_type : string) (post_reviews : bool)
    (parallel_workers : Z) (delay_between_reviews : Q)
    : Outcome unit * Processor :=
  match _update_progress self 0 (length mrs)
          "Starting batch processing..." with
  | (Raise e, self) => (Raise e, self)
  | (Return _, self) =>
      if 1 <? parallel_workers
      then _process_parallel self clock mrs review_type post_reviews
             parallel_workers delay_between_reviews (schedule mrs)
      else _process_sequential self clock mrs review_type post_reviews
             delay_between_reviews
  end.

(** Two processors with the same collaborators. *)
Definition same_collaborators (self self' : Processor) : Prop :=
  gitlab_client self' = gitlab_client self /\
  mr_analyzer self' = mr_analyzer self /\
  review_generator self' = review_generator self /\
  progress_callback self' = progress_callback self.

(** What the parallel loop records for a unit when the callback does not
    raise: the worker's result, or the failed record made for it. *)
Definition settled (worker : MergeRequest -> Outcome BatchResult)
    (clock : RunClock) (review_type : string) (mr : MergeRequest)
    : BatchResult :=
  match worker mr with
  | Return r => r
  | Raise e => error_result clock mr review_type e
  end.

(** A progress callback that returns normally on every call, or none. *)
Definition callback_never_raises (self : Processor) : Prop :=
  match progress_callback self with
  | Some callback =>
      forall s current total message,
        fst (callback s current total message) = Return tt
  | None => True
  end.
End Processor.

(** *** Sample collaborators, for examples *)

Definition sample_mr (n : Z) : MergeRequest :=
  mkMR n (Some "group/project") (Some "MR") None (Some "user1")
    [LabelObject (Some "enhancement")] None.

(** A merge request whose label is a plain string. *)
Definition plain_label_mr (n : Z) : MergeRequest :=
  mkMR n (Some "group/project") (Some "MR") None (Some "user1")
    [LabelText "enhancement"] None.

Definition sample_analysis : Analysis :=
  mkAnalysis (Some (mkImpact (Some 45) (Some 3) (Some 20) (Some 5))).

Definition sample_review : Review :=
  mkReview (Some "Test review") (Some "MEDIUM_RISK").

(** A client that lists [mrs] and serves every other call. *)
Definition listing_client (mrs : list MergeRequest) : GitlabClient unit :=
  mkGitlabClient unit (fun _ _ _ => Return mrs) (fun _ _ => Return tt)
    (fun _ _ _ => Return tt).

(** A client whose listing raises. *)
Definition unreachable_client : GitlabClient unit :=
  mkGitlabClient unit
    (fun _ _ _ => Raise (ConnectionError "API Error"))
    (fun _ _ => Return tt) (fun _ _ _ => Return tt).

Definition sample_analyzer : MRAnalyzer unit :=
  mkMRAnalyzer unit (fun _ _ => Return sample_analysis).

Definition sample_generator : ReviewGenerator :=
  mkReviewGenerator (fun _ _ => Return sample_review)
    (fun _ => Return "comment").

Definition sample_clock : RunClock :=
  mkRunClock (fun _ => 1%Q) (fun _ => "2024-01-01T00:00:00")
    "2024-01-01T00:00:00" "2024-01-01T00:00:10" 10.

(** A callback that raises once a unit is reported done. *)
Definition raise_when_done : ProgressCallback unit :=
  fun s current _ _ =>
    if Nat.leb 1 current
    then (Raise (ValueError "progress display closed"), s)
    else (Return tt, s).

Definition sample_processor (mrs : list MergeRequest)
    : BatchProcessor unit unit :=
  new_processor (listing_client mrs) sample_analyzer sample_generator tt.

End Batch.

(** ** Runs of the retry wrapper *)

Module RetryRuns.
Import RetryPolicy.

(** What a run that made [n] invocations from world [w] looks like: the
    world is threaded through the invocations, every invocation but the
    last raised an exception of a retried class, and a returned value is
    that of the last invocation. *)
Definition run_of_invocations {W V : Type} (c : RetryConfig)
    (func : W -> Outcome V * W) (w : W) (n : nat) (run : RetryRun) : Prop :=
  world run = Nat.iter n (fun w => snd (func w)) w /\
  (forall m, (Datatypes.S m < n)%nat ->
     exists e, fst (func (Nat.iter m (fun w => snd (func w)) w)) = Raise e /\
               isinstance_any e (retry_on_exceptions c) = true) /\
  (forall v, result run = Return v ->
     exists m, n = Datatypes.S m /\
       fst (func (Nat.iter m (fun w => snd (func w)) w)) = Return v).

(** What [calculate_delay] gives for [n] successive attempts from attempt
    [attempt] on. *)
Definition backoff_schedule (c : RetryConfig) (rnd : Z -> Q) (attempt : Z)
    (n : nat) : list (Outcome Q) :=
  List.map (fun i => calculate_delay c (attempt + Z.of_nat i)
                       (rnd (attempt + Z.of_nat i)))
    (seq 0 n).

(** The attempts from [attempt] up to, and without, [stop] compute a delay
    that [time.sleep] accepts. *)
Definition delays_accepted (c : RetryConfig) (rnd : Z -> Q)
    (attempt stop : Z) : Prop :=
  forall a, (attempt <= a < stop)%Z ->
    exists d, calculate_delay c a (rnd a) = Return d /\ (0 <= d)%Q.

(** A function that raises an exception of a retried class whenever it is
    invoked. *)
Definition always_retryable {W V : Type} (c : RetryConfig)
    (func : W -> Outcome V * W) : Prop :=
  forall w, exists e,
    fst (func w) = Raise e /\ isinstance_any e (retry_on_exceptions c) = true.

(** A function failing with [ConnectionError], counting its invocations. *)
Definition connection_refused (n : nat) : Outcome unit * nat :=
  (Raise (ConnectionError "Connection failed"), Datatypes.S n).

End RetryRuns.

(** ** Selection of merge requests *)

Module Selection.
Import Batch.

(** The tests [_apply_filters] applies, one per key of [filters]; a key
    that is absent lets every merge request through. *)
Definition matches_author (f : Filters) (mr : MergeRequest) : bool :=
  match f_author f with
  | Some a => contains (lower a) (lower (default "" (author_username mr)))
  | None => true
  end.

(** The names of the labels of a merge request, where they can be read. *)
Definition names_of (mr : MergeRequest) : list string :=
  match label_names (labels mr) with
  | Return names => names
  | Raise _ => []
  end.

Definition readable_labels (mr : MergeRequest) : Prop :=
  raised (label_names (labels mr)) = false.

Definition matches_labels (f : Filters) (mr : MergeRequest) : bool :=
  match f_labels f with
  | Some required =>
      existsb (fun l => existsb (String.eqb l) (names_of mr)) required
  | None => true
  end.

Definition matches_keywords (f : Filters) (mr : MergeRequest) : bool :=
  match f_keywords f with
  | Some kws =>
      existsb (fun kw =>
        contains kw (lower (default "" (title mr))) ||
        contains kw (lower (default "" (description mr))))
        (List.map lower kws)
  | None => true
  end.

Definition matches_created_after (f : Filters) (mr : MergeRequest) : bool :=
  match f_created_after f with
  | Some created_after =>
      String.leb created_after (default "" (created_at mr))
  | None => true
  end.

Definition passes_filters (f : Filters) (mr : MergeRequest) : bool :=
  matches_author f mr && matches_labels f mr && matches_keywords f mr
  && matches_created_after f mr.

End Selection.

(** ** Error statistics and cleanup *)

Module Statistics.
Import Recovery.

(** [d[k] = d.get(k, 0) + 1] *)
Definition bump (d : gmap string nat) (k : string) : gmap string nat :=
  <[k := (default O (d !! k) + 1)%nat]> d.

(** The four dictionaries the loop of [get_error_statistics] fills. *)
Record Counters : Type := mkCounters {
  c_error_types      : gmap string nat;
  c_components       : gmap string nat;
  c_operations       : gmap string nat;
  c_recovery_actions : gmap string nat
}.

(** One turn of [for error in self.error_history]; an action that is
    [None] or empty is not counted. *)
Definition count_event (c : Counters) (e : ErrorContext) : Counters :=
  mkCounters
    (bump (c_error_types c) (error_type e))
    (bump (c_components c) (component e))
    (bump (c_operations c) (operation e))
    (match recovery_action e with
     | Some a => if String.eqb a "" then c_recovery_actions c
                 else bump (c_recovery_actions c) a
     | None => c_recovery_actions c
     end).

Record ErrorStatistics : Type := mkErrorStatistics {
  total_errors         : nat;
  recent_errors        : nat;
  error_types          : gmap string nat;
  affected_components  : gmap string nat;
  affected_operations  : gmap string nat;
  recovery_actions     : gmap string nat;
  error_rate_last_hour : nat
}.

Section Clock.
(** [datetime.fromisoformat], giving the instant in seconds, or raising on
    a string it cannot read. *)
Variable fromisoformat : string -> Outcome Q.

(** [[e for e in events if datetime.fromisoformat(e.timestamp) > cutoff]]:
    the comprehension stops at the first timestamp that cannot be read. *)
Fixpoint newer_than (cutoff : Q) (events : list ErrorContext)
    : Outcome (list ErrorContext) :=
  match events with
  | [] => Return []
  | e :: rest =>
      match fromisoformat (timestamp e) with
      | Raise x => Raise x
      | Return t =>
          match newer_than cutoff rest with
          | Raise x => Raise x
          | Return kept =>
              Return (if Qle_bool t cutoff then kept else e :: kept)
          end
      end
  end.

(** [get_error_statistics]; [now] is [datetime.now()] in seconds. The empty
    dictionary returned for an empty history is [None]. *)
Definition get_error_statistics (m : ErrorRecoveryManager) (now : Q)
    : Outcome (option ErrorStatistics) :=
  match error_history m with
  | [] => Return None
  | _ =>
      let c := fold_left count_event (error_history m)
                 (mkCounters ∅ ∅ ∅ ∅) in
      match newer_than (now - 3600)%Q (error_history m) with
      | Raise x => Raise x
      | Return recent =>
          Return (Some (mkErrorStatistics
                          (length (error_history m)) (length recent)
                          (c_error_types c) (c_components c)
                          (c_operations c) (c_recovery_actions c)
                          (length recent)))
      end
  end.

(** [cleanup_old_errors]; the history is replaced only once the whole
    comprehension has been evaluated. *)
Definition cleanup_old_errors (m : ErrorRecoveryManager) (now : Q)
    (max_age_hours : Z) : Outcome unit * ErrorRecoveryManager :=
  let cutoff := (now - inject_Z max_age_hours * 3600)%Q in
  match newer_than cutoff (error_history m) with
  | Raise x => (Raise x, m)
  | Return kept =>
      (Return tt,
       mkManager kept (recovery_strategies m) (fallback_handlers m))
  end.
End Clock.

(** The number of strings of [keys] equal to [k]. *)
Definition occurrences (k : string) (keys : list string) : nat :=
  length (List.filter (String.eqb k) keys).

(** What a tally of [keys] holds for [k]: its number of occurrences, and
    no entry at all when there is none. *)
Definition tally_entry (k : string) (keys : list string) : option nat :=
  match occurrences k keys with
  | O => None
  | n => Some n
  end.

(** The recovery actions that are counted. *)
Definition counted_actions (events : list ErrorContext) : list string :=
  List.filter (fun a => negb (String.eqb a ""))
    (omap recovery_action events).

(** The events whose timestamp reads as an instant. *)
Definition readable (fromisoformat : string -> Outcome Q)
    (events : list ErrorContext) : Prop :=
  forall e, In e events -> raised (fromisoformat (timestamp e)) = false.

(** The instant of an event, 0 when its timestamp cannot be read. *)
Definition instant (fromisoformat : string -> Outcome Q)
    (e : ErrorContext) : Q :=
  match fromisoformat (timestamp e) with
  | Return t => t
  | Raise _ => 0%Q
  end.

(** A reader of timestamps for examples: the stamp is a number of hours. *)
Definition hours_stamp (s : string) : Outcome Q :=
  if String.eqb s "25h ago" then Return (-90000)%Q
  else if String.eqb s "now" then Return 0%Q
  else Raise (ValueError "Invalid isoformat string").

Definition stamped (op stamp : string) : ErrorContext :=
  mkErrorContext op "comp" stamp (VInt 1) (VInt 1) "Error" "msg" None.

End Statistics.

(** ** GracefulDegradation *)

Module Degradation.

Section Features.
Context {W V : Type}.

(** An entry of [feature_status]. The health check, the degraded handler
    and the operations act on a world [W]. *)
Record Feature : Type := mkFeature {
  healthy          : bool;
  health_check     : W -> Outcome bool * W;
  degraded_handler : option (W -> Outcome V * W);
  last_check       : option string;
  failure_count    : Z
}.

Record GracefulDegradation : Type := mkDegradation {
  feature_status : gmap string Feature
}.

(** [__init__] *)
Definition new_degradation : GracefulDegradation := mkDegradation ∅.

Definition register_feature (g : GracefulDegradation) (feature_name : string)
    (check : W -> Outcome bool * W)
    (handler : option (W -> Outcome V * W)) : GracefulDegradation :=
  mkDegradation
    (<[feature_name := mkFeature true check handler None 0]>
       (feature_status g)).

(** [check_feature_health]; [now] is [datetime.now().isoformat()]. *)
Definition check_feature_health (g : GracefulDegradation)
    (feature_name : string) (now : string) (w : W)
    : bool * GracefulDegradation * W :=
  match feature_status g !! feature_name with
  | None => (false, g, w)
  | Some feature =>
      match health_check feature w with
      | (Return is_healthy, w') =>
          (is_healthy,
           mkDegradation
             (<[feature_name :=
                  mkFeature is_healthy (health_check feature)
                    (degraded_handler feature) (Some now)
                    (if is_healthy then 0 else failure_count feature + 1)]>
                (feature_status g)),
           w')
      | (Raise _, w') =>
          (false,
           mkDegradation
             (<[feature_name :=
                  mkFeature false (health_check feature)
                    (degraded_handler feature) (Some now)
                    (failure_count feature + 1)]>
                (feature_status g)),
           w')
      end
  end.

Definition not_registered (feature_name : string) : Exn :=
  ValueError
    (String.append "Feature " (String.append feature_name " not registered")).

Definition unavailable (feature_name : string) : Exn :=
  PlainException
    (String.append "Feature "
       (String.append feature_name
          " is unavailable and has no degraded mode")).

(** [use_feature] *)
Definition use_feature (g : GracefulDegradation) (feature_name : string)
    (operation : W -> Outcome V * W) (now : string) (w : W)
    : Outcome V * GracefulDegradation * W :=
  match feature_status g !! feature_name with
  | None => (Raise (not_registered feature_name), g, w)
  | Some feature =>
      let '(is_healthy, g', w') :=
        check_feature_health g feature_name now w in
      if negb is_healthy then
        match degraded_handler feature with
        | Some handler => let '(o, w'') := handler w' in (o, g', w'')
        | None => (Raise (unavailable feature_name), g', w')
        end
      else
        let '(o, w'') := operation w' in (o, g', w'')
  end.

Record SystemHealth : Type := mkSystemHealth {
  overall_health   : Q;
  healthy_features : nat;
  total_features   : nat;
  feature_report   : gmap string (bool * Z * option string)
}.

(** [get_system_health] *)
Definition get_system_health (g : GracefulDegradation) : SystemHealth :=
  let total_features := size (feature_status g) in
  let healthy_features :=
    length (List.filter (fun kv => healthy (snd kv))
              (map_to_list (feature_status g))) in
  mkSystemHealth
    (if Nat.ltb 0 total_features
     then inject_Z (Z.of_nat healthy_features)
          / inject_Z (Z.of_nat total_features)
     else 1)%Q
    healthy_features total_features
    ((fun f => (healthy f, failure_count f, last_check f))
       <$> feature_status g).

(** What the health check of [feature] says on world [w]: an exception
    counts as unhealthy. *)
Definition verdict (feature : Feature) (w : W) : bool :=
  match fst (health_check feature w) with
  | Return b => b
  | Raise _ => false
  end.

(** The entry a health check leaves for a feature. *)
Definition checked (f : Feature) (now : string) (w : W) : Feature :=
  mkFeature (verdict f w) (health_check f) (degraded_handler f) (Some now)
    (if verdict f w then 0 else failure_count f + 1).

(** A feature marked healthy has no failure counted, and no count is
    negative. *)
Definition counts_consistent (g : GracefulDegradation) : Prop :=
  forall name f, feature_status g !! name = Some f ->
    0 <= failure_count f /\ (healthy f = true -> failure_count f = 0).

Definition all_healthy (g : GracefulDegradation) : Prop :=
  forall name f, feature_status g !! name = Some f -> healthy f = true.
End Features.

(** Examples: a service that is down, with a cached answer as substitute. *)
Definition service_down (n : nat) : Outcome bool * nat :=
  (Return false, Datatypes.S n).
Definition cached_answer (n : nat) : Outcome string * nat :=
  (Return "cached", n).
Definition live_answer (n : nat) : Outcome string * nat :=
  (Return "live", Datatypes.S n).

End Degradation.

(** ** ResilientHTTPSession *)

Module Session.
Import RetryPolicy Breaker.

(** A [requests.Response], as far as the session reads it. *)
Record Response : Type := mkResponse {
  status_code : Z;
  text        : string
}.

Record ResilientHTTPSession : Type := mkSession {
  retry_config     : RetryConfig;
  circuit_breakers : gmap string CircuitBreaker
}.

(** [__init__]: [retry_config or RetryConfig()] *)
Definition new_session (config : option RetryConfig) : ResilientHTTPSession :=
  mkSession (match config with Some c => c | None => default_config end) ∅.

(** [get_circuit_breaker] *)
Definition get_circuit_breaker (s : ResilientHTTPSession)
    (service_name : string) : CircuitBreaker * ResilientHTTPSession :=
  match circuit_breakers s !! service_name with
  | Some cb => (cb, s)
  | None =>
      (Breaker.default,
       mkSession (retry_config s)
         (<[service_name := Breaker.default]> (circuit_breakers s)))
  end.

Section Http.
Context {W : Type}.
(** [Response.raise_for_status], of the HTTP library. *)
Variable raise_for_status : Response -> Outcome unit.

(** The inner [make_request]; [request] stands for
    [self.session.request(method, url, **kwargs)]. *)
Definition make_request (s : ResilientHTTPSession)
    (request : W -> Outcome Response * W) (w : W) : Outcome Response * W :=
  match request w with
  | (Return response, w') =>
      if existsb (Z.eqb (status_code response))
           (retry_on_status_codes (retry_config s))
      then match raise_for_status response with
           | Raise e => (Raise e, w')
           | Return _ => (Return response, w')
           end
      else (Return response, w')
  | (Raise e, w') => (Raise e, w')
  end.

(** [request_with_resilience]: the breaker of the service is the object
    the dictionary holds, so what the call does to it shows there. *)
Definition request_with_resilience (s : ResilientHTTPSession)
    (service_name : string) (clk : Clock)
    (request : W -> Outcome Response * W) (w : W)
    : Outcome Response * ResilientHTTPSession * W :=
  let '(circuit_breaker, s1) := get_circuit_breaker s service_name in
  let '(o, cb', w') :=
    wrapper circuit_breaker "make_request" clk (make_request s1 request) w in
  (o,
   mkSession (retry_config s1)
     (<[service_name := cb']> (circuit_breakers s1)),
   w').
End Http.

(** The breaker a service has: the one the dictionary holds, or the fresh
    one its first use creates. *)
Definition breaker_of (s : ResilientHTTPSession) (service_name : string)
    : CircuitBreaker :=
  match circuit_breakers s !! service_name with
  | Some cb => cb
  | None => Breaker.default
  end.

(** Every breaker of the session has the settings [CircuitBreaker()]
    gives. *)
Definition factory_settings (s : ResilientHTTPSession) : Prop :=
  forall name cb, circuit_breakers s !! name = Some cb ->
    failure_threshold cb = 5 /\ recovery_timeout cb = 60%Q /\
    expected_exception cb = "Exception".

(** [raise_for_status] as the HTTP library documents it: [HTTPError] for a
    status from 400 to 599. *)
Definition http_raise_for_status (r : Response) : Outcome unit :=
  if (400 <=? status_code r) && (status_code r <? 600)
  then Raise (HTTPError (status_code r) "error status")
  else Return tt.

(** A server that answers with a fixed status, counting the requests. *)
Definition answering (status : Z) (n : nat) : Outcome Response * nat :=
  (Return (mkResponse status ""), Datatypes.S n).

End Session.

(** ** Batch analytics *)

Module Analytics.
Import Batch Statistics.

(** The category [_categorize_errors] gives an error text. *)
Definition category (error_text : string) : string :=
  let error := lower error_text in
  if contains "connection" error || contains "timeout" error
  then "connection_issues"
  else if contains "permission" error || contains "forbidden" error
  then "permission_issues"
  else if contains "not found" error || contains "404" error
  then "not_found"
  else if contains "rate limit" error
  then "rate_limiting"
  else "other".

(** [_categorize_errors], on [self.results] *)
Definition _categorize_errors (results : list BatchResult)
    : gmap string nat :=
  fold_left
    (fun error_categories result =>
       match error result with
       | Some e =>
           if negb (success result) && negb (String.eqb e "")
           then bump error_categories (category e)
           else error_categories
       | None => error_categories
       end)
    results ∅.

(** [_get_risk_distribution] *)
Definition _get_risk_distribution (results : list BatchResult)
    : gmap string nat :=
  fold_left
    (fun risk_counts result =>
       if success result && negb (String.eqb (risk_assessment result) "")
       then bump risk_counts (risk_assessment result)
       else risk_counts)
    results ∅.

(** [sum] *)
Definition qsum (l : list Q) : Q := fold_left Qplus l 0%Q.
Definition zsum (l : list Z) : Z := fold_left Z.add l 0.

(** [total / count], Python's true division *)
Definition per (total : Z) (count : nat) : Q :=
  (inject_Z total / inject_Z (Z.of_nat count))%Q.

Record Spread : Type := mkSpread {
  sp_average : Q;
  sp_max     : Z;
  sp_min     : Z
}.

Record Volume : Type := mkVolume {
  vol_total   : Z;
  vol_average : Q;
  vol_max     : Z
}.

Record FileChanges : Type := mkFileChanges {
  files_changed    : Spread;
  fc_lines_added   : Volume;
  fc_lines_removed : Volume
}.

Definition volume (x : Z) (rest : list Z) : Volume :=
  mkVolume (zsum (x :: rest)) (per (zsum (x :: rest)) (length (x :: rest)))
    (fold_left Z.max rest x).

(** [_get_file_change_distribution]; the empty dictionary is [None]. *)
Definition _get_file_change_distribution (results : list BatchResult)
    : option FileChanges :=
  match results with
  | [] => None
  | _ =>
      match List.filter success results with
      | [] => None
      | r0 :: rest =>
          let file_counts := List.map file_count rest in
          Some (mkFileChanges
                  (mkSpread
                     (per (zsum (file_count r0 :: file_counts))
                        (length (file_count r0 :: file_counts)))
                     (fold_left Z.max file_counts (file_count r0))
                     (fold_left Z.min file_counts (file_count r0)))
                  (volume (lines_added r0) (List.map lines_added rest))
                  (volume (lines_removed r0) (List.map lines_removed rest)))
      end
  end.

Record Performance : Type := mkPerformance {
  p_total_processing_time   : Q;
  p_average_processing_time : Q;
  fastest_review            : Q;
  slowest_review            : Q
}.

Record Quality : Type := mkQuality {
  average_complexity_score : Q;
  risk_distribution        : gmap string nat;
  file_change_distribution : option FileChanges
}.

Record SuccessMetrics : Type := mkSuccessMetrics {
  sm_success_rate     : Q;
  reviews_posted_rate : Q;
  error_categories    : gmap string nat
}.

Record AnalyticsReport : Type := mkAnalytics {
  performance     : Performance;
  quality         : Quality;
  success_metrics : SuccessMetrics
}.

(** [get_analytics]; the empty dictionary is [None]. *)
Definition get_analytics (results : list BatchResult)
    : option AnalyticsReport :=
  match results with
  | [] => None
  | r0 :: rest =>
      let successful_results := List.filter success results in
      let times := List.map processing_time results in
      let count := inject_Z (Z.of_nat (length results)) in
      Some (mkAnalytics
        (mkPerformance
           (qsum times)
           (qsum times / count)%Q
           (fold_left Qmin (List.map processing_time rest)
              (processing_time r0))
           (fold_left Qmax (List.map processing_time rest)
              (processing_time r0)))
        (mkQuality
           (match successful_results with
            | [] => 0%Q
            | _ => per (zsum (List.map complexity_score successful_results))
                     (length successful_results)
            end)
           (_get_risk_distribution results)
           (_get_file_change_distribution results))
        (mkSuccessMetrics
           (inject_Z (Z.of_nat (length successful_results)) / count * 100)%Q
           (inject_Z (Z.of_nat (count_if review_posted results)) / count
            * 100)%Q
           (_categorize_errors results)))
  end.

(** The error texts that are categorized: those of the failed results,
    when not empty. *)
Definition failed_errors (results : list BatchResult) : list string :=
  omap (fun r => match error r with
                 | Some e =>
                     if negb (success r) && negb (String.eqb e "")
                     then Some e else None
                 | None => None
                 end) results.

(** The risk assessments that are counted: those of the successful
    results, when not empty. *)
Definition rated_risks (results : list BatchResult) : list string :=
  List.map risk_assessment
    (List.filter (fun r => success r
                           && negb (String.eqb (risk_assessment r) ""))
       results).

(** The number a tally holds for a key, 0 without entry. *)
Definition counted (d : gmap string nat) (k : string) : nat :=
  match d !! k with Some n => n | None => O end.

(** Example results. *)
Definition result_of (ok : bool) (time : Q) (err : option string)
    : BatchResult :=
  mkBatchResult 1 "group/project" ok time "general" 0 "" err false 0 0 0 "t".

End Analytics.

(** * Properties *)

(** ** The retry policy *)

Module RetryPolicyProps.
Import RetryPolicy.

Local Open Scope Q_scope.

Lemma capped_delay_le_max (c : RetryConfig) (attempt : Z) :
  capped_delay c attempt <= max_delay c.
Proof. unfold capped_delay. apply Q.le_min_r. Qed.

Lemma uncapped_delay_monotone (c : RetryConfig) (a b : Z) :
  0 <= base_delay c -> 1 <= exponential_base c -> (a <= b)%Z ->
  base_delay c * exponential_base c ^ (a - 1)
  <= base_delay c * exponential_base c ^ (b - 1).
Proof.
  intros Hbase Hexp Hab.
  rewrite !(Qmult_comm (base_delay c)).
  apply Qmult_le_compat_r; [|exact Hbase].
  apply Qpower_le_compat_l; [lia|exact Hexp].
Qed.

Lemma capped_delay_monotone (c : RetryConfig) (a b : Z) :
  0 <= base_delay c -> 1 <= exponential_base c -> (a <= b)%Z ->
  capped_delay c a <= capped_delay c b.
Proof.
  intros Hbase Hexp Hab. unfold capped_delay.
  apply Q.min_le_compat_r.
  now apply uncapped_delay_monotone.
Qed.

(** The factor [0.5 + random.random() * 0.5] lies in [[0.5, 1.0]]. *)
Lemma jitter_factor_range (rnd : Q) :
  0 <= rnd -> rnd < 1 ->
  (1 # 2) <= (1 # 2) + rnd * (1 # 2) /\ (1 # 2) + rnd * (1 # 2) <= 1.
Proof. intros H0 H1. split; lra. Qed.

Lemma scaled_le_max (d m f : Q) :
  d <= m -> 0 <= m -> (1 # 2) <= f -> f <= 1 -> d * f <= m.
Proof.
  intros Hd Hm Hf0 Hf1.
  destruct (Qlt_le_dec d 0) as [Hneg|Hpos].
  - apply Qle_trans with 0; [|exact Hm].
    assert (0 <= (- d) * f) by (apply Qmult_le_0_compat; lra).
    lra.
  - apply Qle_trans with d; [|exact Hd].
    assert (0 <= d * (1 - f)) by (apply Qmult_le_0_compat; lra).
    lra.
Qed.

(** What [float_pow] gives, by the range of the exponent and of the
    power. *)
Lemma float_pow_cases (x : Q) (n : Z) :
  (0 <= n)%Z ->
  (Qabs (inject_Z n) < float_overflow /\ Qabs (x ^ n) < float_overflow /\
   float_pow x n = Return (x ^ n)) \/
  (~ (Qabs (inject_Z n) < float_overflow /\ Qabs (x ^ n) < float_overflow) /\
   exists msg, float_pow x n = Raise (OverflowError msg)).
Proof.
  intros Hn. unfold float_pow.
  destruct (Qle_bool float_overflow (Qabs (inject_Z n))) eqn:E1.
  { right. apply Qle_bool_iff in E1. split; [|eauto].
    intros [H _]. exact (Qlt_not_le _ _ H E1). }
  replace (n <? 0)%Z with false by (symmetry; lia).
  rewrite andb_false_r.
  destruct (Qle_bool float_overflow (Qabs (x ^ n))) eqn:E2.
  { right. apply Qle_bool_iff in E2. split; [|eauto].
    intros [_ H]. exact (Qlt_not_le _ _ H E2). }
  left. split_and!; [| |reflexivity]; apply Qnot_le_lt; intros H;
    apply Qle_bool_iff in H; congruence.
Qed.

(** [calculate_delay] returns exactly where the power is in range, and
    raises [OverflowError] elsewhere. *)
Lemma calculate_delay_cases (c : RetryConfig) (attempt : Z) (rnd : Q) :
  (1 <= attempt)%Z ->
  (power_in_range c attempt /\
   calculate_delay c attempt rnd
   = Return (if jitter c
             then capped_delay c attempt * ((1 # 2) + rnd * (1 # 2))
             else capped_delay c attempt)) \/
  (~ power_in_range c attempt /\
   exists msg, calculate_delay c attempt rnd = Raise (OverflowError msg)).
Proof.
  intros Ha. unfold calculate_delay, power_in_range, capped_delay.
  destruct (float_pow_cases (exponential_base c) (attempt - 1))
    as [(H1 & H2 & ->)|(Hno & msg & ->)]; [lia| |].
  - left. auto.
  - right. split; [exact Hno|eauto].
Qed.

Lemma power_in_range_earlier (c : RetryConfig) (a b : Z) :
  1 <= exponential_base c -> (1 <= a)%Z -> (a <= b)%Z ->
  power_in_range c b -> power_in_range c a.
Proof.
  intros Hexp Ha Hab [Hb1 Hb2]. split.
  - eapply Qle_lt_trans; [|exact Hb1].
    rewrite !Qabs_pos by (change 0 with (inject_Z 0); rewrite <- Zle_Qle; lia).
    rewrite <- Zle_Qle. lia.
  - eapply Qle_lt_trans; [|exact Hb2].
    assert (H0 : forall n, (0 <= n)%Z -> 0 <= exponential_base c ^ n)
      by (intros n _; apply Qpower_0_le; lra).
    rewrite !Qabs_pos by (apply H0; lia).
    apply Qpower_le_compat_l; [lia|exact Hexp].
Qed.

(** C6, as the code has it. For an attempt from 1 on, [calculate_delay]
    returns exactly when [exponential_base ** (attempt - 1)] is within the
    float range and raises [OverflowError] otherwise. Where it returns:
    without jitter the delay is
    [min(base_delay * exponential_base^(attempt-1), max_delay)] and never
    exceeds [max_delay]; when [base_delay >= 0] and [exponential_base >= 1]
    an earlier attempt returns too, and no more; with jitter the delay is
    that value times a factor in [[0.5, 1.0]], at most [max_delay] when
    [max_delay >= 0]. *)
Theorem calculate_delay_bounds (c : RetryConfig) :
  (forall attempt rnd, (1 <= attempt)%Z ->
     (power_in_range c attempt <->
      exists d, calculate_delay c attempt rnd = Return d) /\
     (~ power_in_range c attempt <->
      exists msg, calculate_delay c attempt rnd = Raise (OverflowError msg)))
  /\
  (forall attempt rnd d, (1 <= attempt)%Z -> jitter c = false ->
     calculate_delay c attempt rnd = Return d ->
     d = Qmin (base_delay c * exponential_base c ^ (attempt - 1)) (max_delay c)
     /\ d <= max_delay c) /\
  (forall a b rnd rnd' db, (1 <= a)%Z -> (a <= b)%Z -> jitter c = false ->
     0 <= base_delay c -> 1 <= exponential_base c ->
     calculate_delay c b rnd' = Return db ->
     exists da, calculate_delay c a rnd = Return da /\ da <= db) /\
  (forall attempt rnd d, (1 <= attempt)%Z -> 0 <= rnd -> rnd < 1 ->
     jitter c = true ->
     calculate_delay c attempt rnd = Return d ->
     exists factor,
       (1 # 2) <= factor /\ factor <= 1 /\
       d = Qmin (base_delay c * exponential_base c ^ (attempt - 1))
             (max_delay c) * factor /\
       (0 <= max_delay c -> d <= max_delay c)).
Proof.
  split_and!.
  - intros attempt rnd Ha.
    destruct (calculate_delay_cases c attempt rnd Ha)
      as [(Hin & ->)|(Hout & msg & ->)].
    + split; split; try (intros; eauto; fail).
      * intros Hno. contradiction.
      * intros (msg & Hmsg). discriminate.
    + split; split; try (intros; eauto; fail).
      * intros Hin. contradiction.
      * intros (d & Hd). discriminate.
  - intros attempt rnd d Ha Hj Hd.
    destruct (calculate_delay_cases c attempt rnd Ha)
      as [(_ & Heq)|(_ & msg & Heq)]; rewrite Heq in Hd; [|discriminate].
    rewrite Hj in Hd. injection Hd as <-.
    split; [reflexivity|apply capped_delay_le_max].
  - intros a b rnd rnd' db Ha Hab Hj Hbase Hexp Hb.
    destruct (calculate_delay_cases c b rnd' ltac:(lia))
      as [(Hin & Heq)|(_ & msg & Heq)]; rewrite Heq in Hb; [|discriminate].
    rewrite Hj in Hb. injection Hb as <-.
    pose proof (power_in_range_earlier c a b Hexp Ha Hab Hin) as Hina.
    destruct (calculate_delay_cases c a rnd Ha)
      as [(_ & Heqa)|(Hout & _)]; [|contradiction].
    rewrite Hj in Heqa. eexists. split; [exact Heqa|].
    now apply capped_delay_monotone.
  - intros attempt rnd d Ha H0 H1 Hj Hd.
    destruct (calculate_delay_cases c attempt rnd Ha)
      as [(_ & Heq)|(_ & msg & Heq)]; rewrite Heq in Hd; [|discriminate].
    rewrite Hj in Hd. injection Hd as <-.
    destruct (jitter_factor_range rnd H0 H1) as [Hlo Hhi].
    exists ((1 # 2) + rnd * (1 # 2)).
    split; [exact Hlo|]. split; [exact Hhi|]. split; [reflexivity|].
    intros Hmax.
    apply scaled_le_max; try assumption. apply capped_delay_le_max.
Qed.

Lemma calculate_delay_bounds_witness :
  (exists d2 d3,
     calculate_delay default_no_jitter 2 0 = Return d2 /\
     calculate_delay default_no_jitter 3 0 = Return d3 /\ d2 <= d3) /\
  (exists msg,
     calculate_delay default_no_jitter 1025 0 = Raise (OverflowError msg)).
Proof.
  destruct (calculate_delay_bounds default_no_jitter)
    as (Hrange & _ & Hmono & _).
  split.
  - assert (H3 : exists d3, calculate_delay default_no_jitter 3 0 = Return d3).
    { apply (Hrange 3%Z 0); [lia|]. split; vm_compute; reflexivity. }
    destruct H3 as (d3 & H3).
    destruct (Hmono 2%Z 3%Z 0 0 d3) as (d2 & H2 & Hle);
      [lia|lia|reflexivity|vm_compute; discriminate|vm_compute; discriminate
      |exact H3|].
    exists d2, d3. auto.
  - apply (Hrange 1025%Z 0); [lia|].
    intros [_ H]. vm_compute in H. discriminate.
Defined.

(** C6 as stated fails for a configuration whose [exponential_base] is
    below 1: the delay of attempt 2 is smaller than that of attempt 1. *)
Lemma calculate_delay_not_monotone :
  let c := mkRetryConfig 3 1 60 (1 # 2) false
             ["ConnectionError"; "Timeout"; "HTTPError"]
             [429; 500; 502; 503; 504]%Z in
  exists d1 d2,
    calculate_delay c 1 0 = Return d1 /\
    calculate_delay c 2 0 = Return d2 /\
    ~ (d1 <= d2).
Proof.
  eexists. eexists. split; [vm_compute; reflexivity|].
  split; [vm_compute; reflexivity|].
  vm_compute. intros H. apply H. reflexivity.
Qed.

(** With jitter and a negative [max_delay] the scaled value exceeds
    [max_delay]. *)
Lemma calculate_delay_jitter_exceeds_negative_max :
  let c := mkRetryConfig 3 1 (-2) 2 true [] [] in
  exists d, calculate_delay c 1 0 = Return d /\ ~ (d <= max_delay c).
Proof.
  eexists. split; [vm_compute; reflexivity|].
  vm_compute. intros H. apply H. reflexivity.
Qed.

(** With the default base 2.0 the power of attempt 1024 is the last within
    the float range: attempt 1025 raises. *)
Lemma calculate_delay_overflows :
  calculate_delay default_no_jitter 1024 0 = Return (max_delay default_no_jitter)
  /\ raised (calculate_delay default_no_jitter 1025 0) = true.
Proof. split; vm_compute; reflexivity. Qed.

(** An exception outside [retry_on_exceptions] leaves the wrapper on the
    first attempt: one invocation, no sleep. *)
Lemma non_retryable_propagates {W V : Type} (c : RetryConfig)
    (func : W -> Outcome V * W) (rnd : Z -> Q) (w : W) (e : Exn) :
  (1 <= max_attempts c)%Z ->
  fst (func w) = Raise e ->
  isinstance_any e (retry_on_exceptions c) = false ->
  let run := retry_with_backoff c func rnd w in
  result run = Raise e /\ invocations run = 1%nat /\ sleeps run = []
  /\ world run = snd (func w).
Proof.
  intros Hmax Hraise Hcls. unfold retry_with_backoff.
  destruct (Z.to_nat (max_attempts c)) as [|k] eqn:Hk; [lia|].
  simpl. destruct (func w) as [o w']. simpl in Hraise. subst o.
  rewrite Hcls. simpl. auto.
Qed.

(** C5 on the code: an [HTTPError] carrying status 404 is an instance of a
    class in [retry_on_exceptions], and [retry_with_backoff] never looks at
    [retry_on_status_codes]; under the default configuration the operation
    is invoked three times, with two backoff sleeps between. The world
    counts the invocations. *)
Theorem http_404_is_retried :
  let func := fun n : nat =>
    (@Raise unit (HTTPError 404 "404 Client Error: Not Found"), Datatypes.S n) in
  let run := retry_with_backoff default_config func (fun _ => 1 # 2) O in
  existsb (Z.eqb 404) (retry_on_status_codes default_config) = false /\
  result run = Raise (HTTPError 404 "404 Client Error: Not Found") /\
  invocations run = 3%nat /\ world run = 3%nat /\
  length (sleeps run) = 2%nat.
Proof. vm_compute. repeat split. Qed.

End RetryPolicyProps.

(** ** The circuit breaker *)

Module BreakerProps.
Import Breaker.

Local Open Scope Q_scope.

Lemma reset_refused (cb : CircuitBreaker) (now tl : Q) :
  last_failure_time cb = Some tl -> now - tl < recovery_timeout cb ->
  _should_attempt_reset cb now = false.
Proof.
  intros Hl Hlt. unfold _should_attempt_reset. rewrite Hl.
  destruct (Qle_bool (recovery_timeout cb) (now - tl)) eqn:E; [|reflexivity].
  apply Qle_bool_iff in E. exfalso. exact (Qlt_not_le _ _ Hlt E).
Qed.

Lemma reset_granted (cb : CircuitBreaker) (now tl : Q) :
  last_failure_time cb = Some tl -> recovery_timeout cb <= now - tl ->
  _should_attempt_reset cb now = true.
Proof.
  intros Hl Hle. unfold _should_attempt_reset. rewrite Hl.
  now apply Qle_bool_iff.
Qed.

Lemma on_failure_state (cb : CircuitBreaker) (now : Q) :
  state (_on_failure cb now)
  = if (failure_threshold cb <=? failure_count cb + 1)%Z then OPEN
    else state cb.
Proof.
  unfold _on_failure. cbn.
  destruct (failure_threshold cb <=? failure_count cb + 1)%Z; reflexivity.
Qed.

Lemma on_failure_fields (cb : CircuitBreaker) (now : Q) :
  failure_threshold (_on_failure cb now) = failure_threshold cb /\
  recovery_timeout (_on_failure cb now) = recovery_timeout cb /\
  expected_exception (_on_failure cb now) = expected_exception cb /\
  failure_count (_on_failure cb now) = (failure_count cb + 1)%Z /\
  last_failure_time (_on_failure cb now) = Some now.
Proof.
  unfold _on_failure. cbn.
  destruct (failure_threshold cb <=? failure_count cb + 1)%Z; cbn; auto.
Qed.

Lemma on_success_fields (cb : CircuitBreaker) :
  failure_threshold (_on_success cb) = failure_threshold cb /\
  recovery_timeout (_on_success cb) = recovery_timeout cb /\
  expected_exception (_on_success cb) = expected_exception cb /\
  failure_count (_on_success cb) = 0%Z /\
  last_failure_time (_on_success cb) = last_failure_time cb /\
  state (_on_success cb)
  = match state cb with HALF_OPEN => CLOSED | s => s end.
Proof.
  unfold _on_success. cbn. destruct (state cb) eqn:E; cbn;
    repeat split; exact E.
Qed.

Section Calls.
Context {W V : Type}.
Implicit Types (func : W -> Outcome V * W) (cb : CircuitBreaker).

(** The three ways a pass through the [try] block ends. *)
Lemma attempt_cases cb clk func w :
  (exists v, func w = (Return v, snd (func w)) /\
     attempt cb clk func w = (Return v, _on_success cb, snd (func w))) \/
  (exists e, func w = (Raise e, snd (func w)) /\
     isinstance e (expected_exception cb) = true /\
     attempt cb clk func w
     = (Raise e, _on_failure cb (t_fail clk), snd (func w))) \/
  (exists e, func w = (Raise e, snd (func w)) /\
     isinstance e (expected_exception cb) = false /\
     attempt cb clk func w = (Raise e, cb, snd (func w))).
Proof.
  unfold attempt. destruct (func w) as [[v|e] w']; cbn.
  - left. eauto.
  - destruct (isinstance e (expected_exception cb)) eqn:E.
    + right. left. eauto.
    + right. right. eauto.
Qed.

(** The operation runs exactly once in the [try] block. *)
Lemma attempt_runs_func cb clk func w :
  (fst (fst (attempt cb clk func w)), snd (attempt cb clk func w)) = func w.
Proof.
  unfold attempt. destruct (func w) as [[v|e] w']; cbn; [reflexivity|].
  destruct (isinstance e (expected_exception cb)); reflexivity.
Qed.

Lemma attempt_consistent cb clk func w :
  consistent cb -> state cb <> OPEN ->
  consistent (snd (fst (attempt cb clk func w))).
Proof.
  intros (Hc & Ht & Hl) Hno.
  destruct (attempt_cases cb clk func w)
    as [(v & _ & ->)|[(e & _ & _ & ->)|(e & _ & _ & ->)]]; cbn.
  - destruct (on_success_fields cb) as (_ & _ & _ & Hcount & _ & Hst).
    unfold consistent. rewrite Hcount, Hst.
    destruct (state cb); try congruence; repeat split; try lia; congruence.
  - destruct (on_failure_fields cb (t_fail clk))
      as (Hth & _ & _ & Hcount & Hlast).
    unfold consistent. rewrite Hcount, Hlast, Hth, on_failure_state.
    destruct (Z.leb_spec (failure_threshold cb) (failure_count cb + 1)).
    + repeat split; try lia; congruence.
    + repeat split; try lia; try congruence.
      intros Hs. specialize (Ht Hs). lia.
  - repeat split; assumption.
Qed.

Lemma wrapper_consistent cb name clk func w :
  consistent cb -> consistent (snd (fst (wrapper cb name clk func w))).
Proof.
  intros Hc. unfold wrapper. destruct (state cb) eqn:Hs.
  - apply attempt_consistent; [assumption|congruence].
  - destruct (_should_attempt_reset cb (t_check clk)); [|exact Hc].
    apply attempt_consistent; [|cbn; congruence].
    destruct Hc as (H0 & Ht & Hl). repeat split; cbn; try assumption.
    + intros _. apply Ht. congruence.
    + congruence.
  - apply attempt_consistent; [assumption|congruence].
Qed.

Lemma reachable_consistent cb : @reachable W V cb -> consistent cb.
Proof.
  induction 1 as [threshold timeout expected|cb name clk func w _ IH].
  - repeat split; cbn; try lia; congruence.
  - now apply wrapper_consistent.
Qed.

Lemma attempt_expected cb clk func w :
  expected_exception (snd (fst (attempt cb clk func w)))
  = expected_exception cb /\
  failure_threshold (snd (fst (attempt cb clk func w)))
  = failure_threshold cb.
Proof.
  destruct (attempt_cases cb clk func w)
    as [(v & _ & ->)|[(e & _ & _ & ->)|(e & _ & _ & ->)]]; cbn.
  - destruct (on_success_fields cb) as (? & _ & ? & _); auto.
  - destruct (on_failure_fields cb (t_fail clk)) as (? & _ & ? & _); auto.
  - auto.
Qed.

Lemma wrapper_expected cb name clk func w :
  expected_exception (snd (fst (wrapper cb name clk func w)))
  = expected_exception cb /\
  failure_threshold (snd (fst (wrapper cb name clk func w)))
  = failure_threshold cb.
Proof.
  unfold wrapper. destruct (state cb).
  - apply attempt_expected.
  - destruct (_should_attempt_reset cb (t_check clk)); [|auto].
    apply (attempt_expected (set_state cb HALF_OPEN)).
  - apply attempt_expected.
Qed.

(** A failing pass through the [try] block. *)
Lemma attempt_failure cb clk func w :
  fails_for cb func ->
  exists e, attempt cb clk func w
            = (Raise e, _on_failure cb (t_fail clk), snd (func w)).
Proof.
  intros Hf. destruct (Hf w) as (e & He & Hexp).
  exists e. unfold attempt. destruct (func w) as [o w']. cbn in He.
  subst o. rewrite Hexp. reflexivity.
Qed.

(** One failed call: an open breaker stays open; otherwise the counter
    grows by one, and the breaker opens once it reaches the threshold. *)
Lemma failed_call_step cb name clk func w :
  consistent cb -> fails_for cb func ->
  let cb' := snd (fst (wrapper cb name clk func w)) in
  state cb' = OPEN \/
  (state cb = CLOSED /\ state cb' = CLOSED /\
   failure_count cb' = (failure_count cb + 1)%Z /\
   (failure_count cb' < failure_threshold cb)%Z).
Proof.
  intros (H0 & Ht & Hl) Hf. cbn zeta. unfold wrapper.
  destruct (state cb) eqn:Hs.
  - destruct (attempt_failure cb clk func w Hf) as (e & ->). cbn.
    rewrite on_failure_state.
    destruct (on_failure_fields cb (t_fail clk)) as (_ & _ & _ & Hc & _).
    rewrite Hc, Hs.
    destruct (Z.leb_spec (failure_threshold cb) (failure_count cb + 1));
      [left; reflexivity|right; auto].
  - destruct (_should_attempt_reset cb (t_check clk)); [|left; exact Hs].
    assert (Hf' : fails_for (set_state cb HALF_OPEN) func) by exact Hf.
    destruct (attempt_failure _ clk func w Hf') as (e & ->). cbn.
    rewrite on_failure_state. cbn.
    assert (failure_threshold cb <= failure_count cb)%Z
      by (apply Ht; congruence).
    destruct (Z.leb_spec (failure_threshold cb) (failure_count cb + 1));
      [left; reflexivity|lia].
  - destruct (attempt_failure cb clk func w Hf) as (e & ->). cbn.
    rewrite on_failure_state.
    assert (failure_threshold cb <= failure_count cb)%Z
      by (apply Ht; congruence).
    destruct (Z.leb_spec (failure_threshold cb) (failure_count cb + 1));
      [left; reflexivity|lia].
Qed.

Lemma run_calls_cons cb w (c : @Call W V) (rest : list (@Call W V)) :
  run_calls cb w (c :: rest)
  = run_calls
      (snd (fst (wrapper cb (call_name c) (call_clock c) (call_func c) w)))
      (snd (wrapper cb (call_name c) (call_clock c) (call_func c) w)) rest.
Proof.
  cbn [run_calls].
  destruct (wrapper cb (call_name c) (call_clock c) (call_func c) w)
    as [[o cb'] w']. reflexivity.
Qed.

Lemma fails_for_after cb name clk func w (calls : list (@Call W V)) :
  Forall (fun c => fails_for cb (call_func c)) calls ->
  Forall (fun c => fails_for (snd (fst (wrapper cb name clk func w)))
                     (call_func c)) calls.
Proof.
  intros Hall. destruct (wrapper_expected cb name clk func w) as [Hexp _].
  eapply Forall_impl; [exact Hall|].
  intros a Ha. unfold fails_for. rewrite Hexp. exact Ha.
Qed.

(** Failed calls leave an open breaker open. *)
Lemma failed_calls_stay_open (calls : list (@Call W V)) : forall cb w,
  consistent cb -> state cb = OPEN ->
  Forall (fun c => fails_for cb (call_func c)) calls ->
  state (fst (run_calls cb w calls)) = OPEN.
Proof.
  induction calls as [|c rest IH]; intros cb w Hc Ho Hall; [exact Ho|].
  rewrite run_calls_cons. inversion Hall as [|? ? Hf Hrest]; subst.
  apply IH.
  - now apply wrapper_consistent.
  - destruct (failed_call_step cb (call_name c) (call_clock c)
                (call_func c) w Hc Hf) as [H|(H & _)];
      [exact H|congruence].
  - now apply fails_for_after.
Qed.

(** After a run of failed calls the breaker is open, or still closed with
    every failure counted. *)
Lemma failed_calls_count (calls : list (@Call W V)) : forall cb w,
  consistent cb ->
  Forall (fun c => fails_for cb (call_func c)) calls ->
  calls <> [] ->
  let cb' := fst (run_calls cb w calls) in
  state cb' = OPEN \/
  (state cb' = CLOSED /\
   failure_count cb' = (failure_count cb + Z.of_nat (length calls))%Z /\
   (failure_count cb' < failure_threshold cb)%Z).
Proof.
  induction calls as [|c rest IH]; intros cb w Hc Hall Hne; [congruence|].
  cbn zeta. rewrite run_calls_cons.
  inversion Hall as [|? ? Hf Hrest]; subst.
  pose proof (wrapper_consistent cb (call_name c) (call_clock c)
                (call_func c) w Hc) as Hc'.
  destruct (wrapper_expected cb (call_name c) (call_clock c)
              (call_func c) w) as [_ Hth].
  pose proof (fails_for_after cb (call_name c) (call_clock c)
                (call_func c) w rest Hrest) as Hrest'.
  pose proof (failed_call_step cb (call_name c) (call_clock c)
                (call_func c) w Hc Hf) as Hstep.
  cbn zeta in Hstep.
  destruct Hstep as [Ho|(_ & Hs & Hcnt & Hlt)].
  - left. now apply failed_calls_stay_open.
  - destruct rest as [|c2 rest].
    + right. cbn. repeat split; [exact Hs|lia|exact Hlt].
    + assert (Hne2 : c2 :: rest <> []) by discriminate.
      specialize (IH _ (snd (wrapper cb (call_name c) (call_clock c)
                               (call_func c) w)) Hc' Hrest' Hne2).
      cbn zeta in IH. destruct IH as [Ho|(Hs2 & Hcnt2 & Hlt2)];
        [left; exact Ho|].
      right. repeat split; [exact Hs2| |lia].
      rewrite Hcnt2, Hcnt. cbn [length]. lia.
Qed.

Lemma attempt_half_open cb clk func w :
  state cb = HALF_OPEN ->
  (failure_threshold cb <= failure_count cb)%Z ->
  half_open_trial cb func w (attempt cb clk func w).
Proof.
  intros Hs Ht. unfold half_open_trial.
  split; [apply attempt_runs_func|].
  destruct (attempt_cases cb clk func w)
    as [(v & _ & ->)|[(e & _ & _ & ->)|(e & _ & He & ->)]]; cbn.
  - split; [|discriminate]. intros _ _.
    destruct (on_success_fields cb) as (_ & _ & _ & Hc & _ & Hst).
    rewrite Hc, Hst, Hs. auto.
  - split; [discriminate|]. intros _ _ _. rewrite on_failure_state.
    destruct (Z.leb_spec (failure_threshold cb) (failure_count cb + 1));
      [reflexivity|lia].
  - split; [discriminate|]. intros e' [= <-] He'. congruence.
Qed.

(** A trial from HALF_OPEN ends OPEN only through [_on_failure], which
    stamps the failure. *)
Lemma attempt_half_open_reopens cb clk func w :
  state cb = HALF_OPEN ->
  state (snd (fst (attempt cb clk func w))) = OPEN ->
  last_failure_time (snd (fst (attempt cb clk func w))) = Some (t_fail clk).
Proof.
  intros Hs.
  destruct (attempt_cases cb clk func w)
    as [(v & _ & ->)|[(e & _ & _ & ->)|(e & _ & He & ->)]]; cbn.
  - destruct (on_success_fields cb) as (_ & _ & _ & _ & _ & Hst).
    rewrite Hst, Hs. discriminate.
  - intros _. now destruct (on_failure_fields cb (t_fail clk))
                    as (_ & _ & _ & _ & ?).
  - congruence.
Qed.
End Calls.

(** The two fates of a call on an OPEN breaker. *)
Lemma breaker_cycle_parts {W V : Type} (cb : CircuitBreaker) (tl : Q)
    name clk (func : W -> Outcome V * W) w :
  state cb = OPEN -> last_failure_time cb = Some tl ->
  (t_check clk - tl < recovery_timeout cb ->
     wrapper cb name clk func w = (Raise (circuit_open_error name), cb, w)) /\
  (recovery_timeout cb <= t_check clk - tl ->
     wrapper cb name clk func w = attempt (set_state cb HALF_OPEN) clk func w).
Proof.
  intros Hs Hl. split.
  - intros Hlt. unfold wrapper.
    rewrite Hs, (reset_refused cb _ tl Hl Hlt). reflexivity.
  - intros Hle. unfold wrapper.
    rewrite Hs, (reset_granted cb _ tl Hl Hle). reflexivity.
Qed.

Lemma run_calls_consistent {W V : Type} (calls : list (@Call W V)) :
  forall cb w, consistent cb -> consistent (fst (run_calls cb w calls)).
Proof.
  induction calls as [|c rest IH]; intros cb w Hc; [exact Hc|].
  rewrite run_calls_cons. apply IH. now apply wrapper_consistent.
Qed.

Lemma attempt_timeout {W V : Type} cb clk (func : W -> Outcome V * W) w :
  recovery_timeout (snd (fst (attempt cb clk func w))) = recovery_timeout cb.
Proof.
  destruct (attempt_cases cb clk func w)
    as [(v & _ & ->)|[(e & _ & _ & ->)|(e & _ & _ & ->)]]; cbn.
  - now destruct (on_success_fields cb) as (_ & ? & _).
  - now destruct (on_failure_fields cb (t_fail clk)) as (_ & ? & _).
  - reflexivity.
Qed.

Lemma wrapper_timeout {W V : Type} cb name clk (func : W -> Outcome V * W) w :
  recovery_timeout (snd (fst (wrapper cb name clk func w)))
  = recovery_timeout cb.
Proof.
  unfold wrapper. destruct (state cb).
  - apply attempt_timeout.
  - destruct (_should_attempt_reset cb (t_check clk)); [|reflexivity].
    apply (attempt_timeout (set_state cb HALF_OPEN)).
  - apply attempt_timeout.
Qed.

Lemma run_calls_settings {W V : Type} (calls : list (@Call W V)) :
  forall cb w,
    recovery_timeout (fst (run_calls cb w calls)) = recovery_timeout cb /\
    expected_exception (fst (run_calls cb w calls)) = expected_exception cb /\
    failure_threshold (fst (run_calls cb w calls)) = failure_threshold cb.
Proof.
  induction calls as [|c rest IH]; intros cb w; [auto|].
  rewrite run_calls_cons.
  destruct (IH (snd (fst (wrapper cb (call_name c) (call_clock c)
                            (call_func c) w)))
              (snd (wrapper cb (call_name c) (call_clock c) (call_func c) w)))
    as (-> & -> & ->).
  rewrite wrapper_timeout.
  destruct (wrapper_expected cb (call_name c) (call_clock c) (call_func c) w)
    as [-> ->].
  auto.
Qed.

(** Failed calls on a closed breaker, up to the threshold: each call runs
    its operation, each failure is counted and stamped, and the breaker
    opens exactly when the count reaches the threshold. *)
Lemma failed_calls_from_closed {W V : Type} (calls : list (@Call W V)) :
  forall cb w,
    state cb = CLOSED ->
    Forall (fun c => fails_for cb (call_func c)) calls ->
    calls <> [] ->
    (failure_count cb + Z.of_nat (length calls) <= failure_threshold cb)%Z ->
    let cb' := fst (run_calls cb w calls) in
    failure_count cb' = (failure_count cb + Z.of_nat (length calls))%Z /\
    last_failure_time cb'
    = (fun c => t_fail (call_clock c)) <$> last calls /\
    snd (run_calls cb w calls)
    = fold_left (fun w c => snd (call_func c w)) calls w /\
    state cb'
    = if (failure_threshold cb
          <=? failure_count cb + Z.of_nat (length calls))%Z
      then OPEN else CLOSED.
Proof.
  induction calls as [|c rest IH]; intros cb w Hs Hall Hne Hle;
    [congruence|].
  cbn zeta. rewrite run_calls_cons.
  inversion Hall as [|? ? Hf Hrest]; subst.
  assert (Hw : wrapper cb (call_name c) (call_clock c) (call_func c) w
               = attempt cb (call_clock c) (call_func c) w)
    by (unfold wrapper; now rewrite Hs).
  pose proof (fails_for_after cb (call_name c) (call_clock c)
                (call_func c) w rest Hrest) as Hrest'.
  rewrite Hw in *.
  destruct (attempt_failure cb (call_clock c) (call_func c) w Hf)
    as (e & Heq).
  rewrite Heq in *. cbn [fst snd] in *.
  destruct (on_failure_fields cb (t_fail (call_clock c)))
    as (Hth & _ & _ & Hcnt & Hlast).
  pose proof (on_failure_state cb (t_fail (call_clock c))) as Hst.
  destruct rest as [|c2 rest].
  - cbn [run_calls fst snd fold_left length last].
    rewrite Hcnt, Hlast, Hst, Hs.
    replace (failure_count cb + Z.of_nat 1)%Z
      with (failure_count cb + 1)%Z by lia.
    split_and!; reflexivity.
  - cbn [length] in Hle.
    assert (Hclosed : state (_on_failure cb (t_fail (call_clock c))) = CLOSED).
    { rewrite Hst, Hs.
      destruct (Z.leb_spec (failure_threshold cb) (failure_count cb + 1));
        [lia|reflexivity]. }
    destruct (IH (_on_failure cb (t_fail (call_clock c)))
                (snd (call_func c w)) Hclosed Hrest' ltac:(discriminate))
      as (H1 & H2 & H3 & H4).
    { rewrite Hcnt, Hth. cbn [length]. lia. }
    cbn zeta in H1, H2, H3, H4.
    rewrite H1, H2, H3, H4, Hcnt, Hth.
    split_and!.
    + cbn [length]. lia.
    + reflexivity.
    + reflexivity.
    + replace (failure_count cb + 1 + Z.of_nat (length (c2 :: rest)))%Z
        with (failure_count cb + Z.of_nat (length (c :: c2 :: rest)))%Z
        by (cbn [length]; lia).
      reflexivity.
Qed.

(** C2, as the code has it, for a breaker a program can hold whose
    threshold [t] is at least 1. After [t] failed calls, calls whose
    operation raises an exception of the expected class, the state is OPEN
    and a last failure time is recorded: on a breaker that was closed with
    no failure counted, each of the [t] calls ran its operation and the
    time is that of the last of them. A next call made less than
    [recovery_timeout] after that time raises without running the operation
    and leaves the breaker as it is. A next call made once
    [recovery_timeout] has elapsed runs the operation exactly once, as the
    HALF_OPEN trial: when it returns the breaker is CLOSED with counter 0;
    when it fails the breaker is OPEN with the failure time renewed, so
    that calls are refused again until the timeout has elapsed anew. A
    breaker stored as HALF_OPEN treats its next call as such a trial. *)
Theorem breaker_cycle {W V : Type} (cb : CircuitBreaker)
    (Hreach : @reachable W V cb) :
  (forall (calls : list (@Call W V)) (w : W),
     (1 <= failure_threshold cb)%Z ->
     Forall (fun c => fails_for cb (call_func c)) calls ->
     Z.of_nat (length calls) = failure_threshold cb ->
     let cb' := fst (run_calls cb w calls) in
     state cb' = OPEN /\
     exists tl,
       last_failure_time cb' = Some tl /\
       (state cb = CLOSED -> failure_count cb = 0%Z ->
          (fun c => t_fail (call_clock c)) <$> last calls = Some tl /\
          snd (run_calls cb w calls)
          = fold_left (fun w c => snd (call_func c w)) calls w) /\
       forall name clk (func : W -> Outcome V * W) w',
         let r := wrapper cb' name clk func w' in
         (t_check clk - tl < recovery_timeout cb ->
            r = (Raise (circuit_open_error name), cb', w')) /\
         (recovery_timeout cb <= t_check clk - tl ->
            (fst (fst r), snd r) = func w' /\
            (forall v, fst (fst r) = Return v ->
               state (snd (fst r)) = CLOSED /\
               failure_count (snd (fst r)) = 0%Z) /\
            (forall e, fst (fst r) = Raise e ->
               isinstance e (expected_exception cb) = true ->
               state (snd (fst r)) = OPEN /\
               last_failure_time (snd (fst r)) = Some (t_fail clk) /\
               forall name2 clk2 (func2 : W -> Outcome V * W) w2,
                 t_check clk2 - t_fail clk < recovery_timeout cb ->
                 wrapper (snd (fst r)) name2 clk2 func2 w2
                 = (Raise (circuit_open_error name2), snd (fst r), w2)))) /\
  (forall name clk (func : W -> Outcome V * W) w,
     state cb = HALF_OPEN ->
     half_open_trial cb func w (wrapper cb name clk func w)).
Proof.
  pose proof (reachable_consistent cb Hreach) as Hc.
  split.
  - intros calls w Hth Hall Hlen. cbn zeta.
    assert (Hne : calls <> [])
      by (destruct calls; [cbn in Hlen; lia|discriminate]).
    set (cb' := fst (run_calls cb w calls)).
    assert (Hopen : state cb' = OPEN).
    { destruct (failed_calls_count calls cb w Hc Hall Hne)
        as [Ho|(_ & Hcnt & Hlt)]; [exact Ho|].
      destruct Hc as (H0 & _). fold cb' in Hcnt, Hlt. lia. }
    pose proof (run_calls_consistent calls cb w Hc) as Hc'. fold cb' in Hc'.
    destruct (run_calls_settings calls cb w) as (Hto & Hexp & Hthr).
    fold cb' in Hto, Hexp, Hthr.
    destruct Hc' as (Hc0 & Hct & Hcl). specialize (Hcl Hopen).
    destruct (last_failure_time cb') as [tl|] eqn:Hlast; [|congruence].
    split; [exact Hopen|]. exists tl. split; [reflexivity|]. split.
    { intros Hs Hz.
      destruct (failed_calls_from_closed calls cb w Hs Hall Hne)
        as (_ & H2 & H3 & _); [lia|].
      fold cb' in H2. rewrite Hlast in H2. auto. }
    intros name clk func w'.
    destruct (breaker_cycle_parts cb' tl name clk func w' Hopen Hlast)
      as [Hfast Htrial].
    rewrite Hto in Hfast, Htrial.
    split; [exact Hfast|]. intros Hle. rewrite (Htrial Hle).
    assert (Htr : half_open_trial (set_state cb' HALF_OPEN) func w'
                    (attempt (set_state cb' HALF_OPEN) clk func w')).
    { apply attempt_half_open; [reflexivity|].
      cbn. apply Hct. congruence. }
    destruct Htr as (Hrun & Hret & Hraise).
    split; [exact Hrun|]. split; [exact Hret|].
    intros e He Hcls.
    assert (Hcls' : isinstance e (expected_exception (set_state cb' HALF_OPEN))
                    = true) by (cbn; now rewrite Hexp).
    pose proof (Hraise e He Hcls') as Hst.
    pose proof (attempt_half_open_reopens (set_state cb' HALF_OPEN) clk func
                  w' eq_refl Hst) as Hl.
    split; [exact Hst|]. split; [exact Hl|].
    intros name2 clk2 func2 w2 Hlt.
    apply (breaker_cycle_parts _ (t_fail clk) name2 clk2 func2 w2 Hst Hl).
    rewrite attempt_timeout. cbn. now rewrite Hto.
  - intros name clk func w Hs. unfold wrapper. rewrite Hs.
    apply attempt_half_open; [exact Hs|].
    destruct Hc as (_ & Ht & _). apply Ht. congruence.
Qed.

Lemma breaker_cycle_witness :
  let cb' := fst (run_calls (init 2 30 "ValueError") O
                    [mkCall "f" (mkClock 0 1) always_failing;
                     mkCall "f" (mkClock 2 3) always_failing]) in
  state cb' = OPEN /\
  last_failure_time cb' = Some 3 /\
  wrapper cb' "f" (mkClock 20 21) always_failing 2%nat
  = (Raise (circuit_open_error "f"), cb', 2%nat).
Proof.
  cbn zeta.
  destruct (proj1 (breaker_cycle (init 2 30 "ValueError")
                     (reach_init 2 30 "ValueError"))
              [mkCall "f" (mkClock 0 1) always_failing;
               mkCall "f" (mkClock 2 3) always_failing] O)
    as (Hopen & tl & Hlast & Hpin & Hnext).
  - cbn. lia.
  - repeat constructor; intros w; eexists; split; reflexivity.
  - reflexivity.
  - destruct (Hpin eq_refl eq_refl) as [Htl _]. cbn in Htl.
    injection Htl as <-.
    split; [exact Hopen|]. split; [exact Hlast|].
    apply (Hnext "f" (mkClock 20 21) always_failing 2%nat).
    vm_compute. reflexivity.
Defined.

(** C2 as stated fails for a threshold of 0: no call having failed, the
    breaker is CLOSED, and the next call runs the operation. *)
Lemma zero_threshold_starts_closed :
  let cb := init 0 60 "Exception" in
  let calls : list (@Call nat unit) := [] in
  Z.of_nat (length calls) = failure_threshold cb /\
  state (fst (run_calls cb O calls)) <> OPEN /\
  snd (wrapper (fst (run_calls cb O calls)) "always_failing" (mkClock 0 0)
         always_failing O) = 1%nat.
Proof. cbn. split_and!; [reflexivity|discriminate|reflexivity]. Qed.

Lemma tripped_reachable : @reachable nat unit tripped.
Proof. unfold tripped. apply reach_call. apply reach_init. Qed.

(** C7, as the code has it: the stored state changes only when a call is
    made. A breaker a program can hold whose state is OPEN has a recorded
    last failure; a call less than [recovery_timeout] after it is refused
    and leaves the breaker OPEN; the first call at or after that moves it to
    HALF_OPEN and runs the operation, and the breaker is OPEN afterwards
    only with the failure time renewed by that call. *)
Theorem open_until_next_call {W V : Type} (cb : CircuitBreaker)
    (Hreach : @reachable W V cb) (Hopen : state cb = OPEN) :
  exists tl, last_failure_time cb = Some tl /\
    forall name clk (func : W -> Outcome V * W) w,
      (t_check clk - tl < recovery_timeout cb ->
         wrapper cb name clk func w
         = (Raise (circuit_open_error name), cb, w)) /\
      (recovery_timeout cb <= t_check clk - tl ->
         wrapper cb name clk func w
         = attempt (set_state cb HALF_OPEN) clk func w /\
         (state (snd (fst (wrapper cb name clk func w))) = OPEN ->
          last_failure_time (snd (fst (wrapper cb name clk func w)))
          = Some (t_fail clk))).
Proof.
  destruct (reachable_consistent cb Hreach) as (_ & _ & Hl).
  specialize (Hl Hopen).
  destruct (last_failure_time cb) as [tl|] eqn:Hlast; [|congruence].
  exists tl. split; [reflexivity|].
  intros name clk func w.
  destruct (breaker_cycle_parts cb tl name clk func w Hopen Hlast)
    as [Hfast Htrial].
  split; [exact Hfast|].
  intros Hle. specialize (Htrial Hle). split; [exact Htrial|].
  rewrite Htrial. now apply attempt_half_open_reopens.
Qed.

Lemma open_until_next_call_witness :
  exists tl, last_failure_time tripped = Some tl /\
    forall name clk (func : nat -> Outcome unit * nat) w,
      (t_check clk - tl < recovery_timeout tripped ->
         wrapper tripped name clk func w
         = (Raise (circuit_open_error name), tripped, w)) /\
      (recovery_timeout tripped <= t_check clk - tl ->
         wrapper tripped name clk func w
         = attempt (set_state tripped HALF_OPEN) clk func w /\
         (state (snd (fst (wrapper tripped name clk func w))) = OPEN ->
          last_failure_time (snd (fst (wrapper tripped name clk func w)))
          = Some (t_fail clk))).
Proof.
  exact (open_until_next_call tripped tripped_reachable eq_refl).
Defined.

(** C7 as stated fails: the breaker tripped at time 0 with a timeout of 60
    is still stored as OPEN at time 100, no call having been made. *)
Lemma open_state_outlives_timeout :
  ~ (forall (cb : CircuitBreaker) (now : Q),
       @reachable nat unit cb ->
       (forall tl, last_failure_time cb = Some tl -> tl <= now) ->
       open_only_within_timeout cb now).
Proof.
  intros H.
  assert (Hmono : forall tl, last_failure_time tripped = Some tl -> tl <= 100).
  { intros tl [= <-]. vm_compute. discriminate. }
  destruct (H tripped 100 tripped_reachable Hmono eq_refl) as (tl & Hl & Hlt).
  injection Hl as <-. vm_compute in Hlt. discriminate.
Qed.

End BreakerProps.

(** ** The error recovery manager *)

Module RecoveryProps.
Import Recovery.

(** Marking the event at the end of the history. *)
Lemma mark_last (h : list ErrorContext) (ec : ErrorContext) a s f :
  mark (length h) a (mkManager (h ++ [ec]) s f)
  = mkManager (h ++ [set_recovery_action a ec]) s f.
Proof.
  unfold mark. cbn. f_equal.
  rewrite alter_app_r_alt by lia.
  replace (length h - length h)%nat with O by lia. reflexivity.
Qed.

Lemma final_event_mark (h : list ErrorContext) (ec : ErrorContext) a s f :
  final_event (mark (length h) a (mkManager (h ++ [ec]) s f))
  = Some (set_recovery_action a ec).
Proof.
  unfold final_event, mark. cbn.
  rewrite alter_app_r_alt by lia.
  replace (length h - length h)%nat with O by lia. cbn.
  apply last_snoc.
Qed.

Lemma final_event_mark_twice (h : list ErrorContext) (ec : ErrorContext)
    a b s f :
  final_event (mark (length h) b (mark (length h) a (mkManager (h ++ [ec]) s f)))
  = Some (set_recovery_action b ec).
Proof.
  unfold final_event, mark. cbn.
  rewrite !alter_app_r_alt by lia.
  replace (length h - length h)%nat with O by lia. cbn.
  apply last_snoc.
Qed.

(** Whenever the fallback stage is reached, a registered handler that
    raises, or no handler at all, ends with the original error raised and
    the event marked [no_recovery_available]. *)
Lemma try_fallback_raises (h : list ErrorContext) (ec ec' : ErrorContext)
    s f error operation context :
  match f !! operation with
  | Some handler => exists e, handler error ec' context = Raise e
  | None => True
  end ->
  let r := try_fallback (mkManager (h ++ [ec]) s f) (length h) ec' error
             operation context in
  fst r = Raise error /\
  final_event (snd r) = Some (set_recovery_action "no_recovery_available" ec).
Proof.
  intros H. unfold try_fallback. cbn [fallback_handlers].
  destruct (f !! operation) as [handler|].
  - destruct H as (e & ->). cbn. split; [reflexivity|].
    apply (final_event_mark_twice h ec _ _ s f).
  - cbn. split; [reflexivity|]. apply (final_event_mark h ec _ s f).
Qed.

(** [handle_error] when the registered strategy returns: its value is the
    result, the event is marked, and the fallback is not consulted. *)
Lemma strategy_returns m now error operation component context strategy v :
  recovery_strategies m !! exc_name error = Some strategy ->
  strategy error (new_event now error operation component context) context
  = Return v ->
  handle_error m now error operation component context
  = (Return v,
     mark (length (error_history m)) "recovery_strategy_succeeded"
       (mkManager
          (error_history m
           ++ [new_event now error operation component context])
          (recovery_strategies m) (fallback_handlers m))).
Proof.
  intros Hreg Hret. unfold handle_error. cbn [recovery_strategies].
  rewrite Hreg, Hret. reflexivity.
Qed.

(** [handle_error] when the registered strategy raises: the event is marked
    [recovery_strategy_failed] and the fallback stage follows. *)
Lemma strategy_raises m now error operation component context strategy e :
  recovery_strategies m !! exc_name error = Some strategy ->
  strategy error (new_event now error operation component context) context
  = Raise e ->
  handle_error m now error operation component context
  = try_fallback
      (mark (length (error_history m)) "recovery_strategy_failed"
         (mkManager
            (error_history m
             ++ [new_event now error operation component context])
            (recovery_strategies m) (fallback_handlers m)))
      (length (error_history m))
      (set_recovery_action "recovery_strategy_failed"
         (new_event now error operation component context))
      error operation context.
Proof.
  intros Hreg Hraise. unfold handle_error. cbn [recovery_strategies].
  rewrite Hreg, Hraise. reflexivity.
Qed.



(** What the fallback stage leaves: a registered handler that returns gives
    its value, with the event marked [fallback_succeeded]; in every other
    case the original error is raised and the event ends as
    [no_recovery_available]. *)
Lemma try_fallback_outcome (h : list ErrorContext) (ec ec' : ErrorContext)
    s f error operation context :
  let r := try_fallback (mkManager (h ++ [ec]) s f) (length h) ec' error
             operation context in
  (exists handler v,
     f !! operation = Some handler /\
     handler error ec' context = Return v /\
     fst r = Return v /\
     final_event (snd r) = Some (set_recovery_action "fallback_succeeded" ec))
  \/
  (match f !! operation with
   | Some handler => raised (handler error ec' context) = true
   | None => True
   end /\
   fst r = Raise error /\
   final_event (snd r)
   = Some (set_recovery_action "no_recovery_available" ec)).
Proof.
  cbn zeta. unfold try_fallback. cbn [fallback_handlers].
  destruct (f !! operation) as [handler|] eqn:Hf.
  - destruct (handler error ec' context) as [v|e] eqn:Hh.
    + left. exists handler, v. split_and!; try reflexivity; try assumption.
      apply (final_event_mark h ec _ s f).
    + right. split_and!; try reflexivity.
      apply (final_event_mark_twice h ec _ _ s f).
  - right. split_and!; try reflexivity. apply (final_event_mark h ec _ s f).
Qed.


(** The same for every manager: once the fallback stage finds a handler
    that raises, [fallback_failed] never survives on the event. *)
Lemma fallback_failed_never_final (h : list ErrorContext)
    (ec ec' : ErrorContext) s f error operation context handler e :
  f !! operation = Some handler ->
  handler error ec' context = Raise e ->
  recovery_action <$>
    final_event (snd (try_fallback (mkManager (h ++ [ec]) s f) (length h)
                        ec' error operation context))
  = Some (Some "no_recovery_available").
Proof.
  intros Hf Hr.
  destruct (try_fallback_raises h ec ec' s f error operation context)
    as [_ H]; [rewrite Hf; eauto|].
  rewrite H. reflexivity.
Qed.





Lemma default_strategy_returns_none generated_at (error : Exn) ec context :
  In (exc_name error) ["ConnectionError"; "HTTPError"; "Timeout"] ->
  exists strategy,
    recovery_strategies (error_recovery generated_at) !! exc_name error
    = Some strategy /\
    (context_binds context -> strategy error ec context = Return VNone) /\
    (~ context_binds context ->
     exists msg, strategy error ec context = Raise (TypeError msg)).
Proof.
  assert (Hsig : forall fname,
            (context_binds context ->
             with_signature fname (fun _ _ _ => Return VNone) error ec context
             = Return VNone) /\
            (~ context_binds context ->
             exists msg,
               with_signature fname (fun _ _ _ => Return VNone) error ec
                 context = Raise (TypeError msg))).
  { intros fname. unfold with_signature, bind_arguments, context_binds.
    destruct (context !! "error"), (context !! "context"); split;
      intros H; try (destruct H; discriminate); try reflexivity; eauto.
    exfalso. apply H. auto. }
  intros Hin. cbn in Hin. destruct Hin as [<-|[<-|[<-|[]]]].
  - exists gitlab_connection_recovery. split; [reflexivity|apply Hsig].
  - exists rate_limit_recovery. split; [reflexivity|apply Hsig].
  - exists ollama_connection_recovery. split; [reflexivity|apply Hsig].
Qed.

(** C10: [handle_error] never inspects what a strategy returns. Whatever
    value the registered strategy returns, [None] included, is the result,
    the event is marked [recovery_strategy_succeeded] and the fallback is
    not consulted; a strategy that raises is never marked so. Each default
    strategy returns [None] once its arguments are bound, so with the
    default registrations and a keyword context holding neither [error]
    nor [context], a [ConnectionError], [HTTPError] or [Timeout] makes
    [handle_error] return [None], even for the operation that has a
    fallback. *)
Theorem none_is_a_recovered_result :
  (forall m now error operation component context strategy v,
     recovery_strategies m !! exc_name error = Some strategy ->
     strategy error (new_event now error operation component context) context
     = Return v ->
     let r := handle_error m now error operation component context in
     fst r = Return v /\
     final_event (snd r)
     = Some (set_recovery_action "recovery_strategy_succeeded"
               (new_event now error operation component context))) /\
  (forall m now error operation component context strategy e,
     recovery_strategies m !! exc_name error = Some strategy ->
     strategy error (new_event now error operation component context) context
     = Raise e ->
     let r := handle_error m now error operation component context in
     recovery_action <$> final_event (snd r)
     <> Some (Some "recovery_strategy_succeeded")) /\
  (forall generated_at now error component context,
     In (exc_name error) ["ConnectionError"; "HTTPError"; "Timeout"] ->
     context_binds context ->
     let r := handle_error (error_recovery generated_at) now error
                "review_generation" component context in
     fallback_handlers (error_recovery generated_at) !! "review_generation"
     <> None /\
     fst r = Return VNone /\
     final_event (snd r)
     = Some (set_recovery_action "recovery_strategy_succeeded"
               (new_event now error "review_generation" component context))).
Proof.
  assert (Hgen : forall m now error operation component context strategy v,
     recovery_strategies m !! exc_name error = Some strategy ->
     strategy error (new_event now error operation component context) context
     = Return v ->
     let r := handle_error m now error operation component context in
     fst r = Return v /\
     final_event (snd r)
     = Some (set_recovery_action "recovery_strategy_succeeded"
               (new_event now error operation component context))).
  { intros m now error operation component context strategy v Hreg Hret.
    cbn zeta. rewrite (strategy_returns _ _ _ _ _ _ _ _ Hreg Hret).
    split; [reflexivity|]. cbn [snd]. apply final_event_mark. }
  split; [exact Hgen|]. split.
  - intros m now error operation component context strategy e Hreg Hraise.
    cbn zeta. rewrite (strategy_raises _ _ _ _ _ _ _ _ Hreg Hraise), mark_last.
    destruct (try_fallback_outcome (error_history m)
                (set_recovery_action "recovery_strategy_failed"
                   (new_event now error operation component context))
                (set_recovery_action "recovery_strategy_failed"
                   (new_event now error operation component context))
                (recovery_strategies m) (fallback_handlers m)
                error operation context)
      as [(h' & v & _ & _ & _ & ->)|(_ & _ & ->)]; discriminate.
  - intros generated_at now error component context Hin Hbinds. cbn zeta.
    split; [discriminate|].
    destruct (default_strategy_returns_none generated_at error
                (new_event now error "review_generation" component context)
                context Hin) as (strategy & Hreg & Hnone & _).
    exact (Hgen _ now error "review_generation" component context strategy
             VNone Hreg (Hnone Hbinds)).
Qed.

Lemma none_is_a_recovered_result_witness :
  fst (handle_error (error_recovery "2024-01-01T00:00:00")
         "2024-01-01T00:00:00" (ConnectionError "Connection failed")
         "review_generation" "gitlab_client" ∅)
  = Return VNone.
Proof.
  apply (proj2 (proj2 none_is_a_recovered_result) "2024-01-01T00:00:00"
           "2024-01-01T00:00:00" (ConnectionError "Connection failed")
           "gitlab_client" ∅).
  - cbn. auto.
  - split; apply lookup_empty.
Defined.

(** A keyword named [context] cannot be bound: the default strategy raises
    [TypeError], the fallback of [review_generation] too, and the call
    ends with the original error raised. *)
Lemma colliding_keyword_is_not_recovered :
  let r := handle_error (error_recovery "2024-01-01T00:00:00")
             "2024-01-01T00:00:00" (ConnectionError "Connection failed")
             "review_generation" "gitlab_client"
             (<["context" := VStr "foo"]> ∅) in
  fst r = Raise (ConnectionError "Connection failed") /\
  recovery_action <$> final_event (snd r)
  = Some (Some "no_recovery_available").
Proof. vm_compute. split; reflexivity. Qed.

End RecoveryProps.

(** ** The batch coordinator *)

Module BatchProps.
Import Batch.

Local Open Scope list_scope.

Section Dispatch.
Context {Changes S : Type}.
Implicit Types (self : BatchProcessor Changes S) (mr : MergeRequest).

Lemma same_collaborators_refl self : same_collaborators self self.
Proof. repeat split. Qed.

Lemma same_collaborators_trans self1 self2 self3 :
  same_collaborators self1 self2 -> same_collaborators self2 self3 ->
  same_collaborators self1 self3.
Proof.
  intros (? & ? & ? & ?) (? & ? & ? & ?). repeat split; congruence.
Qed.

Lemma process_single_mr_ext self self' clock mr review_type post_review :
  same_collaborators self self' ->
  _process_single_mr self' clock mr review_type post_review
  = _process_single_mr self clock mr review_type post_review.
Proof.
  intros (Hc & Ha & Hg & _).
  unfold _process_single_mr, single_mr_pipeline.
  rewrite Hc, Ha, Hg. reflexivity.
Qed.

Lemma never_raises_ext self self' :
  same_collaborators self self' ->
  callback_never_raises self -> callback_never_raises self'.
Proof.
  intros (_ & _ & _ & Hp). unfold callback_never_raises. now rewrite Hp.
Qed.

(** A callback that does not raise leaves everything but its own state. *)
Lemma update_progress_ok self current total message :
  callback_never_raises self ->
  exists self',
    _update_progress self current total message = (Return tt, self') /\
    same_collaborators self self' /\
    results self' = results self /\ slept self' = slept self.
Proof.
  unfold callback_never_raises, _update_progress.
  destruct (progress_callback self) as [callback|] eqn:Hp.
  - intros H. specialize (H (callback_state self) current total message).
    destruct (callback (callback_state self) current total message)
      as [o s']. cbn in H. subst o.
    eexists. split; [reflexivity|]. repeat split; cbn; congruence.
  - intros _. exists self. repeat split; congruence.
Qed.

Lemma append_result_same self r :
  same_collaborators self (append_result self r).
Proof. repeat split. Qed.

Lemma sleep_same self d : same_collaborators self (sleep self d).
Proof. repeat split. Qed.

(** The sequential loop, with a worker that returns and a callback that
    does not raise: one result per unit, in order. *)
Lemma sequential_loop_ok (f : MergeRequest -> BatchResult)
    (total_mrs : nat) (delay : Q) (mrs : list MergeRequest) :
  forall i self,
    callback_never_raises self ->
    exists self',
      sequential_loop (fun mr => Return (f mr)) total_mrs delay i mrs self
      = (Return tt, self') /\
      same_collaborators self self' /\
      results self' = results self ++ List.map f mrs.
Proof.
  induction mrs as [|mr rest IH]; intros i self Hcb.
  - exists self. cbn. rewrite app_nil_r.
    split; [reflexivity|]. split; [apply same_collaborators_refl|reflexivity].
  - cbn [sequential_loop].
    destruct (update_progress_ok self (i - 1) total_mrs
                (String.append "Processing MR #" (pretty (iid mr))) Hcb)
      as (self1 & -> & Hsame1 & Hres1 & _).
    set (self2 := append_result self1 (f mr)).
    set (self3 := if (Nat.ltb i total_mrs && negb (Qle_bool delay 0))%bool
                  then sleep self2 delay else self2).
    assert (Hsame3 : same_collaborators self self3).
    { apply same_collaborators_trans with self1; [exact Hsame1|].
      apply same_collaborators_trans with self2;
        [apply append_result_same|].
      unfold self3.
      destruct (Nat.ltb i total_mrs && negb (Qle_bool delay 0))%bool;
        [apply sleep_same|apply same_collaborators_refl]. }
    assert (Hres3 : results self3 = results self ++ [f mr]).
    { unfold self3, self2.
      destruct (Nat.ltb i total_mrs && negb (Qle_bool delay 0))%bool;
        cbn; now rewrite Hres1. }
    destruct (IH (Datatypes.S i) self3 (never_raises_ext _ _ Hsame3 Hcb))
      as (self' & Heq & Hsame' & Hres').
    exists self'. split; [exact Heq|].
    split; [now apply same_collaborators_trans with self3|].
    rewrite Hres', Hres3, <- app_assoc. reflexivity.
Qed.

Lemma parallel_loop_ok (worker : MergeRequest -> Outcome BatchResult)
    (clock : RunClock) (review_type : string) (total_mrs : nat)
    (delay : Q) (completion : list MergeRequest) :
  forall completed self,
    callback_never_raises self ->
    let self' := parallel_loop worker clock review_type total_mrs delay
                   completed completion self in
    same_collaborators self self' /\
    results self'
    = results self ++ List.map (settled worker clock review_type) completion.
Proof.
  induction completion as [|mr rest IH]; intros completed self Hcb.
  - cbn. rewrite app_nil_r. split; [apply same_collaborators_refl|reflexivity].
  - cbn [parallel_loop]. cbn zeta.
    set (msg := String.append "Completed MR #" _).
    set (self1 :=
           match worker mr with
           | Return result =>
               match _update_progress (append_result self result)
                       (Datatypes.S completed) total_mrs msg with
               | (Return _, self0) => self0
               | (Raise e, self0) =>
                   append_result self0 (error_result clock mr review_type e)
               end
           | Raise e =>
               append_result self (error_result clock mr review_type e)
           end).
    assert (H1 : same_collaborators self self1 /\
                 results self1
                 = results self ++ [settled worker clock review_type mr]).
    { unfold self1, settled. destruct (worker mr) as [r|e].
      - assert (Hcb' : callback_never_raises (append_result self r))
          by (eapply never_raises_ext; [apply append_result_same|exact Hcb]).
        destruct (update_progress_ok (append_result self r)
                    (Datatypes.S completed) total_mrs msg Hcb')
          as (self0 & -> & Hsame0 & Hres0 & _).
        split.
        + eapply same_collaborators_trans; [apply append_result_same|].
          exact Hsame0.
        + rewrite Hres0. reflexivity.
      - split; [apply append_result_same|reflexivity]. }
    destruct H1 as [Hsame1 Hres1].
    set (self2 := if negb (Qle_bool delay 0) then sleep self1 delay
                  else self1).
    assert (Hsame2 : same_collaborators self self2).
    { apply same_collaborators_trans with self1; [exact Hsame1|].
      unfold self2. destruct (negb (Qle_bool delay 0));
        [apply sleep_same|apply same_collaborators_refl]. }
    assert (Hres2 : results self2 = results self1)
      by (unfold self2; destruct (negb (Qle_bool delay 0)); reflexivity).
    destruct (IH (Datatypes.S completed) self2
                (never_raises_ext _ _ Hsame2 Hcb)) as [Hsame' Hres'].
    split; [now apply same_collaborators_trans with self2|].
    rewrite Hres', Hres2, Hres1, <- app_assoc. reflexivity.
Qed.

Lemma get_mrs_set_results self rs project_path mr_state max_reviews filters :
  _get_mrs_to_process (set_results self rs) project_path mr_state
    max_reviews filters
  = _get_mrs_to_process self project_path mr_state max_reviews filters.
Proof. reflexivity. Qed.

(** A run whose callback does not raise: the summary is computed from one
    result per unit, taken in dispatch order, and no error is recorded. *)
Lemma process_project_mrs_results self clock schedule project_path
    review_type mr_state max_reviews post_reviews parallel_workers delay
    filters :
  callback_never_raises self ->
  let mrs := _get_mrs_to_process self project_path mr_state max_reviews
               filters in
  let f := fun mr => _process_single_mr self clock mr review_type
                       post_reviews in
  let r := process_project_mrs self clock schedule project_path review_type
             mr_state max_reviews post_reviews parallel_workers delay
             filters in
  mrs <> [] ->
  fst r = summarize (snd r) clock project_path review_type [] /\
  results (snd r)
  = List.map f (if (1 <? parallel_workers)%Z then schedule mrs else mrs).
Proof.
  intros Hcb mrs f r Hne. subst r. unfold process_project_mrs.
  rewrite get_mrs_set_results. fold mrs.
  destruct (Nat.eqb (length mrs) 0) eqn:Hlen.
  { apply Nat.eqb_eq in Hlen. destruct mrs; [congruence|discriminate]. }
  set (self0 := set_results self []).
  assert (Hsame0 : same_collaborators self self0) by (repeat split).
  assert (Hcb0 : callback_never_raises self0)
    by (apply (never_raises_ext self self0); assumption).
  destruct (update_progress_ok self0 0 (length mrs)
              "Starting batch processing..." Hcb0)
    as (self1 & -> & Hsame1 & Hres1 & _).
  assert (Hsame01 : same_collaborators self self1)
    by (apply same_collaborators_trans with self0; assumption).
  assert (Hcb1 : callback_never_raises self1)
    by (apply (never_raises_ext self self1); assumption).
  assert (Hf : forall l,
            List.map (fun mr => _process_single_mr self1 clock mr
                                  review_type post_reviews) l
            = List.map f l).
  { intros l. apply map_ext. intros mr. now apply process_single_mr_ext. }
  destruct (1 <? parallel_workers)%Z.
  - unfold _process_parallel, parallel_with.
    destruct (parallel_loop_ok
                (fun mr => Return (_process_single_mr self1 clock mr
                                     review_type post_reviews))
                clock review_type (length mrs) delay (schedule mrs) 0
                self1 Hcb1) as [Hsame2 Hres2].
    set (self2 := parallel_loop _ clock review_type (length mrs) delay 0
                    (schedule mrs) self1) in *.
    destruct (update_progress_ok self2 (length mrs) (length mrs)
                "Parallel processing completed"
                (never_raises_ext _ _ Hsame2 Hcb1))
      as (self3 & -> & _ & Hres3 & _).
    cbn [fst snd]. split; [reflexivity|].
    rewrite Hres3, Hres2, Hres1. cbn [results set_results self0 app].
    unfold settled. apply Hf.
  - unfold _process_sequential, sequential_with.
    destruct (sequential_loop_ok
                (fun mr => _process_single_mr self1 clock mr review_type
                             post_reviews)
                (length mrs) delay mrs 1%nat self1 Hcb1)
      as (self2 & -> & Hsame2 & Hres2).
    destruct (update_progress_ok self2 (length mrs) (length mrs)
                "Batch processing completed"
                (never_raises_ext _ _ Hsame2 Hcb1))
      as (self3 & -> & _ & Hres3 & _).
    cbn [fst snd]. split; [reflexivity|].
    rewrite Hres3, Hres2, Hres1. cbn [results set_results self0 app].
    apply Hf.
Qed.

(** With no unit to process the zeroed summary is returned at once. *)
Lemma process_project_mrs_empty self clock schedule project_path
    review_type mr_state max_reviews post_reviews parallel_workers delay
    filters :
  _get_mrs_to_process self project_path mr_state max_reviews filters = [] ->
  process_project_mrs self clock schedule project_path review_type
    mr_state max_reviews post_reviews parallel_workers delay filters
  = (_create_empty_summary clock project_path review_type,
     set_results self []).
Proof.
  intros Hnil. unfold process_project_mrs.
  rewrite get_mrs_set_results, Hnil. reflexivity.
Qed.

Lemma count_if_le {A} (p : A -> bool) (l : list A) :
  (count_if p l <= length l)%nat.
Proof. unfold count_if. apply List.filter_length_le. Qed.

Lemma count_if_negb {A} (p : A -> bool) (l : list A) :
  (length l - count_if p l)%nat = count_if (fun x => negb (p x)) l.
Proof.
  unfold count_if. induction l as [|x l IH]; [reflexivity|].
  cbn [List.filter length].
  pose proof (List.filter_length_le p l).
  destruct (p x); cbn [negb length]; lia.
Qed.

Lemma Forall2_map_of {A B} (f : A -> B) (P : A -> B -> Prop) (l : list A) :
  (forall x, In x l -> P x (f x)) -> Forall2 P l (List.map f l).
Proof.
  induction l as [|x l IH]; intros H; cbn; constructor.
  - apply H. now left.
  - apply IH. intros y Hy. apply H. now right.
Qed.

(** The result of [_process_single_mr] carries the [iid] of its unit, and
    is a failed one exactly when a stage of the pipeline raised. *)
Lemma single_mr_unit self clock mr review_type post_review :
  let r := _process_single_mr self clock mr review_type post_review in
  mr_iid r = iid mr /\
  (success r = false
   <-> raised (single_mr_pipeline self clock mr review_type post_review)
       = true).
Proof.
  cbn zeta. unfold _process_single_mr.
  destruct (single_mr_pipeline self clock mr review_type post_review)
    as [r|e] eqn:Hp; cbn; [|split; [reflexivity|tauto]].
  unfold single_mr_pipeline, bind in Hp.
  repeat match type of Hp with
         | match ?x with _ => _ end = _ =>
             destruct x; try discriminate
         end.
  injection Hp as <-. cbn. split; [reflexivity|]. split; discriminate.
Qed.

(** [process_project_mrs], by its stages. *)
Lemma process_project_mrs_dispatch self clock schedule project_path
    review_type mr_state max_reviews post_reviews parallel_workers delay
    filters :
  let mrs := _get_mrs_to_process self project_path mr_state max_reviews
               filters in
  let d := dispatch (set_results self []) clock schedule mrs review_type
             post_reviews parallel_workers delay in
  process_project_mrs self clock schedule project_path review_type
    mr_state max_reviews post_reviews parallel_workers delay filters
  = match mrs with
    | [] => (_create_empty_summary clock project_path review_type,
             set_results self [])
    | _ =>
        (summarize (snd d) clock project_path review_type
           match fst d with
           | Raise e => [String.append "Batch processing failed: " (exc_msg e)]
           | Return _ => []
           end,
         snd d)
    end.
Proof.
  cbn zeta. unfold process_project_mrs, dispatch.
  rewrite get_mrs_set_results.
  destruct (_get_mrs_to_process self project_path mr_state max_reviews
              filters) as [|mr rest]; [reflexivity|].
  cbn [length Nat.eqb].
  destruct (_update_progress (set_results self []) 0
              (Datatypes.S (length rest)) "Starting batch processing...")
    as [[u|e] self1]; [|reflexivity].
  destruct (1 <? parallel_workers)%Z.
  - destruct (_process_parallel self1 clock (mr :: rest) review_type
                post_reviews parallel_workers delay (schedule (mr :: rest)))
      as [o self2]. reflexivity.
  - destruct (_process_sequential self1 clock (mr :: rest) review_type
                post_reviews delay) as [o self2]. reflexivity.
Qed.

Lemma count_if_perm {A} (p : A -> bool) (l l' : list A) :
  Permutation l l' -> count_if p l = count_if p l'.
Proof.
  intros H. unfold count_if. apply Permutation_length.
  induction H; cbn.
  - constructor.
  - destruct (p x); [now constructor|assumption].
  - destruct (p x), (p y); try reflexivity; now constructor.
  - etransitivity; eassumption.
Qed.
End Dispatch.

(** C1: in a run whose progress callback does not raise, whatever the
    number of workers, the summary counts one result per enumerated unit:
    [total_mrs] is the number of units, [successful_reviews +
    failed_reviews = total_mrs], [failed_reviews] counts the failed
    records, and the records are, unit by unit in dispatch order, the
    result of that unit, carrying its [iid]. In parallel dispatch this
    holds for any worker: the record of a unit is what its worker returned
    or, when the worker raised, a failed record made for that unit, with
    its [iid], its project path, the text of the exception and no review
    posted. *)
Theorem one_result_per_unit {Changes S : Type}
    (self : BatchProcessor Changes S) clock schedule project_path
    review_type mr_state max_reviews post_reviews parallel_workers delay
    filters
    (Hcb : callback_never_raises self)
    (Hsched : forall l, Permutation (schedule l) l) :
  let mrs := _get_mrs_to_process self project_path mr_state max_reviews
               filters in
  let run :=
    process_project_mrs self clock schedule project_path review_type
      mr_state max_reviews post_reviews parallel_workers delay filters in
  let summary := fst run in
  let order := if (1 <? parallel_workers)%Z then schedule mrs else mrs in
  total_mrs summary = length mrs /\
  (successful_reviews summary + failed_reviews summary)%nat
  = total_mrs summary /\
  failed_reviews summary
  = count_if (fun r => negb (success r)) (results (snd run)) /\
  errors summary = [] /\
  Permutation order mrs /\
  Forall2
    (fun mr r =>
       r = _process_single_mr self clock mr review_type post_reviews /\
       mr_iid r = iid mr)
    order (results (snd run)) /\
  (forall worker completion,
     Permutation completion mrs ->
     exists recorded,
       results (snd (parallel_with worker clock self mrs review_type
                       delay completion))
       = results self ++ recorded /\
       length recorded = length mrs /\
       Forall2
         (fun mr r =>
            match worker mr with
            | Return result => r = result
            | Raise e =>
                mr_iid r = iid mr /\
                r_project_path r = default "" (Batch.project_path mr) /\
                success r = false /\
                error r = Some (exc_msg e) /\
                r_review_type r = review_type /\
                review_posted r = false
            end)
         completion recorded).
Proof.
  cbn zeta.
  remember (_get_mrs_to_process self project_path mr_state max_reviews
              filters) as mrs eqn:Emrs.
  set (order := if (1 <? parallel_workers)%Z then schedule mrs else mrs).
  assert (Hpar : forall worker completion,
     Permutation completion mrs ->
     exists recorded,
       results (snd (parallel_with worker clock self mrs review_type
                       delay completion))
       = results self ++ recorded /\
       length recorded = length mrs /\
       Forall2
         (fun mr r =>
            match worker mr with
            | Return result => r = result
            | Raise e =>
                mr_iid r = iid mr /\
                r_project_path r = default "" (Batch.project_path mr) /\
                success r = false /\
                error r = Some (exc_msg e) /\
                r_review_type r = review_type /\
                review_posted r = false
            end)
         completion recorded).
  { intros worker completion Hperm. unfold parallel_with.
    destruct (parallel_loop_ok worker clock review_type (length mrs) delay
                completion 0 self Hcb) as [Hsame Hres].
    destruct (update_progress_ok _ (length mrs) (length mrs)
                "Parallel processing completed"
                (never_raises_ext _ _ Hsame Hcb))
      as (self' & -> & _ & Hres' & _).
    cbn [snd]. rewrite Hres', Hres.
    exists (List.map (settled worker clock review_type) completion).
    split; [reflexivity|]. split.
    - rewrite length_map. now apply Permutation_length.
    - apply Forall2_map_of. intros mr _. unfold settled, error_result.
      destruct (worker mr); cbn; auto 7. }
  assert (Horder : Permutation order mrs).
  { unfold order. destruct (1 <? parallel_workers)%Z;
      [apply Hsched|reflexivity]. }
  destruct mrs as [|mr rest].
  - rewrite (process_project_mrs_empty self clock schedule project_path
               review_type mr_state max_reviews post_reviews parallel_workers
               delay filters (eq_sym Emrs)).
    symmetry in Horder. apply Permutation_nil in Horder. rewrite Horder.
    split_and!; try reflexivity; try apply Forall2_nil; try exact Hpar;
      try exact I.
  - assert (Hne : _get_mrs_to_process self project_path mr_state max_reviews
                    filters <> []) by (rewrite <- Emrs; discriminate).
    destruct (process_project_mrs_results self clock schedule project_path
                review_type mr_state max_reviews post_reviews parallel_workers
                delay filters Hcb Hne) as [Hsum Hres].
    rewrite <- Emrs in Hres. fold order in Hres.
    rewrite Hsum. cbn [total_mrs successful_reviews
      failed_reviews errors summarize].
    rewrite Hres.
    set (f := fun mr0 => _process_single_mr self clock mr0 review_type
                           post_reviews).
    assert (Hlen : length (List.map f order) = length (mr :: rest))
      by (rewrite length_map; now apply Permutation_length).
    pose proof (count_if_le success (List.map f order)).
    split_and!; try reflexivity; try assumption.
    + lia.
    + apply count_if_negb.
    + apply Forall2_map_of. intros mr0 _. split; [reflexivity|].
      apply (single_mr_unit self clock mr0 review_type post_reviews).
Qed.

Lemma one_result_per_unit_witness :
  total_mrs
    (fst (process_project_mrs
            (sample_processor [sample_mr 1; sample_mr 2; sample_mr 3])
            sample_clock (@rev MergeRequest) "group/project" "general"
            "opened" 10 false 3 1 None))
  = 3%nat.
Proof.
  apply (one_result_per_unit
           (sample_processor [sample_mr 1; sample_mr 2; sample_mr 3])
           sample_clock (@rev MergeRequest) "group/project" "general"
           "opened" 10 false 3 1 None).
  - exact I.
  - intros l. symmetry. apply Permutation_rev.
Defined.

(** C9, as the code has it: when the progress callback does not raise (or
    none is set), sequential dispatch (at most one worker) and parallel
    dispatch (more than one worker, in any completion order) of the same
    run give the same [total_mrs], [successful_reviews] and
    [failed_reviews]. *)
Theorem dispatch_modes_agree {Changes S : Type}
    (self : BatchProcessor Changes S) clock schedule project_path
    review_type mr_state max_reviews post_reviews delay filters
    (sequential_workers parallel_workers : Z)
    (Hcb : callback_never_raises self)
    (Hsched : forall l, Permutation (schedule l) l)
    (Hseq : (sequential_workers <= 1)%Z) (Hpar : (1 < parallel_workers)%Z) :
  let run := fun workers =>
    fst (process_project_mrs self clock schedule project_path review_type
           mr_state max_reviews post_reviews workers delay filters) in
  total_mrs (run sequential_workers) = total_mrs (run parallel_workers) /\
  successful_reviews (run sequential_workers)
  = successful_reviews (run parallel_workers) /\
  failed_reviews (run sequential_workers)
  = failed_reviews (run parallel_workers).
Proof.
  intros run. subst run. cbn beta.
  destruct (_get_mrs_to_process self project_path mr_state max_reviews
              filters) as [|mr rest] eqn:Hmrs.
  - rewrite !(process_project_mrs_empty self clock schedule project_path
                review_type mr_state max_reviews post_reviews _ delay filters
                Hmrs).
    repeat split.
  - assert (Hne : _get_mrs_to_process self project_path mr_state max_reviews
                    filters <> []) by (rewrite Hmrs; discriminate).
    destruct (process_project_mrs_results self clock schedule project_path
                review_type mr_state max_reviews post_reviews
                sequential_workers delay filters Hcb Hne) as [Hsum1 Hres1].
    destruct (process_project_mrs_results self clock schedule project_path
                review_type mr_state max_reviews post_reviews
                parallel_workers delay filters Hcb Hne) as [Hsum2 Hres2].
    rewrite Hsum1, Hsum2.
    cbn [total_mrs successful_reviews failed_reviews summarize].
    rewrite Hres1, Hres2, Hmrs.
    replace (1 <? sequential_workers)%Z with false by (symmetry; lia).
    replace (1 <? parallel_workers)%Z with true by (symmetry; lia).
    set (f := fun mr0 => _process_single_mr self clock mr0 review_type
                           post_reviews).
    assert (Hperm : Permutation (List.map f (mr :: rest))
                      (List.map f (schedule (mr :: rest))))
      by (apply Permutation_map; symmetry; apply Hsched).
    rewrite (Permutation_length Hperm), (count_if_perm success _ _ Hperm).
    repeat split.
Qed.

Lemma dispatch_modes_agree_witness :
  successful_reviews
    (fst (process_project_mrs
            (sample_processor [sample_mr 1; sample_mr 2; sample_mr 3])
            sample_clock (@rev MergeRequest) "group/project" "general"
            "opened" 10 false 1 1 None))
  = successful_reviews
      (fst (process_project_mrs
              (sample_processor [sample_mr 1; sample_mr 2; sample_mr 3])
              sample_clock (@rev MergeRequest) "group/project" "general"
              "opened" 10 false 3 1 None)).
Proof.
  apply (dispatch_modes_agree
           (sample_processor [sample_mr 1; sample_mr 2; sample_mr 3])
           sample_clock (@rev MergeRequest) "group/project" "general"
           "opened" 10 false 1 None 1 3).
  - exact I.
  - intros l. symmetry. apply Permutation_rev.
  - lia.
  - lia.
Defined.

(** C9 as stated fails when the callback raises: with one unit whose
    pipeline succeeds and a callback that raises once a unit is reported
    done, sequential dispatch counts 1 unit (1 successful, 0 failed) and
    parallel dispatch 2 (1 successful, 1 failed). *)
Lemma dispatch_modes_differ_when_callback_raises :
  let self := set_progress_callback (sample_processor [sample_mr 1])
                raise_when_done in
  let run := fun workers =>
    fst (process_project_mrs self sample_clock (fun l => l) "group/project"
           "general" "opened" 10 false workers 0 None) in
  (total_mrs (run 1), successful_reviews (run 1), failed_reviews (run 1))
  = (1, 1, 0)%nat /\
  (total_mrs (run 3), successful_reviews (run 3), failed_reviews (run 3))
  = (2, 1, 1)%nat /\
  total_mrs (run 1) <> total_mrs (run 3).
Proof. vm_compute. repeat split. discriminate. Qed.

(** Every run returns a summary that counts the results collected so far,
    with at most one run-level error string. *)
Lemma summary_counts_collected_results {Changes S : Type}
    (self : BatchProcessor Changes S) clock schedule project_path
    review_type mr_state max_reviews post_reviews parallel_workers delay
    filters :
  let r := process_project_mrs self clock schedule project_path review_type
             mr_state max_reviews post_reviews parallel_workers delay
             filters in
  total_mrs (fst r) = length (results (snd r)) /\
  (errors (fst r) = [] \/
   exists e, errors (fst r)
             = [String.append "Batch processing failed: " (exc_msg e)]).
Proof.
  cbn zeta. unfold process_project_mrs.
  destruct (Nat.eqb _ 0); [cbn; auto|].
  match goal with
  | |- context [let '(o, self0) := ?x in _] => destruct x as [o self']
  end.
  cbn. split; [reflexivity|]. destruct o; eauto.
Qed.

(** C3, as the code has it: when the listing raises, or the filtering of
    what it listed, [_get_mrs_to_process] catches the exception and gives
    no unit, and the run returns the zeroed summary, with zero units and no
    error recorded. Every run returns a summary that counts the results
    collected so far. A run-level error string is recorded exactly when an
    exception escapes the dispatch stage: the summary then holds the one
    string made of that exception, and counts the results the dispatch had
    collected when it was raised. *)
Theorem listing_failure_gives_empty_summary {Changes S : Type}
    (self : BatchProcessor Changes S) clock schedule project_path
    review_type mr_state max_reviews post_reviews parallel_workers delay
    filters :
  let listing := get_project_merge_requests (gitlab_client self)
                   project_path mr_state (Z.min (max_reviews * 2) 100) in
  let mrs := _get_mrs_to_process self project_path mr_state max_reviews
               filters in
  let d := dispatch (set_results self []) clock schedule mrs review_type
             post_reviews parallel_workers delay in
  let r := process_project_mrs self clock schedule project_path review_type
             mr_state max_reviews post_reviews parallel_workers delay
             filters in
  (forall e, listing = Raise e ->
     r = (_create_empty_summary clock project_path review_type,
          set_results self []) /\
     total_mrs (fst r) = 0%nat /\ errors (fst r) = [] /\
     results (snd r) = []) /\
  (forall listed f e,
     listing = Return listed -> filters = Some f ->
     _apply_filters listed f = Raise e ->
     r = (_create_empty_summary clock project_path review_type,
          set_results self []) /\
     total_mrs (fst r) = 0%nat /\ errors (fst r) = [] /\
     results (snd r) = []) /\
  total_mrs (fst r) = length (results (snd r)) /\
  (mrs = [] -> errors (fst r) = []) /\
  (mrs <> [] ->
     results (snd r) = results (snd d) /\
     (fst d = Return tt -> errors (fst r) = []) /\
     (forall e, fst d = Raise e ->
        errors (fst r)
        = [String.append "Batch processing failed: " (exc_msg e)])).
Proof.
  intros listing mrs d r.
  assert (Hempty : mrs = [] ->
            r = (_create_empty_summary clock project_path review_type,
                 set_results self []) /\
            total_mrs (fst r) = 0%nat /\ errors (fst r) = [] /\
            results (snd r) = []).
  { intros Hnil. subst r.
    rewrite (process_project_mrs_empty self clock schedule project_path
               review_type mr_state max_reviews post_reviews parallel_workers
               delay filters Hnil).
    repeat split. }
  split_and!.
  - intros e Hlist. apply Hempty. subst mrs listing.
    unfold _get_mrs_to_process. now rewrite Hlist.
  - intros listed f e Hlist Hf Hraise. apply Hempty. subst mrs listing.
    unfold _get_mrs_to_process. now rewrite Hlist, Hf, Hraise.
  - apply summary_counts_collected_results.
  - intros Hnil. now apply Hempty.
  - intros Hne. subst r.
    rewrite (process_project_mrs_dispatch self clock schedule project_path
               review_type mr_state max_reviews post_reviews parallel_workers
               delay filters).
    fold mrs. fold d. destruct mrs as [|mr rest]; [congruence|].
    cbn [fst snd errors summarize].
    split_and!; [reflexivity| |].
    + intros ->. reflexivity.
    + intros e ->. reflexivity.
Qed.

Lemma listing_failure_gives_empty_summary_witness :
  errors
    (fst (process_project_mrs
            (new_processor unreachable_client sample_analyzer
               sample_generator tt)
            sample_clock (fun l => l) "group/project" "general" "opened"
            10 false 3 1 None))
  = [] /\
  total_mrs
    (fst (process_project_mrs
            (sample_processor [sample_mr 1; plain_label_mr 2])
            sample_clock (fun l => l) "group/project" "general" "opened"
            10 false 3 1
            (Some (mkFilters None (Some ["enhancement"]) None None))))
  = 0%nat.
Proof.
  split.
  - apply (proj1 (listing_failure_gives_empty_summary
                    (new_processor unreachable_client sample_analyzer
                       sample_generator tt)
                    sample_clock (fun l => l) "group/project" "general"
                    "opened" 10 false 3 1 None)
             (ConnectionError "API Error")).
    reflexivity.
  - apply (proj1 (proj2 (listing_failure_gives_empty_summary
                           (sample_processor [sample_mr 1; plain_label_mr 2])
                           sample_clock (fun l => l) "group/project"
                           "general" "opened" 10 false 3 1
                           (Some (mkFilters None (Some ["enhancement"]) None
                                    None))))
             [sample_mr 1; plain_label_mr 2]
             (mkFilters None (Some ["enhancement"]) None None)
             (TypeError "string indices must be integers, not 'str'"));
      reflexivity.
Defined.

(** A callback that raises once a unit is done makes the sequential
    dispatch raise: the run records the error string and keeps the result
    collected before. *)
Lemma dispatch_failure_is_recorded :
  let self := set_progress_callback (sample_processor [sample_mr 1])
                raise_when_done in
  let r := process_project_mrs self sample_clock (fun l => l)
             "group/project" "general" "opened" 10 false 1 0 None in
  errors (fst r) = ["Batch processing failed: progress display closed"] /\
  total_mrs (fst r) = 1%nat /\
  length (results (snd r)) = 1%nat.
Proof. vm_compute. repeat split. Qed.

(** C3 as stated fails: the listing raises, and the summary returned holds
    no error string. *)
Lemma listing_failure_records_no_error :
  let summary :=
    fst (process_project_mrs
           (new_processor unreachable_client sample_analyzer
              sample_generator tt)
           sample_clock (fun l => l) "group/project" "general" "opened"
           10 false 3 1 None) in
  raised (get_project_merge_requests unreachable_client "group/project"
            "opened" 20) = true /\
  total_mrs summary = 0%nat /\
  ~ (exists msg, In msg (errors summary)).
Proof.
  vm_compute. repeat split. intros (msg & []).
Qed.

End BatchProps.

(** ** The retry wrapper, beyond the claims *)

Module RetryWrapperProps.
Import RetryPolicy RetryRuns.

Local Open Scope list_scope.

(** The world after [n] invocations of [func], each on the world the
    previous one left. *)
Lemma iter_step_succ {W V : Type} (func : W -> Outcome V * W) (n : nat) (w : W) :
  Nat.iter n (fun w => snd (func w)) (snd (func w))
  = Nat.iter (Datatypes.S n) (fun w => snd (func w)) w.
Proof.
  symmetry. exact (Nat.iter_succ_r n (fun w => snd (func w)) w).
Qed.

(** The loop from attempt [attempt] with the iterations that are left up to
    [max_attempts]. *)
Lemma retry_loop_shape {W V : Type} (c : RetryConfig)
    (func : W -> Outcome V * W) (rnd : Z -> Q) (remaining : nat) :
  forall attempt last w calls slept,
    (attempt + Z.of_nat remaining = max_attempts c + 1)%Z ->
    let run := retry_loop c func rnd remaining attempt last w calls slept in
    exists n extra,
      invocations run = (calls + n)%nat /\
      (n <= remaining)%nat /\
      (1 <= remaining -> 1 <= n)%nat /\
      sleeps run = slept ++ extra /\
      (length extra <= Nat.pred n)%nat /\
      run_of_invocations c func w n run.
Proof.
  induction remaining as [|k IH]; intros attempt last w calls slept Hinv.
  - cbn. exists O, []. rewrite Nat.add_0_r, app_nil_r.
    split_and!; try lia; try reflexivity.
    split_and!; [reflexivity|intros; lia|].
    intros v Hv. cbn in Hv. destruct last; discriminate.
  - cbn [retry_loop]. destruct (func w) as [[v|e] w'] eqn:Hf.
    + exists 1%nat, []. cbn. rewrite app_nil_r.
      split_and!; try lia; try reflexivity.
      split_and!; cbn; [now rewrite Hf|intros; lia|].
      intros v' [= <-]. exists O. cbn. now rewrite Hf.
    + assert (Hstop : forall o : Outcome V,
                (forall v, o <> Return v) ->
                let run := mkRetryRun o w' (Datatypes.S calls) slept in
                exists n extra,
                  invocations run = (calls + n)%nat /\
                  (n <= Datatypes.S k)%nat /\
                  (1 <= Datatypes.S k -> 1 <= n)%nat /\
                  sleeps run = slept ++ extra /\
                  (length extra <= Nat.pred n)%nat /\
                  run_of_invocations c func w n run).
      { intros o Ho. exists 1%nat, []. cbn. rewrite app_nil_r.
        split_and!; try lia; try reflexivity.
        split_and!; cbn; [now rewrite Hf|intros; lia|].
        intros v Hv. now apply Ho in Hv. }
      destruct (isinstance_any e (retry_on_exceptions c)) eqn:Hcls;
        [|apply Hstop; discriminate].
      destruct (Z.eqb_spec attempt (max_attempts c)) as [Heq|Hneq];
        [apply Hstop; discriminate|].
      destruct (calculate_delay c attempt (rnd attempt)) as [delay|x];
        [|apply Hstop; discriminate].
      destruct (Qle_bool 0 delay); [|apply Hstop; discriminate].
      destruct (IH (attempt + 1)%Z (Some e) w' (Datatypes.S calls)
                  (slept ++ [delay]))
        as (n & extra & Hn & Hle & Hpos & Hs & Hlen & Hw & Hbefore & Hret);
        [lia|].
      assert (Hk : (1 <= k)%nat) by lia.
      specialize (Hpos Hk).
      exists (Datatypes.S n), (delay :: extra).
      assert (Hw' : w' = snd (func w)) by now rewrite Hf.
      split_and!.
      * rewrite Hn. lia.
      * lia.
      * lia.
      * rewrite Hs, <- app_assoc. reflexivity.
      * cbn [length Nat.pred]. lia.
      * split_and!.
        -- rewrite Hw, Hw'. apply iter_step_succ.
        -- intros [|m] Hm.
           ++ exists e. cbn. now rewrite Hf.
           ++ destruct (Hbefore m) as (e' & He' & Hcls'); [lia|].
              exists e'. split; [|exact Hcls'].
              rewrite <- iter_step_succ, <- Hw'. exact He'.
        -- intros v Hv. destruct (Hret v Hv) as (m & -> & Hm).
           exists (Datatypes.S m). split; [reflexivity|].
           rewrite <- iter_step_succ, <- Hw'. exact Hm.
Qed.

(** Every run of [retry_with_backoff]: at most [max_attempts] invocations,
    each on the world the previous one left; an invocation is followed by
    another only if it raised an exception of a retried class; sleeps
    happen only between invocations; a returned value is the value of the
    last invocation. *)
Theorem retry_run_shape {W V : Type} (c : RetryConfig)
    (func : W -> Outcome V * W) (rnd : Z -> Q) (w : W) :
  let run := retry_with_backoff c func rnd w in
  (invocations run <= Z.to_nat (max_attempts c))%nat /\
  (length (sleeps run) <= Nat.pred (invocations run))%nat /\
  run_of_invocations c func w (invocations run) run.
Proof.
  cbn zeta. unfold retry_with_backoff.
  destruct (Z.le_gt_cases 0 (max_attempts c)) as [Hpos|Hneg].
  - destruct (retry_loop_shape c func rnd (Z.to_nat (max_attempts c)) 1 None
                w O []) as (n & extra & Hn & Hle & _ & Hs & Hlen & Hshape);
      [lia|].
    cbn in Hn, Hs. rewrite Hn, Hs. auto.
  - replace (Z.to_nat (max_attempts c)) with O by lia. cbn.
    split_and!; try lia.
    split_and!; [reflexivity|intros; lia|discriminate].
Qed.

(** With [max_attempts <= 0] the loop body never runs: the wrapped function
    is not invoked and [raise last_exception], with [None], is a
    [TypeError]. *)
Theorem retry_without_attempts {W V : Type} (c : RetryConfig)
    (func : W -> Outcome V * W) (rnd : Z -> Q) (w : W)
    (Hmax : (max_attempts c <= 0)%Z) :
  let run := retry_with_backoff c func rnd w in
  invocations run = O /\ world run = w /\ sleeps run = [] /\
  result run = Raise (TypeError "exceptions must derive from BaseException").
Proof.
  cbn zeta. unfold retry_with_backoff.
  replace (Z.to_nat (max_attempts c)) with O by lia. cbn. auto.
Qed.

Lemma retry_without_attempts_witness :
  invocations
    (retry_with_backoff
       (mkRetryConfig 0 1 60 2 true ["ConnectionError"] [])
       (fun n : nat => (@Return unit tt, Datatypes.S n)) (fun _ => 0%Q) O)
  = O.
Proof.
  apply (retry_without_attempts
           (mkRetryConfig 0 1 60 2 true ["ConnectionError"] [])
           (fun n : nat => (@Return unit tt, Datatypes.S n)) (fun _ => 0%Q) O).
  cbn. lia.
Defined.

Lemma backoff_schedule_cons (c : RetryConfig) (rnd : Z -> Q) (attempt : Z)
    (n : nat) :
  backoff_schedule c rnd attempt (Datatypes.S n)
  = calculate_delay c attempt (rnd attempt)
    :: backoff_schedule c rnd (attempt + 1) n.
Proof.
  unfold backoff_schedule. cbn [seq List.map].
  rewrite Z.add_0_r. f_equal.
  rewrite <- seq_shift, List.map_map. apply map_ext. intros i.
  replace (attempt + Z.of_nat (Datatypes.S i))%Z
    with (attempt + 1 + Z.of_nat i)%Z by lia.
  reflexivity.
Qed.

(** One turn of the loop. *)
Lemma retry_loop_turn {W V : Type} (c : RetryConfig)
    (func : W -> Outcome V * W) (rnd : Z -> Q) k attempt last w calls slept :
  retry_loop c func rnd (Datatypes.S k) attempt last w calls slept
  = match func w with
    | (Return v, w') => mkRetryRun (Return v) w' (Datatypes.S calls) slept
    | (Raise e, w') =>
        if isinstance_any e (retry_on_exceptions c) then
          if (attempt =? max_attempts c)%Z then
            mkRetryRun (Raise e) w' (Datatypes.S calls) slept
          else
            match calculate_delay c attempt (rnd attempt) with
            | Raise x => mkRetryRun (Raise x) w' (Datatypes.S calls) slept
            | Return delay =>
                if Qle_bool 0 delay then
                  retry_loop c func rnd k (attempt + 1) (Some e) w'
                    (Datatypes.S calls) (slept ++ [delay])
                else
                  mkRetryRun
                    (Raise (ValueError "sleep length must be non-negative"))
                    w' (Datatypes.S calls) slept
            end
        else mkRetryRun (Raise e) w' (Datatypes.S calls) slept
    end.
Proof. reflexivity. Qed.

(** The loop when every invocation fails with a retried class and the
    delays are accepted up to the last attempt. *)
Lemma retry_loop_exhausted {W V : Type} (c : RetryConfig)
    (func : W -> Outcome V * W) (rnd : Z -> Q) :
  always_retryable c func ->
  forall k attempt last w calls slept,
    (attempt + Z.of_nat (Datatypes.S k) = max_attempts c + 1)%Z ->
    delays_accepted c rnd attempt (max_attempts c) ->
    let run := retry_loop c func rnd (Datatypes.S k) attempt last w calls
                 slept in
    result run = fst (func (Nat.iter k (fun w => snd (func w)) w)) /\
    world run = Nat.iter (Datatypes.S k) (fun w => snd (func w)) w /\
    invocations run = (calls + Datatypes.S k)%nat /\
    List.map Return (sleeps run)
    = List.map Return slept ++ backoff_schedule c rnd attempt k.
Proof.
  intros Hfail.
  induction k as [|k IH]; intros attempt last w calls slept Hinv Hdelay.
  - cbn [retry_loop Nat.iter nat_rect]. destruct (Hfail w) as (e & He & Hcls).
    destruct (func w) as [o w']. cbn in He. subst o. rewrite Hcls.
    replace (attempt =? max_attempts c)%Z with true by (symmetry; lia).
    cbn. rewrite app_nil_r. split_and!; try reflexivity. lia.
  - cbn zeta. rewrite retry_loop_turn. destruct (Hfail w) as (e & He & Hcls).
    destruct (func w) as [o w'] eqn:Hf. cbn in He. subst o. rewrite Hcls.
    replace (attempt =? max_attempts c)%Z with false by (symmetry; lia).
    destruct (Hdelay attempt ltac:(lia)) as (d & Hd & Hpos).
    rewrite Hd. apply Qle_bool_iff in Hpos. rewrite Hpos.
    destruct (IH (attempt + 1)%Z (Some e) w' (Datatypes.S calls)
                (slept ++ [d])) as (H1 & H2 & H3 & H4);
      [lia|intros a Ha; apply Hdelay; lia|].
    assert (Hw' : w' = snd (func w)) by now rewrite Hf.
    split_and!.
    + rewrite H1, Hw', iter_step_succ. reflexivity.
    + rewrite H2, Hw', iter_step_succ. reflexivity.
    + rewrite H3. lia.
    + rewrite H4, backoff_schedule_cons, Hd, List.map_app, <- app_assoc.
      reflexivity.
Qed.

(** The loop when the computation of the delay raises at attempt [stop],
    the delays before it being accepted: the exception ends the wrapper. *)
Lemma retry_loop_stopped {W V : Type} (c : RetryConfig)
    (func : W -> Outcome V * W) (rnd : Z -> Q) (stop : Z) (x : Exn) :
  always_retryable c func ->
  (stop < max_attempts c)%Z ->
  calculate_delay c stop (rnd stop) = Raise x ->
  forall k remaining attempt last w calls slept,
    (attempt + Z.of_nat k = stop)%Z ->
    (attempt + Z.of_nat remaining = max_attempts c + 1)%Z ->
    delays_accepted c rnd attempt stop ->
    let run := retry_loop c func rnd remaining attempt last w calls slept in
    result run = Raise x /\
    world run = Nat.iter (Datatypes.S k) (fun w => snd (func w)) w /\
    invocations run = (calls + Datatypes.S k)%nat /\
    List.map Return (sleeps run)
    = List.map Return slept ++ backoff_schedule c rnd attempt k.
Proof.
  intros Hfail Hlt Hx.
  induction k as [|k IH];
    intros remaining attempt last w calls slept Hk Hinv Hdelay;
    (destruct remaining as [|r]; [lia|]);
    cbn zeta; rewrite retry_loop_turn;
    destruct (Hfail w) as (e & He & Hcls);
    destruct (func w) as [o w'] eqn:Hf; cbn in He; subst o; rewrite Hcls;
    (replace (attempt =? max_attempts c)%Z with false by (symmetry; lia)).
  - replace attempt with stop by lia. rewrite Hx. cbn. rewrite Hf.
    rewrite app_nil_r. split_and!; try reflexivity. lia.
  - destruct (Hdelay attempt ltac:(lia)) as (d & Hd & Hpos).
    rewrite Hd. apply Qle_bool_iff in Hpos. rewrite Hpos.
    destruct (IH r (attempt + 1)%Z (Some e) w' (Datatypes.S calls)
                (slept ++ [d])) as (H1 & H2 & H3 & H4);
      [lia|lia|intros a Ha; apply Hdelay; lia|].
    assert (Hw' : w' = snd (func w)) by now rewrite Hf.
    split_and!.
    + exact H1.
    + rewrite H2, Hw', iter_step_succ. reflexivity.
    + rewrite H3. lia.
    + rewrite H4, backoff_schedule_cons, Hd, List.map_app, <- app_assoc.
      reflexivity.
Qed.

(** When every invocation raises an exception of a retried class: if the
    delays of attempts 1 to [max_attempts - 1] are computed and accepted by
    [time.sleep], the function is invoked exactly [max_attempts] times,
    these delays are slept in order, none after the last attempt, and the
    error raised is the one of the last invocation; if instead the
    computation of the delay raises at an attempt [stop] below
    [max_attempts], the delays before it being accepted, the function is
    invoked exactly [stop] times and the wrapper raises what the
    computation raised. *)
Theorem retry_exhaustion {W V : Type} (c : RetryConfig)
    (func : W -> Outcome V * W) (rnd : Z -> Q) (w : W)
    (Hfail : always_retryable c func) :
  let run := retry_with_backoff c func rnd w in
  ((1 <= max_attempts c)%Z ->
   delays_accepted c rnd 1 (max_attempts c) ->
   let n := Z.to_nat (max_attempts c) in
   invocations run = n /\
   world run = Nat.iter n (fun w => snd (func w)) w /\
   result run = fst (func (Nat.iter (Nat.pred n) (fun w => snd (func w)) w)) /\
   List.map Return (sleeps run) = backoff_schedule c rnd 1 (Nat.pred n)) /\
  (forall stop x,
     (1 <= stop < max_attempts c)%Z ->
     delays_accepted c rnd 1 stop ->
     calculate_delay c stop (rnd stop) = Raise x ->
     let n := Z.to_nat stop in
     invocations run = n /\
     world run = Nat.iter n (fun w => snd (func w)) w /\
     result run = Raise x /\
     List.map Return (sleeps run) = backoff_schedule c rnd 1 (Nat.pred n)).
Proof.
  cbn zeta. unfold retry_with_backoff. split.
  - intros Hmax Hdelay.
    destruct (Z.to_nat (max_attempts c)) as [|k] eqn:Hk; [lia|].
    destruct (retry_loop_exhausted c func rnd Hfail k 1%Z None w O [])
      as (H1 & H2 & H3 & H4); [lia|exact Hdelay|].
    cbn [Nat.pred]. auto.
  - intros stop x Hstop Hdelay Hx.
    destruct (Z.to_nat stop) as [|k] eqn:Hk; [lia|].
    destruct (retry_loop_stopped c func rnd stop x Hfail ltac:(lia) Hx k
                (Z.to_nat (max_attempts c)) 1%Z None w O [])
      as (H1 & H2 & H3 & H4); [lia|lia|exact Hdelay|].
    cbn [Nat.pred]. auto.
Qed.

(** The delays of the default configuration, without jitter, are computed
    and accepted up to attempt 1024. *)
Lemma default_delays_accepted (stop : Z) :
  (stop <= 1025)%Z ->
  delays_accepted default_no_jitter (fun _ => 0%Q) 1 stop.
Proof.
  intros Hstop a Ha.
  destruct (RetryPolicyProps.calculate_delay_cases default_no_jitter a 0)
    as [(_ & ->)|(Hout & _)]; [lia| |].
  - eexists. split; [reflexivity|]. cbn [jitter default_no_jitter].
    unfold capped_delay. apply Q.min_glb; [|vm_compute; discriminate].
    cbn [base_delay exponential_base default_no_jitter].
    apply Qmult_le_0_compat; [vm_compute; discriminate|].
    apply Qpower_0_le. vm_compute. discriminate.
  - exfalso. apply Hout.
    apply (RetryPolicyProps.power_in_range_earlier default_no_jitter a 1024);
      [vm_compute; discriminate|lia|lia|].
    split; vm_compute; reflexivity.
Qed.

Lemma retry_exhaustion_witness :
  (let run := retry_with_backoff default_no_jitter connection_refused
                (fun _ => 0%Q) O in
   invocations run = 3%nat /\
   world run = 3%nat /\
   result run = Raise (ConnectionError "Connection failed") /\
   List.map Return (sleeps run)
   = backoff_schedule default_no_jitter (fun _ => 0%Q) 1 2) /\
  (let c := mkRetryConfig 1030 1 60 2 false ["ConnectionError"] [] in
   let run := retry_with_backoff c connection_refused (fun _ => 0%Q) O in
   invocations run = 1025%nat /\
   world run = 1025%nat /\
   raised (result run) = true).
Proof.
  set (c := mkRetryConfig 1030 1 60 2 false ["ConnectionError"] []).
  assert (Hfail1 : @always_retryable nat unit default_no_jitter
                     connection_refused)
    by (intros w; eexists; split; reflexivity).
  assert (Hfail2 : @always_retryable nat unit c connection_refused)
    by (intros w; eexists; split; reflexivity).
  split.
  - apply (proj1 (retry_exhaustion default_no_jitter connection_refused
                    (fun _ => 0%Q) O Hfail1)); [cbn; lia|].
    apply default_delays_accepted. cbn. lia.
  - cbn zeta. fold c.
    destruct (calculate_delay c 1025 0) as [d|x] eqn:Hx;
      [vm_compute in Hx; discriminate|].
    destruct (proj2 (retry_exhaustion c connection_refused
                       (fun _ => 0%Q) O Hfail2)
                1025%Z x) as (H1 & H2 & H3 & _).
    + cbn. lia.
    + intros a Ha.
      destruct (default_delays_accepted 1025 ltac:(lia) a Ha)
        as (d & Hd & Hpos).
      exists d. split; [exact Hd|exact Hpos].
    + exact Hx.
    + rewrite H1, H2, H3. split_and!; vm_compute; reflexivity.
Defined.

End RetryWrapperProps.

(** ** The circuit breaker, beyond the claims *)

Module BreakerMoreProps.
Import Breaker BreakerProps.

Local Open Scope Q_scope.

(** Whenever a call through the breaker returns a value, the breaker is
    CLOSED afterwards with its failure counter at 0, and the recorded last
    failure time is kept. *)
Theorem returned_call_closes {W V : Type} (cb : CircuitBreaker) name clk
    (func : W -> Outcome V * W) w v
    (Hret : fst (fst (wrapper cb name clk func w)) = Return v) :
  let cb' := snd (fst (wrapper cb name clk func w)) in
  state cb' = CLOSED /\ failure_count cb' = 0%Z /\
  last_failure_time cb' = last_failure_time cb /\
  fst (func w) = Return v.
Proof.
  cbn zeta. revert Hret. unfold wrapper.
  assert (Hatt : forall h,
            state h <> OPEN ->
            fst (fst (attempt h clk func w)) = Return v ->
            state (snd (fst (attempt h clk func w))) = CLOSED /\
            failure_count (snd (fst (attempt h clk func w))) = 0%Z /\
            last_failure_time (snd (fst (attempt h clk func w)))
            = last_failure_time h /\
            fst (func w) = Return v).
  { intros h Hno.
    destruct (attempt_cases h clk func w)
      as [(v' & Hf & ->)|[(e & _ & _ & ->)|(e & _ & _ & ->)]]; cbn;
      try discriminate.
    intros [= ->]. rewrite Hf. cbn.
    destruct (on_success_fields h) as (_ & _ & _ & Hc & Hl & Hs).
    rewrite Hc, Hl, Hs. destruct (state h); try congruence; auto. }
  destruct (state cb) eqn:Hs.
  - apply Hatt. congruence.
  - destruct (_should_attempt_reset cb (t_check clk)); [|discriminate].
    intros H. apply (Hatt (set_state cb HALF_OPEN)); [discriminate|exact H].
  - apply Hatt. congruence.
Qed.

Lemma returned_call_closes_witness :
  state (snd (fst (wrapper (set_state tripped HALF_OPEN) "ping"
                     (mkClock 70 70)
                     (fun n : nat => (Return tt, Datatypes.S n)) 1%nat)))
  = CLOSED.
Proof.
  apply (returned_call_closes (set_state tripped HALF_OPEN) "ping"
           (mkClock 70 70) (fun n : nat => (Return tt, Datatypes.S n))
           1%nat tt).
  reflexivity.
Defined.

(** An exception that is not an instance of [expected_exception] is never
    counted: it propagates, and the breaker is left as it was, or moved
    from OPEN to HALF_OPEN when the call was let through as a trial; the
    counter and the last failure time do not change. *)
Theorem unexpected_exception_not_counted {W V : Type} (cb : CircuitBreaker)
    name clk (func : W -> Outcome V * W) w e
    (Hraise : fst (func w) = Raise e)
    (Hcls : isinstance e (expected_exception cb) = false) :
  let cb' := snd (fst (wrapper cb name clk func w)) in
  (cb' = cb \/ (state cb = OPEN /\ cb' = set_state cb HALF_OPEN)) /\
  failure_count cb' = failure_count cb /\
  last_failure_time cb' = last_failure_time cb.
Proof.
  cbn zeta. unfold wrapper.
  assert (Hatt : forall h,
            expected_exception h = expected_exception cb ->
            snd (fst (attempt h clk func w)) = h).
  { intros h Hexp. unfold attempt. destruct (func w) as [o w'].
    cbn in Hraise. subst o. rewrite Hexp, Hcls. reflexivity. }
  destruct (state cb) eqn:Hs.
  - rewrite Hatt by reflexivity. auto.
  - destruct (_should_attempt_reset cb (t_check clk)).
    + rewrite Hatt by reflexivity. cbn. auto.
    + cbn. auto.
  - rewrite Hatt by reflexivity. auto.
Qed.

Lemma unexpected_exception_not_counted_witness :
  failure_count
    (snd (fst (wrapper (init 2 30 "ValueError") "f" (mkClock 0 1)
                 (fun n : nat =>
                    (@Raise unit (KeyError "'iid'"), Datatypes.S n)) O)))
  = 0%Z.
Proof.
  apply (unexpected_exception_not_counted (init 2 30 "ValueError") "f"
           (mkClock 0 1)
           (fun n : nat => (@Raise unit (KeyError "'iid'"), Datatypes.S n))
           O (KeyError "'iid'")); reflexivity.
Defined.

Section Invariant.
Context {W V : Type}.

(** With a threshold of at least 1, a breaker stored as CLOSED has counted
    fewer failures than the threshold. *)
Lemma closed_below_threshold (cb : CircuitBreaker) :
  @reachable W V cb -> (1 <= failure_threshold cb)%Z ->
  state cb = CLOSED -> (failure_count cb < failure_threshold cb)%Z.
Proof.
  induction 1 as [threshold timeout expected|cb name clk func w Hr IH].
  - cbn. lia.
  - destruct (wrapper_expected cb name clk func w) as [_ Hth].
    rewrite Hth. intros Hpos. specialize (IH Hpos).
    pose proof (reachable_consistent cb Hr) as (_ & Ht & _).
    unfold wrapper.
    assert (Hatt : forall h,
              failure_threshold h = failure_threshold cb ->
              (state h = CLOSED ->
               (failure_count h < failure_threshold h)%Z) ->
              state (snd (fst (attempt h clk func w))) = CLOSED ->
              (failure_count (snd (fst (attempt h clk func w)))
               < failure_threshold cb)%Z).
    { intros h Hh Hih.
      destruct (attempt_cases h clk func w)
        as [(v & _ & ->)|[(e & _ & _ & ->)|(e & _ & _ & ->)]]; cbn.
      - destruct (on_success_fields h) as (_ & _ & _ & Hc & _). rewrite Hc.
        lia.
      - rewrite on_failure_state.
        destruct (on_failure_fields h (t_fail clk)) as (_ & _ & _ & Hc & _).
        rewrite Hc, Hh.
        destruct (Z.leb_spec (failure_threshold cb) (failure_count h + 1));
          [discriminate|lia].
      - intros Hs. specialize (Hih Hs). lia. }
    destruct (state cb) eqn:Hs.
    + apply Hatt; [reflexivity|]. intros _. now apply IH.
    + destruct (_should_attempt_reset cb (t_check clk));
        [|cbn; congruence].
      apply (Hatt (set_state cb HALF_OPEN)); [reflexivity|discriminate].
    + apply Hatt; [reflexivity|]. congruence.
Qed.
End Invariant.

(** At every state a breaker can reach from [__init__] through calls: the
    failure counter is not negative; the breaker is OPEN or HALF_OPEN only
    once the counter has reached the threshold; an OPEN breaker has a
    recorded last failure time; and, for a threshold of at least 1, a
    CLOSED breaker has counted fewer failures than the threshold. *)
Theorem reachable_breaker_invariant {W V : Type} (cb : CircuitBreaker)
    (Hreach : @reachable W V cb) :
  (0 <= failure_count cb)%Z /\
  (state cb <> CLOSED -> (failure_threshold cb <= failure_count cb)%Z) /\
  (state cb = OPEN -> exists tl, last_failure_time cb = Some tl) /\
  ((1 <= failure_threshold cb)%Z -> state cb = CLOSED ->
   (failure_count cb < failure_threshold cb)%Z).
Proof.
  destruct (reachable_consistent cb Hreach) as (H0 & Ht & Hl).
  split_and!; try assumption.
  - intros Ho. specialize (Hl Ho).
    destruct (last_failure_time cb) as [tl|]; [eauto|congruence].
  - now apply (closed_below_threshold cb Hreach).
Qed.

Lemma reachable_breaker_invariant_witness :
  (0 <= failure_count tripped)%Z /\
  (state tripped <> CLOSED ->
   (failure_threshold tripped <= failure_count tripped)%Z) /\
  (state tripped = OPEN -> exists tl, last_failure_time tripped = Some tl) /\
  ((1 <= failure_threshold tripped)%Z -> state tripped = CLOSED ->
   (failure_count tripped < failure_threshold tripped)%Z).
Proof.
  exact (reachable_breaker_invariant tripped
           (reach_call (init 1 60 "Exception") "always_failing"
              (mkClock 0 0) always_failing O (reach_init 1 60 "Exception"))).
Defined.

(** Failures that do not reach the threshold leave a CLOSED breaker CLOSED,
    each of them counted, and every one of those calls ran the operation. *)
Theorem failures_below_threshold {W V : Type} (calls : list (@Call W V)) :
  forall (cb : CircuitBreaker) (w : W),
    state cb = CLOSED ->
    Forall (fun c => fails_for cb (call_func c)) calls ->
    (failure_count cb + Z.of_nat (length calls) < failure_threshold cb)%Z ->
    let r := run_calls cb w calls in
    state (fst r) = CLOSED /\
    failure_count (fst r) = (failure_count cb + Z.of_nat (length calls))%Z /\
    snd r = fold_left (fun w c => snd (call_func c w)) calls w.
Proof.
  induction calls as [|c rest IH]; intros cb w Hs Hall Hlt.
  - cbn. split_and!; [exact Hs|lia|reflexivity].
  - cbn zeta. rewrite run_calls_cons.
    inversion Hall as [|? ? Hf Hrest]; subst.
    pose proof (fails_for_after cb (call_name c) (call_clock c)
                  (call_func c) w rest Hrest) as Hrest'.
    assert (Hw : wrapper cb (call_name c) (call_clock c) (call_func c) w
                 = attempt cb (call_clock c) (call_func c) w)
      by (unfold wrapper; now rewrite Hs).
    destruct (attempt_failure cb (call_clock c) (call_func c) w Hf)
      as (e & He).
    rewrite Hw, He in *. cbn [fst snd] in *.
    destruct (on_failure_fields cb (t_fail (call_clock c)))
      as (Hth & _ & _ & Hc & _).
    cbn [length] in Hlt.
    destruct (IH (_on_failure cb (t_fail (call_clock c)))
                (snd (call_func c w))) as (Hs' & Hc' & Hw').
    + rewrite on_failure_state, Hs.
      destruct (Z.leb_spec (failure_threshold cb) (failure_count cb + 1));
        [lia|reflexivity].
    + exact Hrest'.
    + rewrite Hth, Hc. lia.
    + split_and!; [exact Hs'|rewrite Hc', Hc; cbn [length]; lia|exact Hw'].
Qed.

Lemma failures_below_threshold_witness :
  state (fst (run_calls (init 3 30 "ValueError") O
                [mkCall "f" (mkClock 0 1) always_failing;
                 mkCall "f" (mkClock 2 3) always_failing])) = CLOSED.
Proof.
  apply (failures_below_threshold
           [mkCall "f" (mkClock 0 1) always_failing;
            mkCall "f" (mkClock 2 3) always_failing]
           (init 3 30 "ValueError") O).
  - reflexivity.
  - repeat constructor; intros w; eexists; split; reflexivity.
  - cbn. lia.
Defined.

End BreakerMoreProps.

(** ** The error recovery manager, beyond the claims *)

Module RecoveryMoreProps.
Import Recovery RecoveryProps.

Local Open Scope list_scope.





End RecoveryMoreProps.

(** ** Selection of merge requests *)

Module SelectionProps.
Import Batch Selection.

Local Open Scope list_scope.

Lemma filter_true {A} (l : list A) : List.filter (fun _ => true) l = l.
Proof. induction l as [|x l IH]; cbn; congruence. Qed.

Lemma filter_twice {A} (p q : A -> bool) (l : list A) :
  List.filter q (List.filter p l) = List.filter (fun x => p x && q x) l.
Proof.
  induction l as [|x l IH]; [reflexivity|].
  cbn. destruct (p x); cbn; [destruct (q x)|]; now rewrite IH.
Qed.

Lemma filter_option {A B} (o : option B) (p : B -> A -> bool) (l : list A) :
  match o with Some b => List.filter (p b) l | None => l end
  = List.filter (fun x => match o with Some b => p b x | None => true end) l.
Proof. destruct o; [reflexivity|]. symmetry. apply filter_true. Qed.

(** The comprehension of the [labels] key: it keeps the merge requests
    with a required label when every label can be read, and raises as soon
    as one cannot. *)
Lemma filter_by_labels_cases (required : list string)
    (l : list MergeRequest) :
  ((forall mr, In mr l -> readable_labels mr) /\
   filter_by_labels required l
   = Return (List.filter
               (fun mr => existsb (fun r => existsb (String.eqb r)
                                              (names_of mr)) required) l))
  \/
  ((exists mr, In mr l /\ ~ readable_labels mr) /\
   raised (filter_by_labels required l) = true).
Proof.
  induction l as [|mr rest IH].
  - left. split; [intros mr []|reflexivity].
  - cbn [filter_by_labels List.filter]. unfold names_of at 1.
    destruct (label_names (labels mr)) as [names|e] eqn:Hn; cbn [bind].
    + destruct IH as [(Hall & ->)|((bad & Hin & Hbad) & Hr)].
      * left. split.
        -- intros mr' [<-|Hin]; [unfold readable_labels; now rewrite Hn|].
           now apply Hall.
        -- cbn [bind]. reflexivity.
      * right. split; [exists bad; split; [now right|exact Hbad]|].
        destruct (filter_by_labels required rest); [discriminate|reflexivity].
    + right. split; [|reflexivity].
      exists mr. split; [now left|].
      unfold readable_labels. rewrite Hn. discriminate.
Qed.

(** The stages of [_apply_filters] after the first. *)
Lemma apply_filters_stages (l : list MergeRequest) (f : Filters) :
  _apply_filters l f
  = bind (match f_labels f with
          | Some required =>
              filter_by_labels required (List.filter (matches_author f) l)
          | None => Return (List.filter (matches_author f) l)
          end)
      (fun kept =>
         Return (List.filter
                   (fun mr => matches_keywords f mr
                              && matches_created_after f mr) kept)).
Proof.
  unfold _apply_filters, matches_author, matches_keywords,
    matches_created_after.
  assert (Hauthor :
            match f_author f with
            | Some a =>
                List.filter
                  (fun mr =>
                     contains (lower a)
                       (lower (default "" (author_username mr)))) l
            | None => l
            end
            = List.filter
                (fun mr =>
                   match f_author f with
                   | Some a =>
                       contains (lower a)
                         (lower (default "" (author_username mr)))
                   | None => true
                   end) l)
    by (destruct (f_author f); [reflexivity|symmetry; apply filter_true]).
  cbv zeta. rewrite Hauthor.
  destruct (match f_labels f with
            | Some required => filter_by_labels required _
            | None => Return _
            end) as [kept|e]; cbn [bind]; [|reflexivity].
  f_equal.
  destruct (f_keywords f), (f_created_after f);
    rewrite ?filter_twice;
    first [ apply List.filter_ext
          | rewrite <- (filter_true kept) at 1; apply List.filter_ext ];
    intros mr; rewrite ?andb_true_r, ?andb_true_l; reflexivity.
Qed.

(** [_apply_filters] returns the merge requests that pass every test, or
    raises on a label that cannot be read. *)
Lemma apply_filters_cases (l : list MergeRequest) (f : Filters) :
  ((f_labels f = None \/
    forall mr, In mr l -> matches_author f mr = true -> readable_labels mr)
   /\ _apply_filters l f = Return (List.filter (passes_filters f) l))
  \/
  (f_labels f <> None /\
   (exists mr, In mr l /\ matches_author f mr = true /\ ~ readable_labels mr)
   /\ raised (_apply_filters l f) = true).
Proof.
  rewrite apply_filters_stages. unfold passes_filters, matches_labels.
  destruct (f_labels f) as [required|] eqn:Hl.
  - destruct (filter_by_labels_cases required
                (List.filter (matches_author f) l))
      as [(Hall & ->)|((bad & Hin & Hbad) & Hr)].
    + left. split.
      * right. intros mr Hin Ha. apply Hall. apply List.filter_In. auto.
      * cbn [bind]. f_equal. rewrite !filter_twice.
        apply List.filter_ext. intros mr.
        now rewrite !andb_assoc.
    + right. split; [discriminate|]. split.
      * apply List.filter_In in Hin. destruct Hin. eauto.
      * destruct (filter_by_labels required _); [discriminate|reflexivity].
  - left. split; [now left|]. cbn [bind]. f_equal. rewrite filter_twice.
    apply List.filter_ext. intros mr.
    now rewrite andb_true_r, !andb_assoc.
Qed.



Lemma in_firstn {A} (k : nat) (l : list A) (x : A) :
  In x (firstn k l) -> In x l.
Proof.
  intros H. rewrite <- (firstn_skipn k l). apply in_or_app. now left.
Qed.

Lemma py_take_prefix {A} (n : Z) (l : list A) :
  exists k, py_take n l = firstn k l.
Proof. unfold py_take. destruct (0 <=? n)%Z; eauto. Qed.

(** What [_get_mrs_to_process] hands to the dispatch: merge requests of the
    listing only, each passing the filters given, in the listed order, no
    more than [max_reviews] of them (for [max_reviews >= 0]); and nothing
    at all when the listing raises. *)
Theorem get_mrs_to_process_selection {Changes S : Type}
    (self : BatchProcessor Changes S) (project_path mr_state : string)
    (max_reviews : Z) (filters : option Filters) :
  let listing := get_project_merge_requests (gitlab_client self)
                   project_path mr_state (Z.min (max_reviews * 2) 100) in
  let out := _get_mrs_to_process self project_path mr_state max_reviews
               filters in
  ((0 <= max_reviews)%Z -> (length out <= Z.to_nat max_reviews)%nat) /\
  (forall mr, In mr out ->
     exists listed, listing = Return listed /\ In mr listed /\
       forall f, filters = Some f -> passes_filters f mr = true) /\
  (forall listed, listing = Return listed ->
     exists k, out = firstn k (match filters with
                               | Some f => List.filter (passes_filters f) listed
                               | None => listed
                               end)) /\
  (raised listing = true -> out = []).
Proof.
  cbn zeta. unfold _get_mrs_to_process.
  destruct (get_project_merge_requests (gitlab_client self) project_path
              mr_state (Z.min (max_reviews * 2) 100)) as [listed|e].
  - assert (Hempty :
              ((0 <= max_reviews)%Z -> (length (@nil MergeRequest)
                                        <= Z.to_nat max_reviews)%nat) /\
              (forall mr, In mr [] ->
                 exists listed0, Return listed = Return listed0 /\
                   In mr listed0 /\
                   forall f, filters = Some f -> passes_filters f mr = true) /\
              (forall listed0, Return listed = Return listed0 ->
                 exists k, [] = firstn k (match filters with
                                          | Some f =>
                                              List.filter (passes_filters f)
                                                listed0
                                          | None => listed0
                                          end)) /\
              (raised (Return listed) = true -> @nil MergeRequest = [])).
    { split_and!; [intros _; cbn; lia|intros mr []| |discriminate].
      intros listed0 _. exists O. reflexivity. }
    assert (Hsel :
              (exists e, match filters with
                         | Some f => _apply_filters listed f
                         | None => Return listed
                         end = Raise e) \/
              match filters with
              | Some f => _apply_filters listed f
              | None => Return listed
              end
              = Return match filters with
                       | Some f => List.filter (passes_filters f) listed
                       | None => listed
                       end).
    { destruct filters as [f|]; [|now right].
      destruct (apply_filters_cases listed f) as [(_ & ->)|(_ & _ & Hr)];
        [now right|left].
      destruct (_apply_filters listed f); [discriminate|eauto]. }
    destruct Hsel as [(e & ->)| ->]; [exact Hempty|]. split_and!.
    + intros Hpos. unfold py_take.
      replace (0 <=? max_reviews)%Z with true by (symmetry; lia).
      apply firstn_le_length.
    + intros mr Hin. exists listed. split; [reflexivity|].
      destruct (py_take_prefix max_reviews
                  (match filters with
                   | Some f => List.filter (passes_filters f) listed
                   | None => listed
                   end)) as (k & Hk).
      rewrite Hk in Hin. apply in_firstn in Hin.
      destruct filters as [f|].
      * apply List.filter_In in Hin. destruct Hin as [Hin Hp].
        split; [exact Hin|]. now intros f' [= <-].
      * split; [exact Hin|discriminate].
    + intros listed' [= <-]. apply py_take_prefix.
    + discriminate.
  - split_and!; try reflexivity.
    + intros _. cbn. lia.
    + intros mr [].
    + discriminate.
Qed.

End SelectionProps.

(** ** The pipeline of one unit *)

Module UnitProps.
Import Batch.

Local Open Scope list_scope.

Section Unit.
Context {Changes S : Type}.
Implicit Types (self : BatchProcessor Changes S) (mr : MergeRequest).

(** A result the pipeline returns is a successful one, for this unit. *)
Lemma pipeline_result self clock mr review_type post_review r :
  single_mr_pipeline self clock mr review_type post_review = Return r ->
  success r = true /\ error r = None /\ mr_iid r = iid mr /\
  r_project_path r = default "" (Batch.project_path mr) /\
  r_review_type r = review_type /\
  (review_posted r = true -> post_review = true).
Proof.
  unfold single_mr_pipeline, bind, subscript.
  destruct (get_mr_changes _ _ _) as [ch|]; [|discriminate].
  destruct (analyze_mr_changes _ _ _) as [an|]; [|discriminate].
  destruct (generate_review _ _ _) as [rev|]; [|discriminate].
  destruct (impact_analysis an) as [ia|]; [|discriminate].
  destruct (ia_complexity_score ia); [|discriminate].
  destruct (ia_files_count ia); [|discriminate].
  destruct (ia_lines_added ia); [|discriminate].
  destruct (ia_lines_removed ia); [|discriminate].
  intros [= <-]. cbn. split_and!; try reflexivity.
  destruct post_review; [reflexivity|]. cbn. discriminate.
Qed.

(** Every result of [_process_single_mr] is about the unit it was given and
    is either a success without error message, or a failure with one, not
    posted, with its scores and counts left at zero; a posted review is a
    success, and only in a run asked to post. *)
Theorem single_mr_result_shape self clock mr review_type post_review :
  let r := _process_single_mr self clock mr review_type post_review in
  mr_iid r = iid mr /\
  r_project_path r = default "" (Batch.project_path mr) /\
  r_review_type r = review_type /\
  (success r = true -> error r = None) /\
  (success r = false ->
     (exists msg, error r = Some msg) /\ review_posted r = false /\
     complexity_score r = 0%Z /\ risk_assessment r = "" /\
     file_count r = 0%Z /\ lines_added r = 0%Z /\ lines_removed r = 0%Z) /\
  (review_posted r = true -> success r = true /\ post_review = true).
Proof.
  cbn zeta. unfold _process_single_mr.
  destruct (single_mr_pipeline self clock mr review_type post_review)
    as [r|e] eqn:Hp.
  - destruct (pipeline_result _ _ _ _ _ _ Hp)
      as (Hs & He & Hi & Hpp & Hrt & Hpost).
    split_and!; try assumption.
    + intros _. exact He.
    + congruence.
    + intros H. split; [exact Hs|now apply Hpost].
  - cbn. split_and!; try reflexivity; try discriminate.
    intros _. split_and!; eauto.
Qed.

(** When the change set is fetched, analysed with all four impact figures
    present and a review generated, the unit succeeds whatever happens to
    the publication: a failure to format or post the note only leaves
    [review_posted] false. The review is posted exactly when posting was
    asked for, the review has a non-empty summary, and both formatting and
    posting return. *)
Theorem publish_failure_keeps_success self clock mr review_type post_review
    changes an rev cx files added removed
    (Hfetch : get_mr_changes (gitlab_client self)
                (default "" (project_path mr)) (iid mr) = Return changes)
    (Han : analyze_mr_changes (mr_analyzer self) mr changes = Return an)
    (Himpact : impact_analysis an
               = Some (mkImpact (Some cx) (Some files) (Some added)
                         (Some removed)))
    (Hgen : generate_review (review_generator self) an review_type
            = Return rev) :
  let r := _process_single_mr self clock mr review_type post_review in
  success r = true /\ error r = None /\
  complexity_score r = cx /\ file_count r = files /\
  lines_added r = added /\ lines_removed r = removed /\
  risk_assessment r = default "UNKNOWN" (overall_assessment rev) /\
  (review_posted r = true <->
     post_review = true /\ default "" (summary rev) <> "" /\
     exists comment,
       format_for_gitlab (review_generator self) rev = Return comment /\
       raised (post_mr_note (gitlab_client self)
                 (default "" (project_path mr)) (iid mr) comment) = false).
Proof.
  cbn zeta. unfold _process_single_mr, single_mr_pipeline, bind, subscript.
  rewrite Hfetch, Han, Hgen, Himpact. cbn.
  split_and!; try reflexivity.
  destruct post_review; cbn.
  - destruct (String.eqb_spec (default "" (summary rev)) "") as [Hs|Hs]; cbn.
    + split; [discriminate|]. intros (_ & Hne & _). contradiction.
    + destruct (format_for_gitlab (review_generator self) rev)
        as [comment|e] eqn:Hfmt.
      * destruct (post_mr_note (gitlab_client self)
                    (default "" (project_path mr)) (iid mr) comment)
          as [u|e] eqn:Hpost.
        -- split; [|reflexivity]. intros _. split_and!; try reflexivity;
             [exact Hs|]. exists comment. rewrite Hpost. auto.
        -- split; [discriminate|].
           intros (_ & _ & c & [= <-] & Hr). rewrite Hpost in Hr.
           discriminate.
      * split; [discriminate|]. intros (_ & _ & c & Hc & _). discriminate.
  - split; [discriminate|]. intros (H & _). discriminate.
Qed.

(** A failure of the fetch, of the analysis or of the generation makes the
    unit a failed result whose error message is the message of that
    exception; the later stages do not change it. *)
Theorem stage_failure_is_captured self clock mr review_type post_review e :
  let r := _process_single_mr self clock mr review_type post_review in
  let fetch := get_mr_changes (gitlab_client self)
                 (default "" (project_path mr)) (iid mr) in
  (fetch = Raise e \/
   (exists changes, fetch = Return changes /\
      (analyze_mr_changes (mr_analyzer self) mr changes = Raise e \/
       exists an,
         analyze_mr_changes (mr_analyzer self) mr changes = Return an /\
         generate_review (review_generator self) an review_type = Raise e))) ->
  success r = false /\ error r = Some (exc_msg e) /\
  review_posted r = false.
Proof.
  cbn zeta. unfold _process_single_mr, single_mr_pipeline, bind.
  intros [Hf|(changes & Hf & [Ha|(an & Ha & Hg)])].
  - rewrite Hf. cbn. auto.
  - rewrite Hf, Ha. cbn. auto.
  - rewrite Hf, Ha, Hg. cbn. auto.
Qed.
End Unit.

Lemma publish_failure_keeps_success_witness :
  success
    (_process_single_mr
       (new_processor
          (mkGitlabClient unit (fun _ _ _ => Return [sample_mr 1])
             (fun _ _ => Return tt)
             (fun _ _ _ => Raise (ConnectionError "API Error")))
          sample_analyzer sample_generator tt)
       sample_clock (sample_mr 1) "general" true)
  = true.
Proof.
  exact (proj1 (publish_failure_keeps_success
                  (new_processor
                     (mkGitlabClient unit (fun _ _ _ => Return [sample_mr 1])
                        (fun _ _ => Return tt)
                        (fun _ _ _ => Raise (ConnectionError "API Error")))
                     sample_analyzer sample_generator tt)
                  sample_clock (sample_mr 1) "general" true tt
                  sample_analysis sample_review 45 3 20 5
                  eq_refl eq_refl eq_refl eq_refl)).
Defined.

Lemma stage_failure_is_captured_witness :
  error
    (_process_single_mr
       (new_processor
          (mkGitlabClient unit (fun _ _ _ => Return [sample_mr 1])
             (fun _ _ => Raise (ConnectionError "API Error"))
             (fun _ _ _ => Return tt))
          sample_analyzer sample_generator tt)
       sample_clock (sample_mr 1) "general" true)
  = Some "API Error".
Proof.
  exact (proj1 (proj2 (stage_failure_is_captured
                  (new_processor
                     (mkGitlabClient unit (fun _ _ _ => Return [sample_mr 1])
                        (fun _ _ => Raise (ConnectionError "API Error"))
                        (fun _ _ _ => Return tt))
                     sample_analyzer sample_generator tt)
                  sample_clock (sample_mr 1) "general" true
                  (ConnectionError "API Error")
                  (or_introl eq_refl)))).
Defined.

End UnitProps.

(** ** Runs with any progress callback *)

Module RunProps.
Import Batch BatchProps.

Local Open Scope list_scope.

Section AnyCallback.
Context {Changes S : Type}.
Implicit Types (self : BatchProcessor Changes S) (mr : MergeRequest).

(** Whatever the callback does, [_update_progress] changes nothing but the
    callback's own state. *)
Lemma update_progress_any self current total message :
  let r := _update_progress self current total message in
  same_collaborators self (snd r) /\
  results (snd r) = results self /\ slept (snd r) = slept self.
Proof.
  cbn zeta. unfold _update_progress.
  destruct (progress_callback self) as [callback|] eqn:Hp.
  - destruct (callback (callback_state self) current total message)
      as [o s']. cbn. repeat split.
  - cbn. repeat split.
Qed.

(** The sequential loop with any callback: the results collected are those
    of a prefix of the units, in order; all of them when the loop ends
    without raising. *)
Lemma sequential_loop_any (f : MergeRequest -> BatchResult)
    (total_mrs : nat) (delay : Q) (mrs : list MergeRequest) :
  forall i self,
    let r := sequential_loop (fun mr => Return (f mr)) total_mrs delay i
               mrs self in
    exists k,
      (k <= length mrs)%nat /\
      same_collaborators self (snd r) /\
      results (snd r) = results self ++ List.map f (firstn k mrs) /\
      (raised (fst r) = false -> k = length mrs).
Proof.
  induction mrs as [|mr rest IH]; intros i self.
  - exists O. cbn. rewrite app_nil_r.
    split_and!; auto using same_collaborators_refl.
  - cbn [sequential_loop].
    destruct (update_progress_any self (i - 1) total_mrs
                (String.append "Processing MR #" (pretty (iid mr))))
      as (Hsame1 & Hres1 & _).
    destruct (_update_progress self (i - 1) total_mrs
                (String.append "Processing MR #" (pretty (iid mr))))
      as [[u|e] self1]; cbn [snd] in *.
    + set (self2 := append_result self1 (f mr)).
      set (self3 := if (Nat.ltb i total_mrs && negb (Qle_bool delay 0))%bool
                    then sleep self2 delay else self2).
      assert (Hsame3 : same_collaborators self self3).
      { apply same_collaborators_trans with self1; [exact Hsame1|].
        apply same_collaborators_trans with self2;
          [apply append_result_same|].
        unfold self3.
        destruct (Nat.ltb i total_mrs && negb (Qle_bool delay 0))%bool;
          [apply sleep_same|apply same_collaborators_refl]. }
      assert (Hres3 : results self3 = results self ++ [f mr]).
      { unfold self3, self2.
        destruct (Nat.ltb i total_mrs && negb (Qle_bool delay 0))%bool;
          cbn; now rewrite Hres1. }
      destruct (IH (Datatypes.S i) self3) as (k & Hk & Hsame & Hres & Hall).
      exists (Datatypes.S k). cbn [length firstn List.map].
      split_and!.
      * lia.
      * now apply same_collaborators_trans with self3.
      * rewrite Hres, Hres3, <- app_assoc. reflexivity.
      * intros Hr. rewrite (Hall Hr). reflexivity.
    + exists O. cbn. rewrite app_nil_r.
      split_and!; [lia|exact Hsame1|exact Hres1|discriminate].
Qed.

(** The parallel loop with any callback and any worker: every completed
    unit gets its record, followed by a failed record when the callback
    raised for it; the successful records are those of the units whose
    worker returned a success. *)
Lemma parallel_loop_any (worker : MergeRequest -> Outcome BatchResult)
    (clock : RunClock) (review_type : string) (total_mrs : nat)
    (delay : Q) (completion : list MergeRequest) :
  forall completed self,
    let self' := parallel_loop worker clock review_type total_mrs delay
                   completed completion self in
    exists new,
      same_collaborators self self' /\
      results self' = results self ++ new /\
      (length completion <= length new <= 2 * length completion)%nat /\
      List.filter success new
      = List.filter success
          (List.map (settled worker clock review_type) completion) /\
      List.filter review_posted new
      = List.filter review_posted
          (List.map (settled worker clock review_type) completion).
Proof.
  induction completion as [|mr rest IH]; intros completed self.
  - exists []. cbn. rewrite app_nil_r.
    split_and!; auto using same_collaborators_refl.
  - cbn [parallel_loop]. cbn zeta.
    set (msg := String.append "Completed MR #" _).
    set (self1 :=
           match worker mr with
           | Return result =>
               match _update_progress (append_result self result)
                       (Datatypes.S completed) total_mrs msg with
               | (Return _, self0) => self0
               | (Raise e, self0) =>
                   append_result self0 (error_result clock mr review_type e)
               end
           | Raise e =>
               append_result self (error_result clock mr review_type e)
           end).
    assert (H1 : exists one,
              same_collaborators self self1 /\
              results self1 = results self ++ one /\
              (1 <= length one <= 2)%nat /\
              List.filter success one
              = List.filter success [settled worker clock review_type mr] /\
              List.filter review_posted one
              = List.filter review_posted
                  [settled worker clock review_type mr]).
    { unfold self1, settled. destruct (worker mr) as [r|e].
      - destruct (update_progress_any (append_result self r)
                    (Datatypes.S completed) total_mrs msg)
          as (Hsame0 & Hres0 & _).
        destruct (_update_progress (append_result self r)
                    (Datatypes.S completed) total_mrs msg)
          as [[u|e] self0]; cbn [snd] in *.
        + exists [r]. split_and!; cbn; try lia; try reflexivity.
          * eapply same_collaborators_trans; [apply append_result_same|].
            exact Hsame0.
          * rewrite Hres0. reflexivity.
        + exists [r; error_result clock mr review_type e].
          split_and!; cbn; try lia.
          * eapply same_collaborators_trans; [apply append_result_same|].
            eapply same_collaborators_trans; [exact Hsame0|].
            apply append_result_same.
          * rewrite Hres0. cbn. rewrite <- app_assoc. reflexivity.
          * destruct (success r); reflexivity.
          * destruct (review_posted r); reflexivity.
      - exists [error_result clock mr review_type e].
        split_and!; cbn; try lia; try reflexivity.
        apply append_result_same. }
    destruct H1 as (one & Hsame1 & Hres1 & Hlen1 & Hsucc1 & Hpost1).
    set (self2 := if negb (Qle_bool delay 0) then sleep self1 delay
                  else self1).
    assert (Hsame2 : same_collaborators self self2).
    { apply same_collaborators_trans with self1; [exact Hsame1|].
      unfold self2. destruct (negb (Qle_bool delay 0));
        [apply sleep_same|apply same_collaborators_refl]. }
    assert (Hres2 : results self2 = results self1)
      by (unfold self2; destruct (negb (Qle_bool delay 0)); reflexivity).
    destruct (IH (Datatypes.S completed) self2)
      as (new & Hsame & Hres & Hlen & Hsucc & Hpost).
    exists (one ++ new). split_and!.
    + now apply same_collaborators_trans with self2.
    + rewrite Hres, Hres2, Hres1, <- app_assoc. reflexivity.
    + rewrite length_app. cbn [length]. lia.
    + rewrite length_app. cbn [length]. lia.
    + rewrite List.filter_app, Hsucc1, Hsucc. cbn [List.map].
      change (settled worker clock review_type mr
              :: List.map (settled worker clock review_type) rest)
        with ([settled worker clock review_type mr]
              ++ List.map (settled worker clock review_type) rest).
      now rewrite List.filter_app.
    + rewrite List.filter_app, Hpost1, Hpost. cbn [List.map].
      change (settled worker clock review_type mr
              :: List.map (settled worker clock review_type) rest)
        with ([settled worker clock review_type mr]
              ++ List.map (settled worker clock review_type) rest).
      now rewrite List.filter_app.
Qed.

Lemma posted_is_success self clock mr review_type post_review :
  review_posted (_process_single_mr self clock mr review_type post_review)
  = true ->
  success (_process_single_mr self clock mr review_type post_review) = true.
Proof.
  unfold _process_single_mr.
  destruct (single_mr_pipeline self clock mr review_type post_review)
    as [r|e] eqn:Hp; [|discriminate].
  intros _. now destruct (UnitProps.pipeline_result _ _ _ _ _ _ Hp).
Qed.

Lemma count_if_le_count_if {A} (p q : A -> bool) (l : list A) :
  (forall x, In x l -> p x = true -> q x = true) ->
  (count_if p l <= count_if q l)%nat.
Proof.
  unfold count_if. induction l as [|x l IH]; intros H; [reflexivity|].
  cbn. specialize (IH (fun y Hy => H y (or_intror Hy))).
  pose proof (H x (or_introl eq_refl)) as Hx.
  destruct (p x), (q x); cbn; try lia.
Qed.

(** What [process_project_mrs] leaves in [self.results], for any callback:
    sequentially, the results of a prefix of the units; in parallel, once
    the first progress call has returned, one or two records per unit. *)
Lemma run_results self clock schedule project_path review_type mr_state
    max_reviews post_reviews parallel_workers delay filters :
  let mrs := _get_mrs_to_process self project_path mr_state max_reviews
               filters in
  let f := fun mr => _process_single_mr self clock mr review_type
                       post_reviews in
  let r := process_project_mrs self clock schedule project_path review_type
             mr_state max_reviews post_reviews parallel_workers delay
             filters in
  (fst r = _create_empty_summary clock project_path review_type \/
   exists errs, fst r = summarize (snd r) clock project_path review_type errs)
  /\
  ((exists k, (k <= length mrs)%nat /\
      results (snd r) = List.map f (firstn k mrs) /\
      (errors (fst r) = [] -> (parallel_workers <= 1)%Z -> k = length mrs) /\
      ((1 < parallel_workers)%Z -> k = O /\ (mrs = [] \/ errors (fst r) <> [])))
   \/
   ((1 < parallel_workers)%Z /\
    (length (schedule mrs) <= length (results (snd r))
     <= 2 * length (schedule mrs))%nat /\
    List.filter success (results (snd r))
    = List.filter success (List.map f (schedule mrs)) /\
    List.filter review_posted (results (snd r))
    = List.filter review_posted (List.map f (schedule mrs)))).
Proof.
  intros mrs f r. subst r. unfold process_project_mrs.
  rewrite get_mrs_set_results. fold mrs.
  destruct (Nat.eqb (length mrs) 0) eqn:Hlen.
  { apply Nat.eqb_eq in Hlen. destruct mrs; [|discriminate].
    cbn [fst snd]. split; [left; reflexivity|]. left. exists O. cbn.
    split_and!; auto. }
  set (self0 := set_results self []).
  assert (Hsame0 : same_collaborators self self0) by (repeat split).
  destruct (update_progress_any self0 0 (length mrs)
              "Starting batch processing...") as (Hsame1 & Hres1 & _).
  destruct (_update_progress self0 0 (length mrs)
              "Starting batch processing...") as [[u|e] self1];
    cbn [snd] in *.
  2:{ cbn [fst snd]. split; [right; eauto|]. left. exists O.
      rewrite Hres1. cbn.
      split_and!; try lia; try reflexivity; try discriminate.
      intros _. split; [reflexivity|right; discriminate]. }
  assert (Hsame01 : same_collaborators self self1)
    by (apply same_collaborators_trans with self0; assumption).
  assert (Hf : forall l,
            List.map (fun mr => _process_single_mr self1 clock mr
                                  review_type post_reviews) l
            = List.map f l).
  { intros l. apply map_ext. intros mr. now apply process_single_mr_ext. }
  destruct (Z.ltb_spec 1 parallel_workers) as [Hpar|Hseq].
  - unfold _process_parallel, parallel_with.
    destruct (parallel_loop_any
                (fun mr => Return (_process_single_mr self1 clock mr
                                     review_type post_reviews))
                clock review_type (length mrs) delay (schedule mrs) 0 self1)
      as (new & Hsame2 & Hres2 & Hlen2 & Hsucc & Hpost).
    set (self2 := parallel_loop _ clock review_type (length mrs) delay 0
                    (schedule mrs) self1) in *.
    destruct (update_progress_any self2 (length mrs) (length mrs)
                "Parallel processing completed") as (_ & Hres3 & _).
    destruct (_update_progress self2 (length mrs) (length mrs)
                "Parallel processing completed") as [o self3].
    cbn [fst snd] in *. split; [right; eauto|]. right.
    rewrite Hres3, Hres2, Hres1. cbn [results set_results self0 app].
    unfold settled in Hsucc, Hpost. rewrite Hf in Hsucc, Hpost.
    split_and!; try assumption; lia.
  - unfold _process_sequential, sequential_with.
    destruct (sequential_loop_any
                (fun mr => _process_single_mr self1 clock mr review_type
                             post_reviews)
                (length mrs) delay mrs 1%nat self1)
      as (k & Hk & Hsame2 & Hres2 & Hall).
    destruct (sequential_loop _ (length mrs) delay 1 mrs self1)
      as [[u'|e] self2]; cbn [fst snd] in *.
    + destruct (update_progress_any self2 (length mrs) (length mrs)
                  "Batch processing completed") as (_ & Hres3 & _).
      destruct (_update_progress self2 (length mrs) (length mrs)
                  "Batch processing completed") as [o self3].
      cbn [fst snd] in *. split; [right; eauto|]. left. exists k.
      rewrite Hres3, Hres2, Hres1, Hf. cbn [results set_results self0 app].
      split_and!; try lia; try reflexivity.
      intros _ _. now apply Hall.
    + split; [right; eauto|]. left. exists k.
      rewrite Hres2, Hres1, Hf. cbn [results set_results self0 app].
      split_and!; try lia; try reflexivity. discriminate.
Qed.

(** The counts of the summary are those of the results left in
    [self.results]. *)
Lemma summary_fields self clock schedule project_path review_type mr_state
    max_reviews post_reviews parallel_workers delay filters :
  let r := process_project_mrs self clock schedule project_path review_type
             mr_state max_reviews post_reviews parallel_workers delay
             filters in
  total_mrs (fst r) = length (results (snd r)) /\
  successful_reviews (fst r) = count_if success (results (snd r)) /\
  failed_reviews (fst r)
  = (length (results (snd r)) - count_if success (results (snd r)))%nat /\
  reviews_posted (fst r) = count_if review_posted (results (snd r)).
Proof.
  cbn zeta. unfold process_project_mrs.
  destruct (Nat.eqb _ 0); [cbn; auto|].
  match goal with
  | |- context [let '(o, self0) := ?x in _] => destruct x as [o self']
  end.
  cbn. auto.
Qed.

Lemma success_rate_range (s : BatchSummary) :
  (successful_reviews s <= total_mrs s)%nat ->
  (0 <= success_rate s /\ success_rate s <= 100)%Q.
Proof.
  intros Hle. unfold success_rate.
  destruct (Nat.eqb_spec (total_mrs s) 0) as [Hz|Hnz].
  - split; [apply Qle_refl|]. vm_compute. discriminate.
  - set (a := inject_Z (Z.of_nat (successful_reviews s))).
    set (b := inject_Z (Z.of_nat (total_mrs s))).
    assert (Ha : (0 <= a)%Q).
    { unfold a. rewrite <- (Zle_Qle 0). lia. }
    assert (Hb : (0 < b)%Q).
    { unfold b. rewrite <- (Zlt_Qlt 0). lia. }
    assert (Hab : (a <= b)%Q).
    { unfold a, b. rewrite <- Zle_Qle. lia. }
    assert (Hdiv0 : (0 <= a / b)%Q).
    { apply Qle_shift_div_l; [exact Hb|]. now rewrite Qmult_0_l. }
    assert (Hdiv1 : (a / b <= 1)%Q).
    { apply Qle_shift_div_r; [exact Hb|]. now rewrite Qmult_1_l. }
    split.
    + apply Qmult_le_0_compat; [exact Hdiv0|]. vm_compute. discriminate.
    + apply Qle_trans with (1 * 100)%Q; [|vm_compute; discriminate].
      apply Qmult_le_compat_r; [exact Hdiv1|]. vm_compute. discriminate.
Qed.
End AnyCallback.

(** Sequential dispatch with any progress callback: the results collected
    are those of the first [k] units, in order, where the run was cut short
    by an exception or [k] is the number of units; the summary counts [k]
    units, and a summary without run-level error covers every unit. *)
Theorem sequential_run_keeps_prefix {Changes S : Type}
    (self : BatchProcessor Changes S) clock schedule project_path
    review_type mr_state max_reviews post_reviews parallel_workers delay
    filters
    (Hseq : (parallel_workers <= 1)%Z) :
  let mrs := _get_mrs_to_process self project_path mr_state max_reviews
               filters in
  let f := fun mr => _process_single_mr self clock mr review_type
                       post_reviews in
  let r := process_project_mrs self clock schedule project_path review_type
             mr_state max_reviews post_reviews parallel_workers delay
             filters in
  exists k,
    (k <= length mrs)%nat /\
    results (snd r) = List.map f (firstn k mrs) /\
    total_mrs (fst r) = k /\
    (errors (fst r) = [] -> k = length mrs).
Proof.
  cbn zeta.
  destruct (run_results self clock schedule project_path review_type
              mr_state max_reviews post_reviews parallel_workers delay
              filters) as (_ & [(k & Hk & Hres & Hall & _)|(Hpar & _)]);
    [|lia].
  destruct (summary_fields self clock schedule project_path review_type
              mr_state max_reviews post_reviews parallel_workers delay
              filters) as (Htot & _).
  exists k. split_and!; [exact Hk|exact Hres| |].
  - rewrite Htot, Hres, length_map, length_firstn. lia.
  - intros He. now apply Hall.
Qed.

Lemma sequential_run_keeps_prefix_witness :
  exists k,
    (k <= 1)%nat /\
    results
      (snd (process_project_mrs
              (set_progress_callback (sample_processor [sample_mr 1])
                 raise_when_done)
              sample_clock (fun l => l) "group/project" "general" "opened"
              10 false 1 0 None))
    = List.map
        (fun mr =>
           _process_single_mr
             (set_progress_callback (sample_processor [sample_mr 1])
                raise_when_done)
             sample_clock mr "general" false)
        (firstn k [sample_mr 1]).
Proof.
  destruct (sequential_run_keeps_prefix
              (set_progress_callback (sample_processor [sample_mr 1])
                 raise_when_done)
              sample_clock (fun l => l) "group/project" "general" "opened"
              10 false 1 0 None) as (k & Hk & Hres & _); [lia|].
  exists k. split; [exact Hk|exact Hres].
Defined.

(** Parallel dispatch with any progress callback: unless the run has no
    unit or its first progress call raised, every unit is recorded at
    least once and at most twice, and the successful and the posted counts
    of the summary are exactly those of the units' own pipelines: a
    callback that raises adds failed records only. *)
Theorem parallel_run_records_every_unit {Changes S : Type}
    (self : BatchProcessor Changes S) clock schedule project_path
    review_type mr_state max_reviews post_reviews parallel_workers delay
    filters
    (Hpar : (1 < parallel_workers)%Z)
    (Hsched : forall l, Permutation (schedule l) l) :
  let mrs := _get_mrs_to_process self project_path mr_state max_reviews
               filters in
  let f := fun mr => _process_single_mr self clock mr review_type
                       post_reviews in
  let r := process_project_mrs self clock schedule project_path review_type
             mr_state max_reviews post_reviews parallel_workers delay
             filters in
  (results (snd r) = [] /\ (mrs = [] \/ errors (fst r) <> [])) \/
  ((length mrs <= total_mrs (fst r) <= 2 * length mrs)%nat /\
   successful_reviews (fst r) = count_if success (List.map f mrs) /\
   reviews_posted (fst r) = count_if review_posted (List.map f mrs)).
Proof.
  cbn zeta.
  destruct (summary_fields self clock schedule project_path review_type
              mr_state max_reviews post_reviews parallel_workers delay
              filters) as (Htot & Hsucc & _ & Hposted).
  destruct (run_results self clock schedule project_path review_type
              mr_state max_reviews post_reviews parallel_workers delay
              filters)
    as (_ & [(k & _ & Hres & _ & Hzero)|(_ & Hlen & Hfs & Hfp)]).
  - destruct (Hzero Hpar) as (-> & Hwhy). left. split; [exact Hres|exact Hwhy].
  - right. rewrite Htot, Hsucc, Hposted.
    rewrite (Permutation_length (Hsched _)) in Hlen.
    split; [exact Hlen|]. unfold count_if at 1 3. rewrite Hfs, Hfp.
    split;
      [apply (count_if_perm success)|apply (count_if_perm review_posted)];
      apply Permutation_map, Hsched.
Qed.

Lemma parallel_run_records_every_unit_witness :
  let r := process_project_mrs
             (set_progress_callback (sample_processor [sample_mr 1])
                raise_when_done)
             sample_clock (@rev MergeRequest) "group/project" "general"
             "opened" 10 false 3 0 None in
  (results (snd r) = [] /\
   ([sample_mr 1] = [] \/ errors (fst r) <> [])) \/
  ((1 <= total_mrs (fst r) <= 2)%nat /\
   successful_reviews (fst r) = 1%nat /\ reviews_posted (fst r) = O).
Proof.
  apply (parallel_run_records_every_unit
           (set_progress_callback (sample_processor [sample_mr 1])
              raise_when_done)
           sample_clock (@rev MergeRequest) "group/project" "general"
           "opened" 10 false 3 0 None).
  - lia.
  - intros l. symmetry. apply Permutation_rev.
Defined.

(** In the summary of every run, whatever the callback, the worker count
    and the completion order: [reviews_posted <= successful_reviews <=
    total_mrs], [successful_reviews + failed_reviews = total_mrs], and
    [success_rate()] lies between 0 and 100. *)
Theorem summary_bounds {Changes S : Type}
    (self : BatchProcessor Changes S) clock schedule project_path
    review_type mr_state max_reviews post_reviews parallel_workers delay
    filters :
  let s := fst (process_project_mrs self clock schedule project_path
                  review_type mr_state max_reviews post_reviews
                  parallel_workers delay filters) in
  (reviews_posted s <= successful_reviews s)%nat /\
  (successful_reviews s <= total_mrs s)%nat /\
  (successful_reviews s + failed_reviews s)%nat = total_mrs s /\
  (0 <= success_rate s)%Q /\ (success_rate s <= 100)%Q.
Proof.
  cbn zeta.
  destruct (summary_fields self clock schedule project_path review_type
              mr_state max_reviews post_reviews parallel_workers delay
              filters) as (Htot & Hsucc & Hfail & Hposted).
  set (r := process_project_mrs self clock schedule project_path review_type
              mr_state max_reviews post_reviews parallel_workers delay
              filters) in *.
  assert (Hle : (successful_reviews (fst r) <= total_mrs (fst r))%nat)
    by (rewrite Hsucc, Htot; apply count_if_le).
  assert (Hpost : (reviews_posted (fst r) <= successful_reviews (fst r))%nat).
  { rewrite Hposted, Hsucc.
    assert (Himg : forall l : list MergeRequest,
              (count_if review_posted
                 (List.map (fun mr => _process_single_mr self clock mr
                                        review_type post_reviews) l)
               <= count_if success
                    (List.map (fun mr => _process_single_mr self clock mr
                                           review_type post_reviews) l))%nat).
    { intros l. apply count_if_le_count_if. intros x Hin.
      apply in_map_iff in Hin. destruct Hin as (mr & <- & _).
      apply posted_is_success. }
    destruct (run_results self clock schedule project_path review_type
                mr_state max_reviews post_reviews parallel_workers delay
                filters)
      as (_ & [(k & _ & Hres & _)|(_ & _ & Hfs & Hfp)]).
    - unfold r. rewrite Hres. apply Himg.
    - unfold r. unfold count_if at 1 2. rewrite Hfs, Hfp. apply Himg. }
  split_and!; [exact Hpost|exact Hle|rewrite Hfail, Hsucc, Htot in *; lia| |];
    now apply success_rate_range.
Qed.

Section Sleeps.
Context {Changes S : Type}.
Implicit Types (self : BatchProcessor Changes S) (mr : MergeRequest).

Lemma slept_sleep self d : slept (sleep self d) = slept self ++ [d].
Proof. reflexivity. Qed.

Lemma slept_append_result self r : slept (append_result self r) = slept self.
Proof. reflexivity. Qed.

(** The sequential loop sleeps after every unit but the last. *)
Lemma sequential_loop_sleeps (f : MergeRequest -> BatchResult)
    (total_mrs : nat) (delay : Q) (mrs : list MergeRequest) :
  forall i self,
    callback_never_raises self ->
    (i + length mrs = total_mrs + 1)%nat ->
    slept (snd (sequential_loop (fun mr => Return (f mr)) total_mrs delay i
                  mrs self))
    = slept self
      ++ (if Qle_bool delay 0 then []
          else repeat delay (Nat.pred (length mrs))).
Proof.
  induction mrs as [|mr rest IH]; intros i self Hcb Hi.
  - cbn. destruct (Qle_bool delay 0); now rewrite app_nil_r.
  - cbn [sequential_loop].
    destruct (update_progress_ok self (i - 1) total_mrs
                (String.append "Processing MR #" (pretty (iid mr))) Hcb)
      as (self1 & -> & Hsame1 & _ & Hsl1).
    cbn [length] in Hi.
    set (self2 := append_result self1 (f mr)).
    assert (Hcb2 : callback_never_raises self2).
    { apply (never_raises_ext self self2); [|exact Hcb].
      apply same_collaborators_trans with self1;
        [exact Hsame1|apply append_result_same]. }
    destruct rest as [|mr2 rest].
    + replace (Nat.ltb i total_mrs) with false
        by (symmetry; apply Nat.ltb_ge; cbn in Hi; lia).
      cbn. rewrite Hsl1. destruct (Qle_bool delay 0); now rewrite app_nil_r.
    + replace (Nat.ltb i total_mrs) with true
        by (symmetry; apply Nat.ltb_lt; cbn in Hi; lia).
      cbn [andb]. destruct (Qle_bool delay 0) eqn:Hd; cbn [negb].
      * rewrite IH by (assumption || (cbn [length] in *; lia)).
        cbn. rewrite Hsl1. reflexivity.
      * rewrite IH;
          [|apply (never_raises_ext self2); [apply sleep_same|exact Hcb2]
           |cbn [length] in *; lia].
        rewrite slept_sleep. unfold self2.
        rewrite slept_append_result, Hsl1, <- app_assoc. reflexivity.
Qed.

(** The parallel loop sleeps after every completion, whatever the callback
    does. *)
Lemma parallel_loop_sleeps (worker : MergeRequest -> Outcome BatchResult)
    (clock : RunClock) (review_type : string) (total_mrs : nat)
    (delay : Q) (completion : list MergeRequest) :
  forall completed self,
    slept (parallel_loop worker clock review_type total_mrs delay completed
             completion self)
    = slept self
      ++ (if Qle_bool delay 0 then []
          else repeat delay (length completion)).
Proof.
  induction completion as [|mr rest IH]; intros completed self.
  - cbn. destruct (Qle_bool delay 0); now rewrite app_nil_r.
  - cbn [parallel_loop]. cbn zeta. rewrite IH.
    set (msg := String.append "Completed MR #" _).
    assert (H1 : slept
                   match worker mr with
                   | Return result =>
                       match _update_progress (append_result self result)
                               (Datatypes.S completed) total_mrs msg with
                       | (Return _, self0) => self0
                       | (Raise e, self0) =>
                           append_result self0
                             (error_result clock mr review_type e)
                       end
                   | Raise e =>
                       append_result self
                         (error_result clock mr review_type e)
                   end
                 = slept self).
    { destruct (worker mr) as [r|e]; [|reflexivity].
      destruct (update_progress_any (append_result self r)
                  (Datatypes.S completed) total_mrs msg) as (_ & _ & Hsl).
      destruct (_update_progress (append_result self r)
                  (Datatypes.S completed) total_mrs msg) as [[u|e] self0];
        cbn [snd] in Hsl; cbn; rewrite Hsl; reflexivity. }
    destruct (Qle_bool delay 0); cbn [negb length repeat].
    + rewrite H1. reflexivity.
    + rewrite slept_sleep, H1, <- app_assoc. reflexivity.
Qed.
End Sleeps.

(** The courtesy delay, in a run whose callback does not raise: with a
    positive [delay_between_reviews], sequential dispatch sleeps it once
    between consecutive units and not after the last (N - 1 times), and
    parallel dispatch once after every completion (N times); with a delay
    that is not positive no sleep is made. *)
Theorem inter_unit_delays {Changes S : Type}
    (self : BatchProcessor Changes S) clock schedule project_path
    review_type mr_state max_reviews post_reviews parallel_workers delay
    filters
    (Hcb : callback_never_raises self)
    (Hsched : forall l, Permutation (schedule l) l) :
  let mrs := _get_mrs_to_process self project_path mr_state max_reviews
               filters in
  let r := process_project_mrs self clock schedule project_path review_type
             mr_state max_reviews post_reviews parallel_workers delay
             filters in
  slept (snd r)
  = slept self
    ++ (if Qle_bool delay 0 then []
        else repeat delay (if (1 <? parallel_workers)%Z then length mrs
                           else Nat.pred (length mrs))).
Proof.
  intros mrs r. subst r. unfold process_project_mrs.
  rewrite get_mrs_set_results. fold mrs.
  destruct (Nat.eqb (length mrs) 0) eqn:Hlen.
  { apply Nat.eqb_eq in Hlen. rewrite Hlen. cbn.
    destruct (Qle_bool delay 0), (1 <? parallel_workers)%Z;
      now rewrite app_nil_r. }
  set (self0 := set_results self []).
  assert (Hsame0 : same_collaborators self self0) by (repeat split).
  assert (Hcb0 : callback_never_raises self0)
    by (apply (never_raises_ext self self0); assumption).
  destruct (update_progress_ok self0 0 (length mrs)
              "Starting batch processing..." Hcb0)
    as (self1 & -> & Hsame1 & _ & Hsl1).
  assert (Hcb1 : callback_never_raises self1)
    by (apply (never_raises_ext self0 self1); assumption).
  destruct (1 <? parallel_workers)%Z.
  - unfold _process_parallel, parallel_with.
    pose proof (parallel_loop_sleeps
                  (fun mr => Return (_process_single_mr self1 clock mr
                                       review_type post_reviews))
                  clock review_type (length mrs) delay (schedule mrs) 0
                  self1) as Hsl2.
    destruct (parallel_loop_ok
                (fun mr => Return (_process_single_mr self1 clock mr
                                     review_type post_reviews))
                clock review_type (length mrs) delay (schedule mrs) 0
                self1 Hcb1) as [Hsame2 _].
    set (self2 := parallel_loop _ clock review_type (length mrs) delay 0
                    (schedule mrs) self1) in *.
    destruct (update_progress_ok self2 (length mrs) (length mrs)
                "Parallel processing completed"
                (never_raises_ext _ _ Hsame2 Hcb1))
      as (self3 & -> & _ & _ & Hsl3).
    cbn [fst snd]. rewrite Hsl3, Hsl2, Hsl1.
    now rewrite (Permutation_length (Hsched mrs)).
  - unfold _process_sequential, sequential_with.
    pose proof (sequential_loop_sleeps
                  (fun mr => _process_single_mr self1 clock mr review_type
                               post_reviews)
                  (length mrs) delay mrs 1%nat self1 Hcb1 ltac:(lia))
      as Hsl2.
    destruct (sequential_loop_ok
                (fun mr => _process_single_mr self1 clock mr review_type
                             post_reviews)
                (length mrs) delay mrs 1%nat self1 Hcb1)
      as (self2 & Heq & Hsame2 & _).
    cbv beta in Hsl2, Heq. rewrite Heq in Hsl2. rewrite Heq.
    cbn [snd] in Hsl2.
    destruct (update_progress_ok self2 (length mrs) (length mrs)
                "Batch processing completed"
                (never_raises_ext _ _ Hsame2 Hcb1))
      as (self3 & -> & _ & _ & Hsl3).
    cbn [fst snd]. rewrite Hsl3, Hsl2, Hsl1. reflexivity.
Qed.

Lemma inter_unit_delays_witness :
  slept
    (snd (process_project_mrs
            (sample_processor [sample_mr 1; sample_mr 2; sample_mr 3])
            sample_clock (@rev MergeRequest) "group/project" "general"
            "opened" 10 false 1 1 None))
  = [1%Q; 1%Q].
Proof.
  apply (inter_unit_delays
           (sample_processor [sample_mr 1; sample_mr 2; sample_mr 3])
           sample_clock (@rev MergeRequest) "group/project" "general"
           "opened" 10 false 1 1 None).
  - exact I.
  - intros l. symmetry. apply Permutation_rev.
Defined.

End RunProps.

(** ** Error statistics and cleanup *)

Module StatisticsProps.
Import Recovery Statistics.

Local Open Scope list_scope.

Lemma occurrences_cons (k a : string) (keys : list string) :
  occurrences k (a :: keys)
  = if String.eqb k a then Datatypes.S (occurrences k keys)
    else occurrences k keys.
Proof. unfold occurrences. cbn. now destruct (String.eqb k a). Qed.

(** What a dictionary filled by [bump] holds. *)
Lemma bump_lookup (keys : list string) : forall (acc : gmap string nat) k,
  fold_left bump keys acc !! k
  = match occurrences k keys with
    | O => acc !! k
    | n => Some (default O (acc !! k) + n)%nat
    end.
Proof.
  induction keys as [|a rest IH]; intros acc k; [reflexivity|].
  cbn [fold_left]. rewrite IH, occurrences_cons. unfold bump.
  destruct (String.eqb_spec k a) as [->|Hne].
  - rewrite lookup_insert_eq. cbn.
    destruct (occurrences a rest); f_equal; lia.
  - rewrite lookup_insert_ne by congruence. reflexivity.
Qed.

Lemma tally_lookup (keys : list string) (k : string) :
  fold_left bump keys ∅ !! k = tally_entry k keys.
Proof.
  rewrite bump_lookup. unfold tally_entry.
  destruct (occurrences k keys); [apply lookup_empty|].
  rewrite lookup_empty. reflexivity.
Qed.

(** The loop fills each of the four dictionaries on its own. *)
Lemma count_events_split (events : list ErrorContext) : forall c,
  let c' := fold_left count_event events c in
  c_error_types c'
  = fold_left bump (List.map error_type events) (c_error_types c) /\
  c_components c'
  = fold_left bump (List.map component events) (c_components c) /\
  c_operations c'
  = fold_left bump (List.map operation events) (c_operations c) /\
  c_recovery_actions c'
  = fold_left bump (counted_actions events) (c_recovery_actions c).
Proof.
  induction events as [|e rest IH]; intros c; [cbn; auto|].
  cbn [fold_left List.map]. cbn zeta.
  destruct (IH (count_event c e)) as (H1 & H2 & H3 & H4).
  rewrite H1, H2, H3, H4. split_and!; try reflexivity.
  unfold counted_actions. cbn [count_event c_recovery_actions].
  change (omap recovery_action (e :: rest))
    with (match recovery_action e with
          | Some a => a :: omap recovery_action rest
          | None => omap recovery_action rest
          end).
  destruct (recovery_action e) as [a|]; [|reflexivity].
  cbn [List.filter]. destruct (String.eqb a ""); reflexivity.
Qed.

Section Clock.
Variable fromisoformat : string -> Outcome Q.

(** The events strictly newer than [cutoff]. *)
Lemma newer_than_readable (cutoff : Q) (events : list ErrorContext) :
  readable fromisoformat events ->
  newer_than fromisoformat cutoff events
  = Return (List.filter
              (fun e => negb (Qle_bool (instant fromisoformat e) cutoff))
              events).
Proof.
  induction events as [|e rest IH]; intros Hr; [reflexivity|].
  cbn [newer_than List.filter]. unfold instant at 1.
  pose proof (Hr e (or_introl eq_refl)) as He.
  destruct (fromisoformat (timestamp e)) as [t|x]; [|discriminate].
  rewrite IH by (intros e' He'; apply Hr; now right).
  destruct (Qle_bool t cutoff); reflexivity.
Qed.

Lemma newer_than_unreadable (cutoff : Q) (events : list ErrorContext) :
  (exists e, In e events /\ raised (fromisoformat (timestamp e)) = true) ->
  raised (newer_than fromisoformat cutoff events) = true.
Proof.
  induction events as [|e rest IH]; intros (e' & Hin & He'); [destruct Hin|].
  cbn [newer_than].
  destruct (fromisoformat (timestamp e)) as [t|x] eqn:Ht; [|reflexivity].
  destruct Hin as [<-|Hin]; [rewrite Ht in He'; discriminate|].
  assert (H : raised (newer_than fromisoformat cutoff rest) = true)
    by (apply IH; eauto).
  destruct (newer_than fromisoformat cutoff rest); [discriminate|reflexivity].
Qed.

(** [get_error_statistics] gives the empty answer for an empty history.
    Otherwise, when every timestamp can be read: [total_errors] is the
    length of the history; each of the dictionaries by class, component
    and operation holds, for every key, the number of events with that key
    and has no entry for a key without event; [recovery_actions] counts
    the events by their action, leaving out the events without one; and
    [recent_errors], equal to [error_rate_last_hour], is the number of
    events strictly newer than one hour, at most [total_errors]. *)
Theorem error_statistics_counts (m : ErrorRecoveryManager) (now : Q) :
  (error_history m = [] ->
   get_error_statistics fromisoformat m now = Return None) /\
  (error_history m <> [] -> readable fromisoformat (error_history m) ->
   exists st,
     get_error_statistics fromisoformat m now = Return (Some st) /\
     total_errors st = length (error_history m) /\
     (forall k, error_types st !! k
                = tally_entry k (List.map error_type (error_history m))) /\
     (forall k, affected_components st !! k
                = tally_entry k (List.map component (error_history m))) /\
     (forall k, affected_operations st !! k
                = tally_entry k (List.map operation (error_history m))) /\
     (forall k, recovery_actions st !! k
                = tally_entry k (counted_actions (error_history m))) /\
     recent_errors st
     = length (List.filter
                 (fun e => negb (Qle_bool (instant fromisoformat e)
                                   (now - 3600)%Q))
                 (error_history m)) /\
     error_rate_last_hour st = recent_errors st /\
     (recent_errors st <= total_errors st)%nat).
Proof.
  unfold get_error_statistics. split.
  - intros ->. reflexivity.
  - intros Hne Hread.
    destruct (error_history m) as [|e rest] eqn:Hh; [congruence|].
    rewrite (newer_than_readable _ _ Hread).
    destruct (count_events_split (e :: rest) (mkCounters ∅ ∅ ∅ ∅))
      as (H1 & H2 & H3 & H4).
    eexists. split; [reflexivity|]. cbn [total_errors recent_errors
      error_types affected_components affected_operations recovery_actions
      error_rate_last_hour].
    rewrite H1, H2, H3, H4. cbn [c_error_types c_components c_operations
      c_recovery_actions].
    split_and!; try reflexivity; try (intros k; apply tally_lookup).
    apply List.filter_length_le.
Qed.

(** [cleanup_old_errors], when every timestamp can be read, keeps exactly
    the events strictly newer than [now - max_age_hours], in their order,
    and leaves the registries alone; cleaning up again at the same instant
    removes nothing more. *)
Theorem cleanup_keeps_newer (m : ErrorRecoveryManager) (now : Q)
    (max_age_hours : Z)
    (Hread : readable fromisoformat (error_history m)) :
  let cutoff := (now - inject_Z max_age_hours * 3600)%Q in
  let r := cleanup_old_errors fromisoformat m now max_age_hours in
  fst r = Return tt /\
  error_history (snd r)
  = List.filter
      (fun e => negb (Qle_bool (instant fromisoformat e) cutoff))
      (error_history m) /\
  (forall e, In e (error_history (snd r))
             <-> In e (error_history m)
                 /\ (cutoff < instant fromisoformat e)%Q) /\
  recovery_strategies (snd r) = recovery_strategies m /\
  fallback_handlers (snd r) = fallback_handlers m /\
  cleanup_old_errors fromisoformat (snd r) now max_age_hours
  = (Return tt, snd r).
Proof.
  cbn zeta. unfold cleanup_old_errors.
  rewrite (newer_than_readable _ _ Hread). cbn [fst snd error_history
    recovery_strategies fallback_handlers].
  split_and!; try reflexivity.
  - intros e. rewrite List.filter_In. split; intros (Hin & Hc);
      (split; [exact Hin|]).
    + apply negb_true_iff in Hc. apply Qnot_le_lt. intros Hle.
      apply Qle_bool_iff in Hle. congruence.
    + apply negb_true_iff. destruct (Qle_bool _ _) eqn:Hb; [|reflexivity].
      apply Qle_bool_iff in Hb. exfalso. exact (Qlt_not_le _ _ Hc Hb).
  - rewrite newer_than_readable.
    + f_equal. f_equal.
      rewrite SelectionProps.filter_twice. apply List.filter_ext.
      intros e. apply andb_diag.
    + intros e He. apply List.filter_In in He. apply Hread, He.
Qed.

(** When a timestamp of the history cannot be read, [cleanup_old_errors]
    raises and the history is left as it was. *)
Theorem cleanup_unreadable_keeps_history (m : ErrorRecoveryManager)
    (now : Q) (max_age_hours : Z)
    (Hbad : exists e, In e (error_history m) /\
                      raised (fromisoformat (timestamp e)) = true) :
  let r := cleanup_old_errors fromisoformat m now max_age_hours in
  raised (fst r) = true /\ snd r = m.
Proof.
  cbn zeta. unfold cleanup_old_errors.
  pose proof (newer_than_unreadable
                (now - inject_Z max_age_hours * 3600)%Q _ Hbad) as H.
  destruct (newer_than fromisoformat _ (error_history m));
    [discriminate|]. cbn. auto.
Qed.
End Clock.

Lemma cleanup_keeps_newer_witness :
  error_history
    (snd (cleanup_old_errors hours_stamp
            (mkManager [stamped "old_op" "25h ago"; stamped "recent_op" "now"]
               ∅ ∅)
            0 24))
  = [stamped "recent_op" "now"].
Proof.
  apply (cleanup_keeps_newer hours_stamp
           (mkManager [stamped "old_op" "25h ago"; stamped "recent_op" "now"]
              ∅ ∅)
           0 24).
  intros e [<-|[<-|[]]]; reflexivity.
Defined.

Lemma cleanup_unreadable_keeps_history_witness :
  snd (cleanup_old_errors hours_stamp
         (mkManager [stamped "old_op" "25h ago"; stamped "op" "yesterday"]
            ∅ ∅)
         0 24)
  = mkManager [stamped "old_op" "25h ago"; stamped "op" "yesterday"] ∅ ∅.
Proof.
  apply (cleanup_unreadable_keeps_history hours_stamp
           (mkManager [stamped "old_op" "25h ago"; stamped "op" "yesterday"]
              ∅ ∅)
           0 24).
  exists (stamped "op" "yesterday"). split; [cbn; auto|reflexivity].
Defined.

Lemma error_statistics_counts_witness :
  exists st,
    get_error_statistics hours_stamp
      (mkManager [stamped "old_op" "25h ago"; stamped "recent_op" "now"] ∅ ∅)
      0
    = Return (Some st) /\
    total_errors st = 2%nat.
Proof.
  destruct (proj2 (error_statistics_counts hours_stamp
                     (mkManager [stamped "old_op" "25h ago";
                                 stamped "recent_op" "now"] ∅ ∅) 0))
    as (st & Hst & Htot & _).
  - discriminate.
  - intros e [<-|[<-|[]]]; reflexivity.
  - exists st. split; [exact Hst|exact Htot].
Defined.

End StatisticsProps.

(** ** Graceful degradation *)

Module DegradationProps.
Import Degradation.
Local Open Scope list_scope.

Lemma filter_all_length {A} (p : A -> bool) (l : list A) :
  length (List.filter p l) = length l <-> (forall x, In x l -> p x = true).
Proof.
  induction l as [|a l IH]; cbn; [split; [intros _ x []|reflexivity]|].
  destruct (p a) eqn:Hp; cbn.
  - split.
    + intros H x [<-|Hx]; [exact Hp|]. apply IH; [lia|exact Hx].
    + intros H. f_equal. apply IH. intros x Hx. apply H. now right.
  - split.
    + intros H. pose proof (List.filter_length_le p l). lia.
    + intros H. specialize (H a (or_introl eq_refl)). congruence.
Qed.

Lemma ratio_range (h t : nat) :
  (h <= t)%nat -> (0 < t)%nat ->
  (0 <= inject_Z (Z.of_nat h) / inject_Z (Z.of_nat t) <= 1)%Q /\
  ((inject_Z (Z.of_nat h) / inject_Z (Z.of_nat t) == 1)%Q <-> h = t).
Proof.
  intros Hle Hpos.
  assert (Ht : (0 < inject_Z (Z.of_nat t))%Q).
  { change 0%Q with (inject_Z 0). rewrite <- Zlt_Qlt. lia. }
  assert (Hh : (0 <= inject_Z (Z.of_nat h))%Q).
  { change 0%Q with (inject_Z 0). rewrite <- Zle_Qle. lia. }
  assert (Hht : (inject_Z (Z.of_nat h) <= inject_Z (Z.of_nat t))%Q).
  { rewrite <- Zle_Qle. lia. }
  assert (Heq : (inject_Z (Z.of_nat h) == inject_Z (Z.of_nat t))%Q
                <-> h = t).
  { split; [intros He; apply Nat2Z.inj, inject_Z_injective, He|now intros ->]. }
  rewrite <- Heq. clear Heq.
  generalize dependent (inject_Z (Z.of_nat h)).
  generalize dependent (inject_Z (Z.of_nat t)). intros qt Ht qh Hh Hht.
  assert (Hne : ~ (qt == 0)%Q) by (intros E; rewrite E in Ht; lra).
  split; [split|split].
  - apply Qle_shift_div_l; [exact Ht|]. lra.
  - apply Qle_shift_div_r; [exact Ht|]. lra.
  - intros H. rewrite <- (Qmult_div_r qh qt Hne), H. lra.
  - intros ->. now field.
Qed.

Section Features.
Context {W V : Type}.
Implicit Types (g : @GracefulDegradation W V) (f : @Feature W V).

Lemma check_registered g name now w f :
  feature_status g !! name = Some f ->
  check_feature_health g name now w
  = (verdict f w,
     mkDegradation (<[name := checked f now w]> (feature_status g)),
     snd (health_check f w)).
Proof.
  intros Hf. unfold check_feature_health, checked, verdict. rewrite Hf.
  destruct (health_check f w) as [[b|e] w']; cbn; [|reflexivity].
  destruct b; reflexivity.
Qed.

(** X22: [check_feature_health] on an unregistered name answers [False]
    without running anything.  On a registered feature it runs the health
    check once; the answer is the check's verdict, an exception counting as
    unhealthy; the entry of the feature then holds this verdict, the instant
    of the check and a failure count that is reset by a healthy verdict and
    increased by one otherwise, with the check and the degraded handler
    kept; every other entry of the registry is left alone. *)
Theorem health_check_records_verdict g name now w :
  let r := check_feature_health g name now w in
  match feature_status g !! name with
  | None => r = (false, g, w)
  | Some f =>
      fst (fst r) = verdict f w /\
      snd r = snd (health_check f w) /\
      feature_status (snd (fst r)) !! name = Some (checked f now w) /\
      (forall other, other <> name ->
         feature_status (snd (fst r)) !! other = feature_status g !! other)
  end.
Proof.
  cbn zeta. destruct (feature_status g !! name) as [f|] eqn:Hf.
  - rewrite (check_registered _ _ _ _ _ Hf). cbn.
    split_and!; try reflexivity.
    + apply lookup_insert_eq.
    + intros other Hne. apply lookup_insert_ne. congruence.
  - unfold check_feature_health. rewrite Hf. reflexivity.
Qed.

(** X23: [use_feature] raises [ValueError] for an unregistered name, with
    nothing run.  Otherwise it first checks the health of the feature, and
    the registry it leaves is the one this check leaves.  The operation is
    run exactly when the verdict of this check is healthy, whatever the
    registry said before; on an unhealthy verdict the degraded handler is
    run in its place, and without a handler the call raises. *)
Theorem use_feature_modes g name (operation : W -> Outcome V * W) now w :
  let r := use_feature g name operation now w in
  match feature_status g !! name with
  | None => r = (Raise (not_registered name), g, w)
  | Some f =>
      let w' := snd (health_check f w) in
      snd (fst r) = snd (fst (check_feature_health g name now w)) /\
      if verdict f w
      then (fst (fst r), snd r) = operation w'
      else match degraded_handler f with
           | Some handler => (fst (fst r), snd r) = handler w'
           | None => (fst (fst r), snd r) = (Raise (unavailable name), w')
           end
  end.
Proof.
  cbn zeta. unfold use_feature.
  destruct (feature_status g !! name) as [f|] eqn:Hf; [|reflexivity].
  rewrite (check_registered _ _ _ _ _ Hf). cbn [fst snd].
  destruct (verdict f w); cbn [negb].
  - destruct (operation _); auto.
  - destruct (degraded_handler f) as [h|]; [|auto].
    destruct (h _); auto.
Qed.

Lemma checked_consistent f now w :
  0 <= failure_count f ->
  0 <= failure_count (checked f now w) /\
  (healthy (checked f now w) = true -> failure_count (checked f now w) = 0).
Proof.
  intros H. unfold checked. cbn. destruct (verdict f w); split; first [lia|discriminate].
Qed.

Lemma check_consistent g name now w :
  counts_consistent g ->
  counts_consistent (snd (fst (check_feature_health g name now w))).
Proof.
  intros Hg. destruct (feature_status g !! name) as [f|] eqn:Hf.
  - rewrite (check_registered _ _ _ _ _ Hf). cbn [fst snd].
    intros k f' Hk. cbn in Hk.
    destruct (decide (k = name)) as [->|Hne].
    + rewrite lookup_insert_eq in Hk. injection Hk as <-.
      apply checked_consistent. apply (Hg _ _ Hf).
    + rewrite lookup_insert_ne in Hk by congruence. apply (Hg _ _ Hk).
  - unfold check_feature_health. rewrite Hf. exact Hg.
Qed.

(** X24: in a registry built by [register_feature] and updated by
    [check_feature_health] and [use_feature], no failure count is negative
    and a feature marked healthy has none counted: the empty registry has
    the property, and the three methods keep it. *)
Theorem failure_counts_consistent g
    (Hg : counts_consistent g) :
  counts_consistent (@new_degradation W V) /\
  (forall name check handler,
     counts_consistent (register_feature g name check handler)) /\
  (forall name now w,
     counts_consistent (snd (fst (check_feature_health g name now w)))) /\
  (forall name operation now w,
     counts_consistent (snd (fst (use_feature g name operation now w)))).
Proof.
  split_and!.
  - intros k f Hk. cbn in Hk. rewrite lookup_empty in Hk. discriminate.
  - intros name check handler k f Hk. cbn in Hk.
    destruct (decide (k = name)) as [->|Hne].
    + rewrite lookup_insert_eq in Hk. injection Hk as <-. cbn. split; [lia|auto].
    + rewrite lookup_insert_ne in Hk by congruence. apply (Hg _ _ Hk).
  - intros. now apply check_consistent.
  - intros name operation now w.
    pose proof (use_feature_modes g name operation now w) as H. cbn zeta in H.
    destruct (feature_status g !! name) as [f|].
    + destruct H as [-> _]. now apply check_consistent.
    + rewrite H. exact Hg.
Qed.

(** X25: [get_system_health] counts the registered features and, among
    them, those marked healthy; the healthy ones are at most the total, the
    overall health lies between 0 and 1, and it is 1 exactly when every
    registered feature is marked healthy, which includes the empty
    registry; the report has one entry per feature, with its flag, failure
    count and last check. *)
Theorem system_health_range g :
  let s := get_system_health g in
  total_features s = size (feature_status g) /\
  (healthy_features s <= total_features s)%nat /\
  (0 <= overall_health s <= 1)%Q /\
  ((overall_health s == 1)%Q <-> all_healthy g) /\
  (healthy_features s = total_features s <-> all_healthy g) /\
  (forall name,
     feature_report s !! name
     = (fun f => (healthy f, failure_count f, last_check f))
         <$> feature_status g !! name).
Proof.
  cbn zeta. unfold get_system_health.
  cbn [total_features healthy_features overall_health feature_report].
  set (l := map_to_list (feature_status g)).
  set (h := length (List.filter (fun kv => healthy (snd kv)) l)).
  assert (Hsize : size (feature_status g) = length l)
    by (symmetry; apply length_map_to_list).
  rewrite Hsize.
  assert (Hle : (h <= length l)%nat) by apply List.filter_length_le.
  assert (Hall : h = length l <-> all_healthy g).
  { unfold h. rewrite filter_all_length. unfold all_healthy. split.
    - intros H name f Hf. apply (H (name, f)).
      apply list_elem_of_In. apply elem_of_map_to_list. exact Hf.
    - intros H [name f] Hin. cbn. apply (H name).
      apply list_elem_of_In in Hin. apply elem_of_map_to_list in Hin.
      exact Hin. }
  split_and!; try reflexivity; try assumption.
  - destruct (Nat.ltb_spec 0 (length l)) as [Hpos|Hz];
      [apply (ratio_range h _ Hle Hpos)|lra].
  - destruct (Nat.ltb_spec 0 (length l)) as [Hpos|Hz];
      [apply (ratio_range h _ Hle Hpos)|lra].
  - destruct (Nat.ltb_spec 0 (length l)) as [Hpos|Hz].
    + rewrite <- Hall. apply (ratio_range h _ Hle Hpos).
    + rewrite <- Hall. split; [lia|reflexivity].
  - intros name. apply lookup_fmap.
Qed.

End Features.

Lemma failure_counts_consistent_witness :
  counts_consistent
    (snd (fst (use_feature
                 (register_feature new_degradation "search" service_down
                    (Some cached_answer))
                 "search" live_answer "t1" O))).
Proof.
  apply (failure_counts_consistent
           (register_feature new_degradation "search" service_down
              (Some cached_answer))).
  intros k f Hk. cbn in Hk.
  destruct (decide (k = "search")) as [->|Hne].
  - rewrite lookup_insert_eq in Hk. injection Hk as <-. cbn. split; [lia|auto].
  - rewrite lookup_insert_ne in Hk by congruence.
    rewrite lookup_empty in Hk. discriminate.
Defined.

End DegradationProps.

(** ** The resilient HTTP session *)

Module SessionProps.
Import RetryPolicy Breaker Session.
Local Open Scope list_scope.

Lemma isinstance_Exception (e : Exn) : isinstance e "Exception" = true.
Proof. reflexivity. Qed.

Section Http.
Context {W : Type}.
Variable raise_for_status : Response -> Outcome unit.
Implicit Types (s : ResilientHTTPSession)
  (request : W -> Outcome Response * W).

Lemma attempt_settings {V} cb clk (func : W -> Outcome V * W) w :
  let cb' := snd (fst (attempt cb clk func w)) in
  failure_threshold cb' = failure_threshold cb /\
  recovery_timeout cb' = recovery_timeout cb /\
  expected_exception cb' = expected_exception cb.
Proof.
  cbn zeta. unfold attempt. destruct (func w) as [[v|e] w']; cbn [fst snd].
  - unfold _on_success. cbn. destruct (state cb); cbn; auto.
  - destruct (isinstance e (expected_exception cb)); cbn [fst snd]; [|auto].
    unfold _on_failure. cbn.
    destruct (failure_threshold cb <=? failure_count cb + 1); cbn; auto.
Qed.

Lemma wrapper_settings {V} cb name clk (func : W -> Outcome V * W) w :
  let cb' := snd (fst (wrapper cb name clk func w)) in
  failure_threshold cb' = failure_threshold cb /\
  recovery_timeout cb' = recovery_timeout cb /\
  expected_exception cb' = expected_exception cb.
Proof.
  cbn zeta. unfold wrapper. destruct (state cb).
  - apply attempt_settings.
  - destruct (_should_attempt_reset cb (t_check clk)); [|cbn; auto].
    apply (attempt_settings (set_state cb HALF_OPEN)).
  - apply attempt_settings.
Qed.

Lemma request_unfold s name clk request w :
  request_with_resilience raise_for_status s name clk request w
  = (let r := wrapper (breaker_of s name) "make_request" clk
                (make_request raise_for_status s request) w in
     (fst (fst r),
      mkSession (retry_config s)
        (<[name := snd (fst r)]> (circuit_breakers s)),
      snd r)).
Proof.
  unfold request_with_resilience, get_circuit_breaker, breaker_of.
  destruct (circuit_breakers s !! name) as [cb|] eqn:Hcb.
  - destruct (wrapper cb _ clk _ w) as [[o cb'] w']. reflexivity.
  - cbn [retry_config circuit_breakers].
    change (make_request raise_for_status
              (mkSession (retry_config s)
                 (<[name := Breaker.default]> (circuit_breakers s))) request)
      with (make_request raise_for_status s request).
    destruct (wrapper Breaker.default _ clk _ w) as [[o cb'] w'].
    cbn [fst snd]. rewrite insert_insert_eq. reflexivity.
Qed.

Lemma breaker_of_factory s name :
  factory_settings s ->
  failure_threshold (breaker_of s name) = 5 /\
  recovery_timeout (breaker_of s name) = 60%Q /\
  expected_exception (breaker_of s name) = "Exception".
Proof.
  intros Hs. unfold breaker_of.
  destruct (circuit_breakers s !! name) as [cb|] eqn:Hcb; [eauto|].
  cbn. auto.
Qed.

(** one breaker per service.  [request_with_resilience] passes the
    request through the breaker of the named service, a fresh
    [CircuitBreaker()] on the first use of the name, under the name
    [make_request]; what the call does to this breaker is stored under the
    service's name, the breaker of every other service and the retry
    configuration are left alone, and every breaker of the session keeps
    the settings [CircuitBreaker()] gives: threshold 5, timeout 60 and
    [Exception] as the class that counts. *)
Theorem one_breaker_per_service s name clk request w
    (Hs : factory_settings s) :
  let r := request_with_resilience raise_for_status s name clk request w in
  let through := wrapper (breaker_of s name) "make_request" clk
                   (make_request raise_for_status s request) w in
  fst (fst r) = fst (fst through) /\
  snd r = snd through /\
  circuit_breakers (snd (fst r)) !! name = Some (snd (fst through)) /\
  (forall other, other <> name ->
     circuit_breakers (snd (fst r)) !! other = circuit_breakers s !! other) /\
  retry_config (snd (fst r)) = retry_config s /\
  factory_settings (snd (fst r)) /\
  fst (get_circuit_breaker (snd (fst r)) name) = snd (fst through) /\
  snd (get_circuit_breaker (snd (fst r)) name) = snd (fst r).
Proof.
  cbn zeta. rewrite request_unfold. cbn zeta. cbn [fst snd].
  set (through := wrapper (breaker_of s name) "make_request" clk
                    (make_request raise_for_status s request) w).
  assert (Hname : <[name := snd (fst through)]> (circuit_breakers s) !! name
                  = Some (snd (fst through))) by apply lookup_insert_eq.
  split_and!; try reflexivity.
  - exact Hname.
  - intros other Hne. cbn. apply lookup_insert_ne. congruence.
  - intros k cb Hk. cbn in Hk.
    destruct (decide (k = name)) as [->|Hne].
    + rewrite lookup_insert_eq in Hk. injection Hk as <-.
      destruct (wrapper_settings (breaker_of s name) "make_request" clk
                  (make_request raise_for_status s request) w)
        as (H1 & H2 & H3).
      fold through in H1, H2, H3. rewrite H1, H2, H3.
      now apply breaker_of_factory.
    + rewrite lookup_insert_ne in Hk by congruence. exact (Hs _ _ Hk).
  - unfold get_circuit_breaker. cbn [circuit_breakers]. rewrite Hname.
    reflexivity.
  - unfold get_circuit_breaker. cbn [circuit_breakers]. rewrite Hname.
    reflexivity.
Qed.

Lemma breaker_of_insert (c : RetryConfig) (m : gmap string CircuitBreaker)
    (name : string) (cb : CircuitBreaker) :
  breaker_of (mkSession c (<[name := cb]> m)) name = cb.
Proof. unfold breaker_of. cbn. now rewrite lookup_insert_eq. Qed.

(** What [make_request] makes of an answer. *)
Lemma make_request_answer s request w response :
  fst (request w) = Return response ->
  make_request raise_for_status s request w
  = (if existsb (Z.eqb (status_code response))
          (retry_on_status_codes (retry_config s))
     then match raise_for_status response with
          | Raise e => Raise e
          | Return _ => Return response
          end
     else Return response,
     snd (request w)).
Proof.
  intros H. unfold make_request. destruct (request w) as [o w'].
  cbn in H. subst o. cbn [snd].
  destruct (existsb _ _); [|reflexivity].
  destruct (raise_for_status response); reflexivity.
Qed.

(** which answers count as failures.  The breaker of the service not
    being open, and the transport returning a response: a response whose
    status is not among [retry_on_status_codes] is returned as it is,
    whatever the status, and counts as a success, which clears the failure
    count and leaves the breaker closed; a response whose status is among
    them and for which [raise_for_status] raises makes the call raise this
    exception, and the failure is counted. *)
Theorem listed_status_is_a_failure s name clk request w response
    (Hs : factory_settings s)
    (Hopen : state (breaker_of s name) <> OPEN)
    (Hresp : fst (request w) = Return response) :
  let r := request_with_resilience raise_for_status s name clk request w in
  let listed := existsb (Z.eqb (status_code response))
                  (retry_on_status_codes (retry_config s)) in
  snd r = snd (request w) /\
  (listed = false ->
   fst (fst r) = Return response /\
   failure_count (breaker_of (snd (fst r)) name) = 0 /\
   state (breaker_of (snd (fst r)) name) = CLOSED) /\
  (forall e, listed = true -> raise_for_status response = Raise e ->
   fst (fst r) = Raise e /\
   failure_count (breaker_of (snd (fst r)) name)
   = failure_count (breaker_of s name) + 1 /\
   last_failure_time (breaker_of (snd (fst r)) name) = Some (t_fail clk)).
Proof.
  cbn zeta. rewrite request_unfold. cbn zeta. cbn [fst snd].
  destruct (breaker_of_factory s name Hs) as (_ & _ & Hexp).
  assert (Hw : wrapper (breaker_of s name) "make_request" clk
                 (make_request raise_for_status s request) w
               = attempt (breaker_of s name) clk
                   (make_request raise_for_status s request) w).
  { unfold wrapper. destruct (state (breaker_of s name)); congruence. }
  rewrite Hw. unfold attempt.
  rewrite (make_request_answer s request w response Hresp).
  destruct (existsb _ _).
  - destruct (raise_for_status response) as [[]|e]; cbn [fst snd].
    + split_and!; [reflexivity|discriminate|].
      intros e _ He. discriminate.
    + rewrite Hexp, isinstance_Exception. cbn [fst snd].
      rewrite breaker_of_insert.
      split_and!; [reflexivity|discriminate|].
      intros e' _ He. injection He as <-.
      unfold _on_failure. cbn.
      destruct (failure_threshold _ <=? _); cbn; auto.
  - cbn [fst snd]. rewrite breaker_of_insert.
    split_and!; [reflexivity| |discriminate].
    intros _. unfold _on_success. cbn.
    destruct (state (breaker_of s name)) eqn:E; cbn; try congruence; auto.
Qed.
End Http.

Lemma one_breaker_per_service_witness :
  circuit_breakers
    (snd (fst (request_with_resilience http_raise_for_status
                 (new_session None) "gitlab" (mkClock 0 0)
                 (answering 200) O)))
  !! "registry" = None.
Proof.
  assert (Hs : factory_settings (new_session None)).
  { intros k cb Hk. cbn in Hk. rewrite lookup_empty in Hk. discriminate. }
  destruct (one_breaker_per_service http_raise_for_status (new_session None)
              "gitlab" (mkClock 0 0) (answering 200) O Hs)
    as (_ & _ & _ & Hother & _).
  rewrite (Hother "registry"); [apply lookup_empty|discriminate].
Defined.

Lemma listed_status_is_a_failure_witness :
  fst (fst (request_with_resilience http_raise_for_status
              (new_session None) "gitlab" (mkClock 0 0)
              (answering 503) O))
  = Raise (HTTPError 503 "error status") /\
  fst (fst (request_with_resilience http_raise_for_status
              (new_session None) "gitlab" (mkClock 0 0)
              (answering 404) O))
  = Return (mkResponse 404 "").
Proof.
  assert (Hs : factory_settings (new_session None)).
  { intros k cb Hk. cbn in Hk. rewrite lookup_empty in Hk. discriminate. }
  assert (Hopen : state (breaker_of (new_session None) "gitlab") <> OPEN)
    by (cbn; discriminate).
  split.
  - apply (listed_status_is_a_failure http_raise_for_status
             (new_session None) "gitlab" (mkClock 0 0) (answering 503) O
             (mkResponse 503 "") Hs Hopen eq_refl); reflexivity.
  - apply (listed_status_is_a_failure http_raise_for_status
             (new_session None) "gitlab" (mkClock 0 0) (answering 404) O
             (mkResponse 404 "") Hs Hopen eq_refl); reflexivity.
Defined.

End SessionProps.

(** ** Batch analytics *)

Module AnalyticsProps.
Import Batch Statistics Analytics.
Local Open Scope list_scope.

(** *** Tallies *)

Lemma category_cases (e : string) :
  category e = "connection_issues" \/ category e = "permission_issues" \/
  category e = "not_found" \/ category e = "rate_limiting" \/
  category e = "other".
Proof.
  unfold category. cbv zeta.
  destruct (_ || _); [auto|]. destruct (_ || _); [auto|].
  destruct (_ || _); [auto|]. destruct (contains _ _); auto 6.
Qed.

Lemma categorize_fold (results : list BatchResult) : forall acc,
  fold_left
    (fun error_categories result =>
       match error result with
       | Some e =>
           if negb (success result) && negb (String.eqb e "")
           then bump error_categories (category e)
           else error_categories
       | None => error_categories
       end) results acc
  = fold_left bump (List.map category (failed_errors results)) acc.
Proof.
  induction results as [|r rest IH]; intros acc; [reflexivity|].
  cbn [fold_left]. rewrite IH. unfold failed_errors.
  change (omap ?f (r :: rest))
    with (match f r with Some y => y :: omap f rest | None => omap f rest end).
  cbv beta.
  destruct (error r) as [e|]; [|reflexivity].
  destruct (negb (success r) && negb (String.eqb e "")); reflexivity.
Qed.

Lemma risk_fold (results : list BatchResult) : forall acc,
  fold_left
    (fun risk_counts result =>
       if success result && negb (String.eqb (risk_assessment result) "")
       then bump risk_counts (risk_assessment result)
       else risk_counts) results acc
  = fold_left bump (rated_risks results) acc.
Proof.
  induction results as [|r rest IH]; intros acc; [reflexivity|].
  cbn [fold_left]. rewrite IH. unfold rated_risks. cbn [List.filter].
  destruct (success r && negb (String.eqb (risk_assessment r) ""));
    reflexivity.
Qed.

Lemma counted_tally (keys : list string) (k : string) :
  counted (fold_left bump keys ∅) k = occurrences k keys.
Proof.
  unfold counted. rewrite StatisticsProps.tally_lookup. unfold tally_entry.
  destruct (occurrences k keys); reflexivity.
Qed.

Lemma failed_errors_length (results : list BatchResult) :
  (length (failed_errors results)
   <= count_if (fun r => negb (success r)) results)%nat.
Proof.
  unfold failed_errors, count_if.
  induction results as [|r rest IH]; [reflexivity|].
  change (omap ?f (r :: rest))
    with (match f r with Some y => y :: omap f rest | None => omap f rest end).
  cbv beta. cbn [List.filter].
  destruct (error r) as [e|]; destruct (success r); cbn [negb andb length];
    try destruct (negb (String.eqb e "")); cbn [length]; lia.
Qed.

(** [_categorize_errors] files every failed result that carries a
    non-empty error text under exactly one of five categories, chosen by
    the lower-cased text, and nothing else: the entry of a key is the
    number of such texts of that category, with no entry for a category
    that did not occur; no other key appears; and the five counts add up to
    the number of these texts, which is at most the number of failed
    results. *)
Theorem error_categories_partition (results : list BatchResult) :
  let d := _categorize_errors results in
  let texts := failed_errors results in
  (forall k, d !! k = tally_entry k (List.map category texts)) /\
  (forall k, is_Some (d !! k) ->
     In k ["connection_issues"; "permission_issues"; "not_found";
           "rate_limiting"; "other"]) /\
  (counted d "connection_issues" + counted d "permission_issues"
   + counted d "not_found" + counted d "rate_limiting" + counted d "other"
   = length texts)%nat /\
  (length texts <= count_if (fun r => negb (success r)) results)%nat.
Proof.
  cbn zeta. unfold _categorize_errors. rewrite categorize_fold.
  split_and!.
  - intros k. apply StatisticsProps.tally_lookup.
  - intros k [n Hn]. rewrite StatisticsProps.tally_lookup in Hn. unfold tally_entry in Hn.
    destruct (occurrences k _) eqn:Ho; [discriminate|].
    unfold occurrences in Ho.
    destruct (List.filter (String.eqb k) _) as [|c l] eqn:Hf;
      [discriminate|].
    assert (Hin : In c (List.filter (String.eqb k)
                          (List.map category (failed_errors results))))
      by (rewrite Hf; now left).
    apply List.filter_In in Hin. destruct Hin as [Hin Hk].
    apply String.eqb_eq in Hk. subst c.
    apply List.in_map_iff in Hin. destruct Hin as (e & <- & _).
    destruct (category_cases e) as [->|[->|[->|[->| ->]]]]; cbn; auto 6.
  - rewrite !counted_tally.
    induction (failed_errors results) as [|e rest IH]; [reflexivity|].
    cbn [List.map length]. unfold occurrences in *. cbn [List.filter].
    destruct (category_cases e) as [->|[->|[->|[->| ->]]]];
      repeat match goal with
             | |- context [String.eqb ?a ?b] =>
                 let v := eval vm_compute in (String.eqb a b) in
                 change (String.eqb a b) with v
             end;
      cbn [length]; lia.
  - apply failed_errors_length.
Qed.

(** *** Sums, least and greatest values *)

Local Open Scope Q_scope.

Lemma qmin_fold (l : list Q) : forall x,
  In (fold_left Qmin l x) (x :: l) /\
  forall y, In y (x :: l) -> fold_left Qmin l x <= y.
Proof.
  induction l as [|a l IH]; intros x; cbn [fold_left].
  - split; [now left|]. intros y [<-|[]]. lra.
  - destruct (IH (Qmin x a)) as [Hin Hle]. split.
    + destruct Hin as [Hm|Hin]; [|right; now right].
      rewrite <- Hm. unfold Qmin, GenericMinMax.gmin.
      destruct (x ?= a); cbn; auto.
    + intros y [<-|[<-|Hy]].
      * eapply Qle_trans; [apply Hle; now left|apply Q.le_min_l].
      * eapply Qle_trans; [apply Hle; now left|apply Q.le_min_r].
      * apply Hle. now right.
Qed.

Lemma qmax_fold (l : list Q) : forall x,
  In (fold_left Qmax l x) (x :: l) /\
  forall y, In y (x :: l) -> y <= fold_left Qmax l x.
Proof.
  induction l as [|a l IH]; intros x; cbn [fold_left].
  - split; [now left|]. intros y [<-|[]]. lra.
  - destruct (IH (Qmax x a)) as [Hin Hle]. split.
    + destruct Hin as [Hm|Hin]; [|right; now right].
      rewrite <- Hm. unfold Qmax, GenericMinMax.gmax.
      destruct (x ?= a); cbn; auto.
    + intros y [<-|[<-|Hy]].
      * eapply Qle_trans; [apply Q.le_max_l|apply Hle; now left].
      * eapply Qle_trans; [apply Q.le_max_r|apply Hle; now left].
      * apply Hle. now right.
Qed.

Lemma count_positive {A} (x : A) (l : list A) :
  0 < inject_Z (Z.of_nat (length (x :: l))).
Proof. change 0 with (inject_Z 0). rewrite <- Zlt_Qlt. cbn [length]. lia. Qed.

Lemma mean_bounds (lo hi total n : Q) :
  0 < n -> lo * n <= total <= hi * n -> lo <= total / n <= hi.
Proof.
  intros Hn [H1 H2]. split.
  - apply Qle_shift_div_l; assumption.
  - apply Qle_shift_div_r; assumption.
Qed.

Lemma share_range (part whole : nat) :
  (part <= whole)%nat -> (0 < whole)%nat ->
  0 <= inject_Z (Z.of_nat part) / inject_Z (Z.of_nat whole) * 100 <= 100.
Proof.
  intros Hle Hpos.
  assert (Hw : 0 < inject_Z (Z.of_nat whole)).
  { change 0 with (inject_Z 0). rewrite <- Zlt_Qlt. lia. }
  assert (Hp : 0 <= inject_Z (Z.of_nat part)).
  { change 0 with (inject_Z 0). rewrite <- Zle_Qle. lia. }
  assert (Hpw : inject_Z (Z.of_nat part) <= inject_Z (Z.of_nat whole)).
  { rewrite <- Zle_Qle. lia. }
  assert (0 <= inject_Z (Z.of_nat part) / inject_Z (Z.of_nat whole) <= 1).
  { apply mean_bounds; [exact Hw|]. lra. }
  lra.
Qed.

(** [get_analytics] answers nothing for an empty result list, and
    otherwise: the fastest and the slowest review are processing times of
    recorded results, no result being faster than the one or slower than
    the other; the success rate and the rate of posted reviews lie between
    0 and 100; and the risk distribution, the file changes and the error
    categories are those of the three helpers. *)
Theorem performance_figures (results : list BatchResult) :
  (get_analytics results = None <-> results = []) /\
  (forall a, get_analytics results = Some a ->
     let p := performance a in
     let times := List.map processing_time results in
     In (fastest_review p) times /\ In (slowest_review p) times /\
     (forall t, In t times -> fastest_review p <= t <= slowest_review p) /\
     0 <= sm_success_rate (success_metrics a) <= 100 /\
     0 <= reviews_posted_rate (success_metrics a) <= 100 /\
     risk_distribution (quality a) = _get_risk_distribution results /\
     file_change_distribution (quality a)
     = _get_file_change_distribution results /\
     error_categories (success_metrics a) = _categorize_errors results).
Proof.
  split.
  - destruct results; cbn; split; congruence.
  - intros a Ha. destruct results as [|r0 rest]; [discriminate|].
    cbn zeta. unfold get_analytics in Ha. injection Ha as <-.
    cbn [performance success_metrics quality fastest_review slowest_review
         sm_success_rate reviews_posted_rate risk_distribution
         file_change_distribution error_categories].
    change (List.map processing_time (r0 :: rest))
      with (processing_time r0 :: List.map processing_time rest).
    destruct (qmin_fold (List.map processing_time rest) (processing_time r0))
      as [Hmin_in Hmin].
    destruct (qmax_fold (List.map processing_time rest) (processing_time r0))
      as [Hmax_in Hmax].
    assert (Hshare : forall p : BatchResult -> bool,
              0 <= inject_Z (Z.of_nat (length (List.filter p (r0 :: rest))))
                   / inject_Z (Z.of_nat (length (r0 :: rest))) * 100
              <= 100).
    { intros p. apply share_range;
        [apply List.filter_length_le|cbn [length]; lia]. }
    split_and!; try assumption; try reflexivity;
      try apply (Hshare success); try apply (Hshare review_posted).
    intros t Ht. split; [apply Hmin|apply Hmax]; exact Ht.
Qed.

Lemma performance_figures_witness :
  exists a,
    get_analytics [result_of true 2 None; result_of false 4 (Some "timeout")]
    = Some a /\
    fastest_review (performance a) <= slowest_review (performance a).
Proof.
  eexists. split; [reflexivity|].
  destruct (proj2 (performance_figures
                     [result_of true 2 None;
                      result_of false 4 (Some "timeout")]) _ eq_refl)
    as (Hin & _ & Hall & _).
  apply (Hall _ Hin).
Defined.

Local Open Scope Z_scope.

Lemma zsum_from (l : list Z) : forall a, fold_left Z.add l a = a + zsum l.
Proof.
  unfold zsum. induction l as [|x l IH]; intros a; cbn [fold_left]; [lia|].
  rewrite (IH (a + x)), (IH (0 + x)). lia.
Qed.

Lemma zsum_cons (x : Z) (l : list Z) : zsum (x :: l) = x + zsum l.
Proof. unfold zsum at 1. cbn [fold_left]. rewrite zsum_from. lia. Qed.

Lemma zmin_fold (l : list Z) : forall x,
  In (fold_left Z.min l x) (x :: l) /\
  forall y, In y (x :: l) -> fold_left Z.min l x <= y.
Proof.
  induction l as [|a l IH]; intros x; cbn [fold_left].
  - split; [now left|]. intros y [<-|[]]. lia.
  - destruct (IH (Z.min x a)) as [Hin Hle]. split.
    + destruct Hin as [Hm|Hin]; [|right; now right].
      rewrite <- Hm. destruct (Z.min_spec x a) as [[_ ->]|[_ ->]]; cbn; auto.
    + intros y [<-|[<-|Hy]].
      * specialize (Hle _ (or_introl eq_refl)). lia.
      * specialize (Hle _ (or_introl eq_refl)). lia.
      * apply Hle. now right.
Qed.

Lemma zmax_fold (l : list Z) : forall x,
  In (fold_left Z.max l x) (x :: l) /\
  forall y, In y (x :: l) -> y <= fold_left Z.max l x.
Proof.
  induction l as [|a l IH]; intros x; cbn [fold_left].
  - split; [now left|]. intros y [<-|[]]. lia.
  - destruct (IH (Z.max x a)) as [Hin Hle]. split.
    + destruct Hin as [Hm|Hin]; [|right; now right].
      rewrite <- Hm. destruct (Z.max_spec x a) as [[_ ->]|[_ ->]]; cbn; auto.
    + intros y [<-|[<-|Hy]].
      * specialize (Hle _ (or_introl eq_refl)). lia.
      * specialize (Hle _ (or_introl eq_refl)). lia.
      * apply Hle. now right.
Qed.

Lemma zsum_bounds (lo hi : Z) (l : list Z) :
  (forall y, In y l -> lo <= y <= hi) ->
  lo * Z.of_nat (length l) <= zsum l <= hi * Z.of_nat (length l).
Proof.
  induction l as [|x l IH]; intros H.
  - unfold zsum. cbn. lia.
  - rewrite zsum_cons. cbn [length]. rewrite Nat2Z.inj_succ.
    pose proof (H x (or_introl eq_refl)).
    assert (lo * Z.of_nat (length l) <= zsum l <= hi * Z.of_nat (length l))
      by (apply IH; intros y Hy; apply H; now right).
    lia.
Qed.

(** The mean of a non-empty list of integers lies between its least and
    its greatest value. *)
Lemma per_bounds (x : Z) (rest : list Z) :
  (inject_Z (fold_left Z.min rest x)
   <= per (zsum (x :: rest)) (length (x :: rest))
   <= inject_Z (fold_left Z.max rest x))%Q.
Proof.
  destruct (zmin_fold rest x) as [_ Hmin].
  destruct (zmax_fold rest x) as [_ Hmax].
  destruct (zsum_bounds (fold_left Z.min rest x) (fold_left Z.max rest x)
              (x :: rest)) as [H1 H2];
    [intros y Hy; split; [apply Hmin|apply Hmax]; exact Hy|].
  unfold per. apply mean_bounds; [apply count_positive|].
  rewrite <- !inject_Z_mult, <- !Zle_Qle. auto.
Qed.

(** the quality figures. [_get_risk_distribution] counts the
    successful results by their risk assessment, leaving out the empty
    ones; [_get_file_change_distribution] answers nothing exactly when
    there is no successful result, and otherwise, over the successful
    results: the least and the greatest number of files are numbers of
    files of results, the average lies between them, the totals of lines
    added and removed are the sums, and no result added or removed more
    lines than the maxima. *)
Theorem quality_figures (results : list BatchResult) :
  let successes := List.filter success results in
  (forall k, _get_risk_distribution results !! k
             = tally_entry k (rated_risks results)) /\
  (_get_file_change_distribution results = None <-> successes = []) /\
  (forall d, _get_file_change_distribution results = Some d ->
     let counts := List.map file_count successes in
     let sp := files_changed d in
     In (sp_min sp) counts /\ In (sp_max sp) counts /\
     (forall n, In n counts -> sp_min sp <= n <= sp_max sp) /\
     (inject_Z (sp_min sp) <= sp_average sp <= inject_Z (sp_max sp))%Q /\
     vol_total (fc_lines_added d) = zsum (List.map lines_added successes) /\
     vol_total (fc_lines_removed d)
     = zsum (List.map lines_removed successes) /\
     (forall r, In r successes ->
        lines_added r <= vol_max (fc_lines_added d) /\
        lines_removed r <= vol_max (fc_lines_removed d))).
Proof.
  cbn zeta. split_and!.
  - intros k. unfold _get_risk_distribution. rewrite risk_fold.
    apply StatisticsProps.tally_lookup.
  - unfold _get_file_change_distribution.
    destruct results as [|r rest]; [split; reflexivity|].
    destruct (List.filter success (r :: rest)); split; congruence.
  - intros d Hd. unfold _get_file_change_distribution in Hd.
    destruct results as [|r rest]; [discriminate|].
    destruct (List.filter success (r :: rest)) as [|r0 succ];
      [discriminate|].
    injection Hd as <-.
    cbn [files_changed fc_lines_added fc_lines_removed sp_min sp_max
         sp_average volume vol_total vol_max List.map].
    destruct (zmin_fold (List.map file_count succ) (file_count r0))
      as [Hmin_in Hmin].
    destruct (zmax_fold (List.map file_count succ) (file_count r0))
      as [Hmax_in Hmax].
    destruct (zmax_fold (List.map lines_added succ) (lines_added r0))
      as [_ Hadd].
    destruct (zmax_fold (List.map lines_removed succ) (lines_removed r0))
      as [_ Hrem].
    split_and!; try assumption; try reflexivity;
      try apply (per_bounds (file_count r0) (List.map file_count succ)).
    + intros n Hn. split; [apply Hmin|apply Hmax]; exact Hn.
    + intros r1 Hr1. split.
      * apply Hadd. change (In (lines_added r1)
                              (List.map lines_added (r0 :: succ))).
        now apply List.in_map.
      * apply Hrem. change (In (lines_removed r1)
                              (List.map lines_removed (r0 :: succ))).
        now apply List.in_map.
Qed.

Lemma quality_figures_witness :
  _get_file_change_distribution [result_of false 4 (Some "timeout")] = None.
Proof.
  apply (proj1 (proj2 (quality_figures [result_of false 4 (Some "timeout")]))).
  reflexivity.
Defined.

End AnalyticsProps.
